(** * FIFO capital-gain calculator: a shallow embedding of [cap-gain-calculator.py]

    The script is a straight-line program over a handful of mutable
    variables.  The embedding follows it section by section:

    - section 2 of the script (validation and queue construction) is
      [insert_row] and [build_queues];
    - the body of the matching loop after its [pop] (script lines 133-237)
      is [loop_body], cut into the four phases the script runs in sequence:
      [match_sale] (133-203), [emit] (205-208), [update_year_summary]
      (210-232) and [update_volume] (234-237);
    - the two [while] loops are [fifo_loop], which does the [pop] of line
      131, and [carryover_loop];
    - the outer [for asset in asset_map] loop is [run_assets].

    The numbers of the script are read in two ways.  Here amounts and units
    are exact rationals ([Qc], canonical fractions with Leibniz equality):
    this reading carries what does not depend on how the script rounds,
    which is the queues, validation, the margin test, what is raised and
    when, the classification and the shape of the tables; the units and
    amounts of its sample transactions are dyadic rationals of a few bits,
    chosen so that every operation the script performs on them is exact.
    The script itself computes with binary floating point, and its division
    raises on a zero divisor: [Float64], after the sample transactions, is
    the matching section of the script on those numbers, and carries what
    is said of the script's sums, differences and quotients.
    Timestamps are integers counting nanoseconds since the epoch, as
    [pandas.Timestamp.value] does. *)

From Stdlib Require Import ZArith QArith Qcanon Qcabs Lia Ascii.
From Stdlib Require PrimFloat FloatOps.
From stdpp Require Import base strings gmap list pretty fin_maps.

(** ** Numbers *)

Definition Qcltb (x y : Qc) : bool :=
  match (x ?= y)%Qc with Lt => true | _ => false end.

(** The dust threshold, written [.00000001] in the script. *)
Definition dust : Qc := Q2Qc (1 # 100000000).

(** [abs(u) > .00000001] *)
Definition not_dust (u : Qc) : bool := Qcltb dust (Qcabs u).

(** ** Time *)

Definition ns_per_second : Z := 1000000000.
Definition ns_per_day : Z := 86400 * ns_per_second.

(** [pd.Timedelta(n, "seconds")] and [pd.Timedelta(n, "d")]. *)
Definition Timedelta_seconds (n : Z) : Z := n * ns_per_second.
Definition Timedelta_days (n : Z) : Z := n * ns_per_day.

(** The [.year] attribute of a timestamp: the proleptic Gregorian year of the
    day the instant falls in. *)
Definition year_of_days (days : Z) : Z :=
  let z := (days + 719468)%Z in
  let era := (z / 146097)%Z in
  let doe := (z - era * 146097)%Z in
  let yoe := ((doe - doe / 1460 + doe / 36524 - doe / 146096) / 365)%Z in
  let doy := (doe - (365 * yoe + yoe / 4 - yoe / 100))%Z in
  let mp := ((5 * doy + 2) / 153)%Z in
  let y := (yoe + era * 400)%Z in
  if (mp <? 10)%Z then y else (y + 1)%Z.

Definition year (ts : Z) : Z := year_of_days (ts / ns_per_day).

(** [str(ts.year)] *)
Definition year_label (ts : Z) : string := pretty (year ts).

(** ** Double-ended queues

    A [collections.deque] is the list of its elements from left to right.
    The script uses [appendleft] to fill the queues, [pop] to take the
    rightmost element, [[-1]] to look at it and [append] to put a reduced
    transaction back at the right end. *)

Module Deque.
Definition t (A : Type) := list A.

Definition appendleft {A} (x : A) (d : t A) : t A := x :: d.
Definition append {A} (x : A) (d : t A) : t A := d ++ [x].

Fixpoint pop {A} (d : t A) : option (A * t A) :=
  match d with
  | [] => None
  | x :: d' =>
      match pop d' with
      | None => Some (x, [])
      | Some (y, r) => Some (y, x :: r)
      end
  end.

(** [d[-1]] *)
Definition peek {A} (d : t A) : option A := fst <$> pop d.
End Deque.

(** ** Records *)

(** A row of the transaction log. *)
Record Tx := mkTx {
  Timestamp : Z;
  Asset : string;
  Type_ : string;
  Units : Qc;
  Total_Amount : Qc;
  IRS_ID : string
}.

(** The [match] dictionary as it is written by an iteration of the matching
    loop.  [Remainder Units] and [Remainder Basis] are ['-'] there. *)
Record Lot := mkLot {
  lot_Asset : string;
  Date_Purchased : Z;
  Date_Sold : Z;
  lot_Units : Qc;
  Sale_Price : Qc;
  Basis : Qc;
  Gain_Loss : Qc;
  IRS_ID_Buy : string;
  IRS_ID_Sell : string
}.

(** The [match] dictionary as it is written by the carryover loop: every
    column that is not listed is ['-']. *)
Record Carryover := mkCarryover {
  co_Asset : string;
  co_Date_Purchased : Z;
  co_Remainder_Units : Qc;
  co_Remainder_Basis : Qc;
  co_IRS_ID_Buy : string
}.

(** [volume_summary] *)
Record Volume := mkVolume {
  v_Gain_Loss : Qc;
  v_Sale_Price : Qc;
  v_Basis : Qc;
  v_Remainder_Units : Qc;
  v_Remainder_Basis : Qc
}.

(** A row of a per-asset data frame [fifo[asset]]. *)
Inductive fifo_row :=
| LotRow (m : Lot)
| CarryoverRow (c : Carryover)
| VolumeRow (v : Volume).

(** A value of [year_summary]. *)
Record Bucket := mkBucket {
  Year : string;
  STCG : Qc;
  STCL : Qc;
  LTCG : Qc;
  LTCL : Qc;
  Net_CG : Qc
}.

(** The four classified columns of a bucket. *)
Inductive column := cSTCG | cSTCL | cLTCG | cLTCL.

Definition new_bucket (label : string) : Bucket :=
  mkBucket label 0 0 0 0 0.

(** [bucket[col] += g] *)
Definition add_column (col : column) (g : Qc) (b : Bucket) : Bucket :=
  match col with
  | cSTCG => mkBucket (Year b) (STCG b + g) (STCL b) (LTCG b) (LTCL b) (Net_CG b)
  | cSTCL => mkBucket (Year b) (STCG b) (STCL b + g) (LTCG b) (LTCL b) (Net_CG b)
  | cLTCG => mkBucket (Year b) (STCG b) (STCL b) (LTCG b + g) (LTCL b) (Net_CG b)
  | cLTCL => mkBucket (Year b) (STCG b) (STCL b) (LTCG b) (LTCL b + g) (Net_CG b)
  end.

(** [bucket['Net CG'] += g] *)
Definition add_net (g : Qc) (b : Bucket) : Bucket :=
  mkBucket (Year b) (STCG b) (STCL b) (LTCG b) (LTCL b) (Net_CG b + g).

(** ** Program state *)

(** What an iteration of the matching loop reads and writes: the two queues
    of the current asset, its data frame and volume summary, and the three
    variables shared by all assets.  [buy_tx] is [None] as long as the name
    has not been assigned. *)
Record State := mkState {
  asset : string;
  buy_deque : Deque.t Tx;
  sell_deque : Deque.t Tx;
  fifo_asset : list fifo_row;
  volume_summary : Volume;
  margin : list Lot;
  year_summary : gmap string Bucket;
  buy_tx : option Tx
}.

Inductive error :=
| NameError (name : string)
| KeyError (key : string).

(** The result of running a piece of the script: it falls through, or it
    raises with the variables as they are at that moment.  [Timeout] is the
    answer of a loop whose fuel ran out; [fifo_loop_terminates],
    [carryover_loop_terminates] and [run_assets_terminates] show that the
    fuel the loops are run with is enough. *)
Inductive outcome (A : Type) :=
| Done (a : A)
| Raised (e : error) (a : A)
| Timeout.
Arguments Done {A} a.
Arguments Raised {A} e a.
Arguments Timeout {A}.

Definition bind {A B} (o : outcome A) (abort : A -> B) (k : A -> outcome B)
  : outcome B :=
  match o with
  | Done a => k a
  | Raised e a => Raised e (abort a)
  | Timeout => Timeout
  end.

(** The variables an outcome leaves behind, if any. *)
Definition final {A} (o : outcome A) : option A :=
  match o with
  | Done a | Raised _ a => Some a
  | Timeout => None
  end.

(** ** Section 3 of the script: one iteration of the matching loop *)

Definition set_queues (buys sells : Deque.t Tx) (st : State) : State :=
  mkState (asset st) buys sells (fifo_asset st) (volume_summary st)
    (margin st) (year_summary st) (buy_tx st).

(** Lines 139-149: the margin branch.  The row appended to [margin] carries
    the gain assigned on line 146; [match] itself goes on to line 203. *)
Definition margin_lot (a : string) (sell_tx : Tx) : Lot :=
  mkLot a (Timestamp sell_tx) (Timestamp sell_tx) (Qcabs (Units sell_tx))
    (Total_Amount sell_tx) 0 (Total_Amount sell_tx) "MARGIN" (IRS_ID sell_tx).

(** Line 203: [match['Gain / Loss'] = match['Sale Price'] - match['Basis']] *)
Definition set_gain (m : Lot) : Lot :=
  mkLot (lot_Asset m) (Date_Purchased m) (Date_Sold m) (lot_Units m)
    (Sale_Price m) (Basis m) (Sale_Price m - Basis m)
    (IRS_ID_Buy m) (IRS_ID_Sell m).

(** Lines 158-200, before line 203: the lot of a non-margin match; the gain
    column still holds whatever the previous iteration left and is
    overwritten on line 203, so it is filled by [set_gain]. *)
Definition matched_lot (a : string) (b s : Tx) (units price basis : Qc) : Lot :=
  set_gain (mkLot a (Timestamp b) (Timestamp s) units price basis 0
              (IRS_ID b) (IRS_ID s)).

Definition set_units_amount (u amt : Qc) (t : Tx) : Tx :=
  mkTx (Timestamp t) (Asset t) (Type_ t) u amt (IRS_ID t).

(** Line 134-135, on the purchase at the right end of the queue. *)
Definition too_late (b sell_tx : Tx) : bool :=
  (Timestamp sell_tx + Timedelta_seconds 15 <? Timestamp b)%Z.

(** Lines 134-203.  [sell_tx] has been popped; [st] holds the queues after
    that pop.  The result is the [match] dictionary after line 203 and the
    state after the queue and [margin] updates.  The script tests the queue
    with [not deque or deque[-1]...] and pops in the [else] branch; popping
    first and restoring nothing in the margin branch is the same thing. *)
Definition match_sale (sell_tx : Tx) (st : State) : Lot * State :=
  let margin_branch :=
    let m := margin_lot (asset st) sell_tx in
    (set_gain m,
     mkState (asset st) (buy_deque st) (sell_deque st) (fifo_asset st)
       (volume_summary st) (margin st ++ [m]) (year_summary st) (buy_tx st)) in
  match Deque.pop (buy_deque st) with
  | None => margin_branch
  | Some (b, buys) =>
      if too_late b sell_tx then margin_branch
      else
        let su := Qcabs (Units sell_tx) in
        if Qcltb (Units b) su then
          (* line 164: the sale is larger, the purchase is used up *)
          let pro_rata_sale_price := (Units b / su * Total_Amount sell_tx)%Qc in
          let sell_tx' :=
            set_units_amount (Units sell_tx + Units b)
              (Total_Amount sell_tx - pro_rata_sale_price) sell_tx in
          (matched_lot (asset st) b sell_tx (Units b) pro_rata_sale_price
             (Total_Amount b),
           mkState (asset st) buys (Deque.append sell_tx' (sell_deque st))
             (fifo_asset st) (volume_summary st) (margin st)
             (year_summary st) (Some b))
        else if Qcltb su (Units b) then
          (* line 180: the purchase is larger, the sale is used up *)
          let pro_rata_basis := (su / Units b * Total_Amount b)%Qc in
          let buy_tx' :=
            set_units_amount (Units b + Units sell_tx)
              (Total_Amount b - pro_rata_basis) b in
          (matched_lot (asset st) b sell_tx su (Total_Amount sell_tx)
             pro_rata_basis,
           mkState (asset st) (Deque.append buy_tx' buys) (sell_deque st)
             (fifo_asset st) (volume_summary st) (margin st)
             (year_summary st) (Some buy_tx'))
        else
          (* line 196: same units *)
          (matched_lot (asset st) b sell_tx (Units b) (Total_Amount sell_tx)
             (Total_Amount b),
           mkState (asset st) buys (sell_deque st)
             (fifo_asset st) (volume_summary st) (margin st)
             (year_summary st) (Some b))
  end.

(** Lines 205-208. *)
Definition emit (m : Lot) (st : State) : State :=
  if not_dust (lot_Units m) then
    mkState (asset st) (buy_deque st) (sell_deque st)
      (fifo_asset st ++ [LotRow m]) (volume_summary st) (margin st)
      (year_summary st) (buy_tx st)
  else st.

(** Statements on [year_summary]: a statement falls through or raises, and
    in both cases leaves the dictionary as it is at that moment. *)
Definition stmt := gmap string Bucket -> option error * gmap string Bucket.

(** [year_summary[k][...] += ...], where [f] is the update of the bucket. *)
Definition item_update (k : string) (f : Bucket -> Bucket) : stmt :=
  fun ys =>
    match ys !! k with
    | Some b => (None, <[k := f b]> ys)
    | None => (Some (KeyError k), ys)
    end.

Definition seq (s1 s2 : stmt) : stmt :=
  fun ys =>
    match s1 ys with
    | (None, ys') => s2 ys'
    | r => r
    end.
Notation "s1 ;> s2" := (seq s1 s2) (at level 61, left associativity).

(** Lines 213-214. *)
Definition add_year (label : string) (ys : gmap string Bucket)
  : gmap string Bucket :=
  match ys !! label with
  | Some _ => ys
  | None => <[label := new_bucket label]> ys
  end.

(** The tests of lines 216, 217 and 224. *)
Definition long_term (sell_ts buy_ts : Z) : bool :=
  negb (sell_ts - buy_ts <? Timedelta_days 365)%Z.

Definition classify (sell_ts buy_ts : Z) (g : Qc) : column :=
  if long_term sell_ts buy_ts
  then (if Qcltb 0 g then cLTCG else cLTCL)
  else (if Qcltb 0 g then cSTCG else cSTCL).

(** Lines 217-232, once line 216 has found [buy_tx]. *)
Definition add_gain (label : string) (col : column) (g : Qc) : stmt :=
  item_update label (add_column col g) ;>
  item_update "totals" (add_column col g) ;>
  item_update label (add_net g) ;>
  item_update "totals" (add_net g).

Definition set_year_summary (ys : gmap string Bucket) (st : State) : State :=
  mkState (asset st) (buy_deque st) (sell_deque st) (fifo_asset st)
    (volume_summary st) (margin st) ys (buy_tx st).

(** Lines 210-232.  Only the timestamp of [sell_tx] is read, which the
    updates of lines 175-176 leave alone.  The name [buy_tx] is looked up on
    line 216, after the year's bucket has been created. *)
Definition update_year_summary (sell_tx : Tx) (m : Lot) (st : State)
  : outcome State :=
  let label := year_label (Timestamp sell_tx) in
  let ys := add_year label (year_summary st) in
  match buy_tx st with
  | None => Raised (NameError "buy_tx") (set_year_summary ys st)
  | Some b =>
      let col := classify (Timestamp sell_tx) (Timestamp b) (Gain_Loss m) in
      match add_gain label col (Gain_Loss m) ys with
      | (None, ys') => Done (set_year_summary ys' st)
      | (Some e, ys') => Raised e (set_year_summary ys' st)
      end
  end.

(** Lines 234-237. *)
Definition update_volume (m : Lot) (st : State) : State :=
  let v := volume_summary st in
  mkState (asset st) (buy_deque st) (sell_deque st) (fifo_asset st)
    (mkVolume (v_Gain_Loss v + Gain_Loss m) (v_Sale_Price v + Sale_Price m)
       (v_Basis v + Basis m) (v_Remainder_Units v) (v_Remainder_Basis v))
    (margin st) (year_summary st) (buy_tx st).

(** Lines 133-237: the body of the matching loop after the pop of line 131. *)
Definition loop_body (sell_tx : Tx) (st : State) : outcome State :=
  let '(m, st1) := match_sale sell_tx st in
  bind (update_year_summary sell_tx m (emit m st1)) id
    (fun st' => Done (update_volume m st')).

(** Lines 128-237.  *)
Fixpoint fifo_loop (fuel : nat) (st : State) : outcome State :=
  match fuel with
  | O => Timeout
  | S fuel' =>
      match Deque.pop (sell_deque st) with
      | None => Done st
      | Some (sell_tx, sells) =>
          bind (loop_body sell_tx (set_queues (buy_deque st) sells st)) id
            (fifo_loop fuel')
      end
  end.

(** Lines 242-262: the body of the carryover loop. *)
Definition carryover_body (b : Tx) (st : State) : State :=
  let v := volume_summary st in
  let row :=
    mkCarryover (asset st) (Timestamp b) (Units b) (Total_Amount b) (IRS_ID b) in
  mkState (asset st) (buy_deque st) (sell_deque st)
    (if Qcltb dust (Units b) then fifo_asset st ++ [CarryoverRow row]
     else fifo_asset st)
    (mkVolume (v_Gain_Loss v) (v_Sale_Price v) (v_Basis v)
       (v_Remainder_Units v + Units b) (v_Remainder_Basis v + Total_Amount b))
    (margin st) (year_summary st) (Some b).

(** Lines 241-262. *)
Fixpoint carryover_loop (fuel : nat) (st : State) : outcome State :=
  match fuel with
  | O => Timeout
  | S fuel' =>
      match Deque.pop (buy_deque st) with
      | None => Done st
      | Some (b, buys) =>
          carryover_loop fuel'
            (carryover_body b (set_queues buys (sell_deque st) st))
      end
  end.

(** Lines 264-266. *)
Definition append_volume_row (st : State) : State :=
  mkState (asset st) (buy_deque st) (sell_deque st)
    (fifo_asset st ++ [VolumeRow (volume_summary st)]) (volume_summary st)
    (margin st) (year_summary st) (buy_tx st).

(** ** The whole run *)

(** The variables that outlive the processing of one asset. *)
Record Globals := mkGlobals {
  fifo : gmap string (list fifo_row);
  g_margin : list Lot;
  g_year_summary : gmap string Bucket;
  g_buy_tx : option Tx
}.

(** Lines 103-110. *)
Definition totals_bucket : Bucket := mkBucket "Totals" 0 0 0 0 0.

Definition initial_globals : Globals :=
  mkGlobals ∅ [] {[ "totals" := totals_bucket ]} None.

(** Lines 116-125. *)
Definition enter_asset (a : string) (qs : Deque.t Tx * Deque.t Tx) (g : Globals)
  : State :=
  mkState a (fst qs) (snd qs) [] (mkVolume 0 0 0 0 0)
    (g_margin g) (g_year_summary g) (g_buy_tx g).

(** The globals as an asset leaves them, [fifo[asset]] included. *)
Definition leave_asset (g : Globals) (st : State) : Globals :=
  mkGlobals (<[asset st := fifo_asset st]> (fifo g))
    (margin st) (year_summary st) (buy_tx st).

(** Every iteration of either loop takes a transaction out of a queue for
    good, so one more than the number of queued transactions is enough. *)
Definition queued (st : State) : nat :=
  length (buy_deque st) + length (sell_deque st).

(** Lines 113-266 for one asset. *)
Definition run_asset (a : string) (qs : Deque.t Tx * Deque.t Tx) (g : Globals)
  : outcome Globals :=
  let st0 := enter_asset a qs g in
  bind (fifo_loop (S (queued st0)) st0) (leave_asset g) (fun st1 =>
  bind (carryover_loop (S (queued st1)) st1) (leave_asset g) (fun st2 =>
  Done (leave_asset g (append_volume_row st2)))).

(** [asset_map]: a dictionary iterated in insertion order. *)
Definition asset_map := list (string * (Deque.t Tx * Deque.t Tx)).

(** Line 113. *)
Fixpoint run_assets (am : asset_map) (g : Globals) : outcome Globals :=
  match am with
  | [] => Done g
  | (a, qs) :: am' => bind (run_asset a qs g) id (run_assets am')
  end.

(** ** Section 2 of the script: validation and queue construction

    The null checks of lines 62-71 have no counterpart: a [Tx] has all its
    fields.  [now] stands for [pd.Timestamp.now()].  A failed check ends the
    program through [validate_error]; its message is what is returned. *)

Definition appendleft_buy (row : Tx) (qs : Deque.t Tx * Deque.t Tx) :=
  (Deque.appendleft row (fst qs), snd qs).
Definition appendleft_sell (row : Tx) (qs : Deque.t Tx * Deque.t Tx) :=
  (fst qs, Deque.appendleft row (snd qs)).

(** [asset_map[a] = f(asset_map[a])], creating the pair of queues first when
    the asset is new (lines 75-78). *)
Fixpoint am_modify (a : string)
    (f : Deque.t Tx * Deque.t Tx -> Deque.t Tx * Deque.t Tx) (am : asset_map)
  : asset_map :=
  match am with
  | [] => [(a, f ([], []))]
  | (a', qs) :: am' =>
      if decide (a' = a) then (a', f qs) :: am'
      else (a', qs) :: am_modify a f am'
  end.

(** Lines 62-90 for one row. *)
Definition insert_row (now : Z) (row : Tx) (am : asset_map)
  : string + asset_map :=
  if negb (Qcltb 0 (Total_Amount row)) then
    inl "Total Amount is empty or negative"
  else if (now <? Timestamp row)%Z then
    inl "Timestamp is empty or invalid"
  else if decide (Type_ row = "Buy") then
    if Qcltb (Units row) 0 then inl "Units is negative on a Buy transaction"
    else inr (am_modify (Asset row) (appendleft_buy row) am)
  else if decide (Type_ row = "Sell") then
    if Qcltb 0 (Units row) then inl "Units is positive on a Sell transaction"
    else inr (am_modify (Asset row) (appendleft_sell row) am)
  else inl "Type is empty or neither Buy nor Sell".

(** Lines 61-90. *)
Fixpoint build_queues (now : Z) (transactions : list Tx) (am : asset_map)
  : string + asset_map :=
  match transactions with
  | [] => inr am
  | row :: rest =>
      match insert_row now row am with
      | inl message => inl message
      | inr am' => build_queues now rest am'
      end
  end.

(** Sections 2 and 3 of the script on a sorted transaction log. *)
Definition run (now : Z) (transactions : list Tx) : string + outcome Globals :=
  match build_queues now transactions [] with
  | inl message => inl message
  | inr am => inr (run_assets am initial_globals)
  end.

(** ** Decidable equality of the records, for evaluation on concrete logs *)

#[global] Instance Tx_eq_dec : EqDecision Tx.
Proof. solve_decision. Defined.
#[global] Instance Lot_eq_dec : EqDecision Lot.
Proof. solve_decision. Defined.
#[global] Instance Carryover_eq_dec : EqDecision Carryover.
Proof. solve_decision. Defined.
#[global] Instance Volume_eq_dec : EqDecision Volume.
Proof. solve_decision. Defined.
#[global] Instance fifo_row_eq_dec : EqDecision fifo_row.
Proof. solve_decision. Defined.
#[global] Instance Bucket_eq_dec : EqDecision Bucket.
Proof. solve_decision. Defined.
#[global] Instance error_eq_dec : EqDecision error.
Proof. solve_decision. Defined.
#[global] Instance State_eq_dec : EqDecision State.
Proof. solve_decision. Defined.
#[global] Instance Globals_eq_dec : EqDecision Globals.
Proof. solve_decision. Defined.
#[global] Instance outcome_eq_dec `{EqDecision A} : EqDecision (outcome A).
Proof. solve_decision. Defined.

(** * Vocabulary of the properties *)

(** The test of lines 134-135 on the state an iteration starts in. *)
Definition uncovered (st : State) (sell_tx : Tx) : Prop :=
  buy_deque st = [] \/
  exists b, Deque.peek (buy_deque st) = Some b /\
            (Timestamp sell_tx + Timedelta_seconds 15 < Timestamp b)%Z.

(** The state the margin branch produces. *)
Definition margin_state (sell_tx : Tx) (st : State) : State :=
  mkState (asset st) (buy_deque st) (sell_deque st) (fifo_asset st)
    (volume_summary st) (margin st ++ [margin_lot (asset st) sell_tx])
    (year_summary st) (buy_tx st).

(** The three ways a covered sale meets the purchase at the head of the
    queue. *)
Inductive magnitude := SaleLarger | PurchaseLarger | SameUnits.

Definition compare_units (b s : Tx) : magnitude :=
  if Qcltb (Units b) (Qcabs (Units s)) then SaleLarger
  else if Qcltb (Qcabs (Units s)) (Units b) then PurchaseLarger
  else SameUnits.

(** Two states that differ at most in [year_summary] and [volume_summary]. *)
Definition same_tables (st1 st2 : State) : Prop :=
  asset st1 = asset st2 /\ buy_deque st1 = buy_deque st2 /\
  sell_deque st1 = sell_deque st2 /\ fifo_asset st1 = fifo_asset st2 /\
  margin st1 = margin st2 /\ buy_tx st1 = buy_tx st2.

(** The invariant of [year_summary]: every bucket nets its four columns, and
    every column of the ['totals'] bucket is the sum of that column over the
    buckets of the years. *)

Definition balanced (b : Bucket) : Prop :=
  Net_CG b = (STCG b + STCL b + LTCG b + LTCL b)%Qc.

(** The buckets of the years. *)
Definition years (ys : gmap string Bucket) : gmap string Bucket :=
  delete "totals" ys.

(** The sum of a column over a dictionary of buckets. *)
Definition total_of (f : Bucket -> Qc) (m : gmap string Bucket) : Qc :=
  map_fold (fun _ b acc => (f b + acc)%Qc) 0%Qc m.

Definition consistent (ys : gmap string Bucket) : Prop :=
  (forall k b, ys !! k = Some b -> balanced b) /\
  exists t,
    ys !! "totals" = Some t /\
    forall f, In f [STCG; STCL; LTCG; LTCL; Net_CG] ->
              f t = total_of f (years ys).

(** [bucket[col]] *)
Definition get_column (col : column) (b : Bucket) : Qc :=
  match col with
  | cSTCG => STCG b
  | cSTCL => STCL b
  | cLTCG => LTCG b
  | cLTCL => LTCL b
  end.

(** Lines 217-232 on one bucket. *)
Definition add_to_bucket (col : column) (g : Qc) (b : Bucket) : Bucket :=
  add_net g (add_column col g b).

(** Conservation of units. *)

(** The margin test of lines 134-135 as a boolean. *)
Definition uncoveredb (st : State) (sell_tx : Tx) : bool :=
  match Deque.peek (buy_deque st) with
  | None => true
  | Some b => too_late b sell_tx
  end.

(** Every lot the matching loop builds from [st] on, in order, each with the
    answer of the margin test, whether or not line 206 lets it into the data
    frame. *)
Fixpoint fifo_matches (fuel : nat) (st : State) : list (bool * Lot) :=
  match fuel with
  | O => []
  | S fuel' =>
      match Deque.pop (sell_deque st) with
      | None => []
      | Some (s, sells) =>
          let st0 := set_queues (buy_deque st) sells st in
          (uncoveredb st0 s, (match_sale s st0).1) ::
          match loop_body s st0 with
          | Done st' => fifo_matches fuel' st'
          | _ => []
          end
      end
  end.

Definition sum_units (d : list Tx) : Qc :=
  foldr (fun t acc => (Units t + acc)%Qc) 0%Qc d.



(** A sale, as validation leaves it. *)
Definition nonpos_units (t : Tx) : Prop := (Units t <= 0)%Qc.

(** Every queued sale of every asset has units of the sign validation
    requires. *)
Definition sales_nonpos (am : asset_map) : Prop :=
  Forall (fun aq : string * (Deque.t Tx * Deque.t Tx) =>
            Forall nonpos_units aq.2.2) am.

(** * Vocabulary of the properties of the rest of the script *)

From stdpp Require sorting.

(** ** Queues and validation *)

(** A queue filled from the left, as lines 84 and 88 fill the queues of an
    asset, and the transactions repeated [pop]s take out of a queue, as the
    two loops take them. *)
Definition fill {A} (rows : list A) : Deque.t A :=
  foldl (fun d row => Deque.appendleft row d) [] rows.

Fixpoint drain {A} (fuel : nat) (d : Deque.t A) : list A :=
  match fuel with
  | O => []
  | S fuel' =>
      match Deque.pop d with
      | None => []
      | Some (x, d') => x :: drain fuel' d'
      end
  end.

(** A row no check of lines 66-90 objects to. *)
Definition accepted (now : Z) (row : Tx) : Prop :=
  (0 < Total_Amount row)%Qc /\
  (Timestamp row <= now)%Z /\
  ((Type_ row = "Buy" /\ (0 <= Units row)%Qc) \/
   (Type_ row = "Sell" /\ (Units row <= 0)%Qc)).

(** [asset_map.get(a)] *)
Fixpoint am_lookup (a : string) (am : asset_map)
  : option (Deque.t Tx * Deque.t Tx) :=
  match am with
  | [] => None
  | (a', qs) :: am' => if decide (a' = a) then Some qs else am_lookup a am'
  end.

(** The purchases and the sales of an asset in a log, in the order of the
    log. *)
Definition purchases_of (a : string) (rows : list Tx) : list Tx :=
  filter (fun row => Asset row = a /\ Type_ row = "Buy") rows.
Definition sales_of (a : string) (rows : list Tx) : list Tx :=
  filter (fun row => Asset row = a /\ Type_ row = "Sell") rows.

(** The assets of a log, each once, in the order they first appear. *)
Definition first_seen (rows : list Tx) : list string :=
  foldl (fun seen row =>
           if decide (Asset row ∈ seen) then seen else seen ++ [Asset row])
    [] rows.

(** What the queues built from a prefix of the log hold. *)
Definition holds (rows : list Tx) (am : asset_map) : Prop :=
  am.*1 = first_seen rows /\
  forall a,
    am_lookup a am =
    if decide (a ∈ first_seen rows)
    then Some (fill (purchases_of a rows), fill (sales_of a rows))
    else None.

(** ** Money *)

Definition sum_amount (d : list Tx) : Qc :=
  foldr (fun t acc => (Total_Amount t + acc)%Qc) 0%Qc d.

(** The row lines 245-254 write for a purchase that is carried over. *)
Definition carryover_row (a : string) (b : Tx) : Carryover :=
  mkCarryover a (Timestamp b) (Units b) (Total_Amount b) (IRS_ID b).

(** ** Raising *)

(** The matching loop is entered with [buy_tx] unbound and an uncovered sale
    at the head of the sale queue. *)
Definition first_sale_raises (st : State) : Prop :=
  buy_tx st = None /\
  exists s sells,
    Deque.pop (sell_deque st) = Some (s, sells) /\ uncovered st s.

(** ** Margin rows *)

(** What lines 139-146 write into a margin row. *)
Definition margin_row (m : Lot) : Prop :=
  IRS_ID_Buy m = "MARGIN" /\ Basis m = 0%Qc /\ Gain_Loss m = Sale_Price m /\
  Date_Purchased m = Date_Sold m.

(** The number of sales queued in an [asset_map]. *)
Definition queued_sales (am : asset_map) : nat :=
  sum_list ((fun aq : string * (Deque.t Tx * Deque.t Tx) => length aq.2.2) <$> am).

(** ** The summary sheet *)

(** Lines 269-270: the rows of [year_summary] sorted by their ['Year']
    column, a column of strings, which are compared character by character.
    What is proved of [summary] uses of the sort only that its result is
    sorted and has the rows it was given. *)
Definition year_le (b1 b2 : Bucket) : Prop :=
  String.leb (Year b1) (Year b2) = true.

#[global] Instance year_le_dec : RelDecision year_le.
Proof. intros b1 b2. unfold year_le. apply _. Defined.

Definition summary (ys : gmap string Bucket) : list Bucket :=
  sorting.merge_sort year_le ((map_to_list ys).*2).

(** Every row of [year_summary] is labelled after its key. *)
Definition labelled (ys : gmap string Bucket) : Prop :=
  forall k b,
    ys !! k = Some b ->
    if decide (k = "totals") then Year b = "Totals"
    else exists ts, Year b = year_label ts.

(** The labels of the years in which the sales of a queue are dated, and
    those of all the queues of an [asset_map]. *)
Definition sale_years (d : list Tx) : gset string :=
  list_to_set ((fun t => year_label (Timestamp t)) <$> d).

Definition all_sale_years (am : asset_map) : gset string :=
  foldr (fun (aq : string * (Deque.t Tx * Deque.t Tx)) acc =>
           sale_years aq.2.2 ∪ acc) ∅ am.

(** ** The order of the log *)

(** Line 42: the rows sorted by ['Timestamp'] and then by ['IRS ID'].  What
    is proved of [sort_values] uses of the sort only that its result is
    sorted and has the rows it was given. *)
Definition row_leb (r1 r2 : Tx) : bool :=
  (Timestamp r1 <? Timestamp r2)%Z ||
  ((Timestamp r1 =? Timestamp r2)%Z && String.leb (IRS_ID r1) (IRS_ID r2)).

Definition row_le (r1 r2 : Tx) : Prop := row_leb r1 r2 = true.

#[global] Instance row_le_dec : RelDecision row_le.
Proof. intros r1 r2. unfold row_le. apply _. Defined.

Definition sort_values (rows : list Tx) : list Tx :=
  sorting.merge_sort row_le rows.

(** [r1] is dated no later than [r2]. *)
Definition not_later (r1 r2 : Tx) : Prop := (Timestamp r1 <= Timestamp r2)%Z.

(** ** The purchase [buy_tx] names *)

(** The latest purchase of the asset in hand is dated [ts]: it is the
    purchase at the left end of the queue, the last one to be popped, or,
    once the queue is empty, the purchase [buy_tx] names. *)
Definition latest_at (ts : Z) (st : State) : Prop :=
  match buy_deque st with
  | [] => exists b', buy_tx st = Some b' /\ Timestamp b' = ts
  | b :: _ => Timestamp b = ts
  end.

(** ** Signs *)

(** A purchase, as validation leaves it, and an [asset_map] whose purchases
    and sales have the signs validation requires. *)
Definition nonneg_units (t : Tx) : Prop := (0 <= Units t)%Qc.


(** The divisor of line 167 or of line 183 is zero, which makes Python's
    division raise, when the iteration on [s] gets there from [st]. *)
Definition divides_by_zero (s : Tx) (st : State) : Prop :=
  exists b buys,
    Deque.pop (buy_deque st) = Some (b, buys) /\ too_late b s = false /\
    ((Units b < Qcabs (Units s) /\ Qcabs (Units s) = 0) \/
     (~ Units b < Qcabs (Units s) /\ Qcabs (Units s) < Units b /\
      Units b = 0))%Qc.

(** * Sample transactions *)

Module Sample.
(** 2021-01-01 00:00:00 *)
Definition T0 : Z := 1609459200 * ns_per_second.
Definition day (n : Z) : Z := T0 + Timedelta_days n.
Definition now : Z := day 1000.

Definition frac (n : Z) (d : positive) : Qc := Q2Qc (n # d).
Definition int (n : Z) : Qc := frac n 1.

Definition buy (a : string) (ts : Z) (u amt : Qc) (id : string) : Tx :=
  mkTx ts a "Buy" u amt id.
Definition sell (a : string) (ts : Z) (u amt : Qc) (id : string) : Tx :=
  mkTx ts a "Sell" u amt id.

(** A state at the start of a run, with the given queues. *)
Definition start (a : string) (buys sells : Deque.t Tx) : State :=
  enter_asset a (buys, sells) initial_globals.

(** A state in which [buy_tx] is bound to [b]. *)
Definition after (b : Tx) (a : string) (buys sells : Deque.t Tx) : State :=
  mkState a buys sells [] (mkVolume 0 0 0 0 0) []
    {[ "totals" := totals_bucket ]} (Some b).

(** What a completed piece of the script leaves behind. *)
Definition done {A} (d : A) (o : outcome A) : A :=
  match o with Done a => a | _ => d end.

(** A purchase of one unit and sales of it. *)
Definition b1 : Tx := buy "BTC" T0 (int 1) (int 100) "b1".
Definition s1 : Tx := sell "BTC" (day 1) (int (-1)) (int 150) "s1".

(** Sales that find the purchase queue empty: half a unit, one unit more
    than a year after [b1], and 2^-30 of a unit. *)
Definition s_half : Tx := sell "BTC" (day 2) (frac (-1) 2) (int 100) "s2".
Definition s_late : Tx := sell "BTC" (day 400) (int (-1)) (int 200) "s2".
Definition s_dust : Tx :=
  sell "BTC" (day 2) (frac (-1) 1073741824) (int 1) "s2".
Definition s_eth : Tx := sell "ETH" (day 400) (int (-1)) (int 200) "e1".

(** Scenario C of the specification: a sale with no purchase at all. *)
Definition s_alone : Tx := sell "BTC" T0 (frac (-1) 2) (int 5000) "s1".

(** A purchase of 1 - 2^-30 units. *)
Definition b_under : Tx :=
  buy "BTC" T0 (frac 1073741823 1073741824) (int 100) "b1".

(** Scenario B of the specification: two units bought, one sold. *)
Definition b_two : Tx := buy "BTC" T0 (int 2) (int 20000) "b1".
Definition s_one : Tx := sell "BTC" (day 10) (int (-1)) (int 11000) "s1".


(** A sale entered with positive units, which validation rejects. *)
Definition s_wrong : Tx := sell "BTC" (day 1) (int 1) (int 150) "s1".

(** A purchase of no units. *)
Definition b_zero : Tx := buy "BTC" T0 0 (int 100) "b0".

(** The globals at the start of a run but for [buy_tx], bound to [b]. *)
Definition globals_after (b : Tx) : Globals :=
  mkGlobals ∅ [] {[ "totals" := totals_bucket ]} (Some b).

(** The outcome of a run on a log validation accepts. *)
Definition ran (r : string + outcome Globals) : outcome Globals :=
  match r with inr o => o | inl _ => Timeout end.

(** A purchase dated a day after [s_alone]. *)
Definition b_next : Tx := buy "BTC" (day 1) (int 1) (int 100) "b2".
End Sample.

(** * The matching section of the script in binary floating point

    [Units] and [Total Amount] are cells of float columns, and every number
    the script computes from them is a Python [float]: an IEEE 754 binary64
    number, the result of every operation rounded to nearest.  [Float64] is
    section 3 of the script (lines 103-266) once more, on these numbers and
    with the [ZeroDivisionError] of Python's division.  The definitions
    follow those above line by line; the integer [0] the script starts its
    sums with is the float [0], which adds and subtracts to the same
    floats.  What is stated of the sums, differences and quotients of the
    script is stated on [Float64]. *)

Module Float64.
Import PrimFloat.

(** [.00000001]: the float nearest to 10^-8. *)
Definition dust : float := 0x1.5798ee2308c3ap-27%float.

(** [abs(u) > .00000001] *)
Definition not_dust (u : float) : bool := (dust <? PrimFloat.abs u)%float.

(** ** Records *)

Record Tx := mkTx {
  Timestamp : Z;
  Asset : string;
  Type_ : string;
  Units : float;
  Total_Amount : float;
  IRS_ID : string
}.

Record Lot := mkLot {
  lot_Asset : string;
  Date_Purchased : Z;
  Date_Sold : Z;
  lot_Units : float;
  Sale_Price : float;
  Basis : float;
  Gain_Loss : float;
  IRS_ID_Buy : string;
  IRS_ID_Sell : string
}.

Record Carryover := mkCarryover {
  co_Asset : string;
  co_Date_Purchased : Z;
  co_Remainder_Units : float;
  co_Remainder_Basis : float;
  co_IRS_ID_Buy : string
}.

Record Volume := mkVolume {
  v_Gain_Loss : float;
  v_Sale_Price : float;
  v_Basis : float;
  v_Remainder_Units : float;
  v_Remainder_Basis : float
}.

Inductive fifo_row :=
| LotRow (m : Lot)
| CarryoverRow (c : Carryover)
| VolumeRow (v : Volume).

Record Bucket := mkBucket {
  Year : string;
  STCG : float;
  STCL : float;
  LTCG : float;
  LTCL : float;
  Net_CG : float
}.

Definition new_bucket (label : string) : Bucket :=
  mkBucket label 0 0 0 0 0.

(** [bucket[col] += g] *)
Definition add_column (col : column) (g : float) (b : Bucket) : Bucket :=
  match col with
  | cSTCG =>
      mkBucket (Year b) (STCG b + g) (STCL b) (LTCG b) (LTCL b) (Net_CG b)
  | cSTCL =>
      mkBucket (Year b) (STCG b) (STCL b + g) (LTCG b) (LTCL b) (Net_CG b)
  | cLTCG =>
      mkBucket (Year b) (STCG b) (STCL b) (LTCG b + g) (LTCL b) (Net_CG b)
  | cLTCL =>
      mkBucket (Year b) (STCG b) (STCL b) (LTCG b) (LTCL b + g) (Net_CG b)
  end.

(** [bucket['Net CG'] += g] *)
Definition add_net (g : float) (b : Bucket) : Bucket :=
  mkBucket (Year b) (STCG b) (STCL b) (LTCG b) (LTCL b) (Net_CG b + g).

(** ** Program state *)

Record State := mkState {
  asset : string;
  buy_deque : Deque.t Tx;
  sell_deque : Deque.t Tx;
  fifo_asset : list fifo_row;
  volume_summary : Volume;
  margin : list Lot;
  year_summary : gmap string Bucket;
  buy_tx : option Tx
}.

Inductive error :=
| NameError (name : string)
| KeyError (key : string)
| ZeroDivisionError.

Inductive outcome (A : Type) :=
| Done (a : A)
| Raised (e : error) (a : A)
| Timeout.
Arguments Done {A} a.
Arguments Raised {A} e a.
Arguments Timeout {A}.

Definition bind {A B} (o : outcome A) (abort : A -> B) (k : A -> outcome B)
  : outcome B :=
  match o with
  | Done a => k a
  | Raised e a => Raised e (abort a)
  | Timeout => Timeout
  end.

Definition final {A} (o : outcome A) : option A :=
  match o with
  | Done a | Raised _ a => Some a
  | Timeout => None
  end.

(** ** One iteration of the matching loop *)

Definition set_queues (buys sells : Deque.t Tx) (st : State) : State :=
  mkState (asset st) buys sells (fifo_asset st) (volume_summary st)
    (margin st) (year_summary st) (buy_tx st).

(** Lines 139-146. *)
Definition margin_lot (a : string) (sell_tx : Tx) : Lot :=
  mkLot a (Timestamp sell_tx) (Timestamp sell_tx)
    (PrimFloat.abs (Units sell_tx)) (Total_Amount sell_tx) 0
    (Total_Amount sell_tx) "MARGIN" (IRS_ID sell_tx).

(** Line 203. *)
Definition set_gain (m : Lot) : Lot :=
  mkLot (lot_Asset m) (Date_Purchased m) (Date_Sold m) (lot_Units m)
    (Sale_Price m) (Basis m) (Sale_Price m - Basis m)
    (IRS_ID_Buy m) (IRS_ID_Sell m).

Definition matched_lot (a : string) (b s : Tx) (units price basis : float)
  : Lot :=
  set_gain (mkLot a (Timestamp b) (Timestamp s) units price basis 0
              (IRS_ID b) (IRS_ID s)).

Definition set_units_amount (u amt : float) (t : Tx) : Tx :=
  mkTx (Timestamp t) (Asset t) (Type_ t) u amt (IRS_ID t).

(** Lines 134-135, on the purchase at the right end of the queue. *)
Definition too_late (b sell_tx : Tx) : bool :=
  (Timestamp sell_tx + Timedelta_seconds 15 <? Timestamp b)%Z.

(** Lines 134-203.  [sell_tx] has been popped; [st] holds the queues after
    that pop.  The result is the [match] dictionary after line 203 and the
    state after the queue and [margin] updates; there is no dictionary when
    the division of line 167 or of line 183 raises, which it does when its
    divisor compares equal to zero, and the state is then the one line 155
    has left. *)
Definition match_sale (sell_tx : Tx) (st : State) : option Lot * State :=
  let margin_branch :=
    let m := margin_lot (asset st) sell_tx in
    (Some (set_gain m),
     mkState (asset st) (buy_deque st) (sell_deque st) (fifo_asset st)
       (volume_summary st) (margin st ++ [m]) (year_summary st) (buy_tx st)) in
  match Deque.pop (buy_deque st) with
  | None => margin_branch
  | Some (b, buys) =>
      if too_late b sell_tx then margin_branch
      else
        let popped :=
          mkState (asset st) buys (sell_deque st) (fifo_asset st)
            (volume_summary st) (margin st) (year_summary st) (Some b) in
        let su := PrimFloat.abs (Units sell_tx) in
        if (Units b <? su)%float then
          (* line 164: the sale is larger, the purchase is used up *)
          if (su =? 0)%float then (None, popped)
          else
            let pro_rata_sale_price :=
              (Units b / su * Total_Amount sell_tx)%float in
            let sell_tx' :=
              set_units_amount (Units sell_tx + Units b)
                (Total_Amount sell_tx - pro_rata_sale_price) sell_tx in
            (Some (matched_lot (asset st) b sell_tx (Units b)
                     pro_rata_sale_price (Total_Amount b)),
             mkState (asset st) buys (Deque.append sell_tx' (sell_deque st))
               (fifo_asset st) (volume_summary st) (margin st)
               (year_summary st) (Some b))
        else if (su <? Units b)%float then
          (* line 180: the purchase is larger, the sale is used up *)
          if (Units b =? 0)%float then (None, popped)
          else
            let pro_rata_basis := (su / Units b * Total_Amount b)%float in
            let buy_tx' :=
              set_units_amount (Units b + Units sell_tx)
                (Total_Amount b - pro_rata_basis) b in
            (Some (matched_lot (asset st) b sell_tx su (Total_Amount sell_tx)
                     pro_rata_basis),
             mkState (asset st) (Deque.append buy_tx' buys) (sell_deque st)
               (fifo_asset st) (volume_summary st) (margin st)
               (year_summary st) (Some buy_tx'))
        else
          (* line 196: neither is larger *)
          (Some (matched_lot (asset st) b sell_tx (Units b)
                   (Total_Amount sell_tx) (Total_Amount b)),
           mkState (asset st) buys (sell_deque st)
             (fifo_asset st) (volume_summary st) (margin st)
             (year_summary st) (Some b))
  end.

(** Lines 205-208. *)
Definition emit (m : Lot) (st : State) : State :=
  if not_dust (lot_Units m) then
    mkState (asset st) (buy_deque st) (sell_deque st)
      (fifo_asset st ++ [LotRow m]) (volume_summary st) (margin st)
      (year_summary st) (buy_tx st)
  else st.

Definition stmt := gmap string Bucket -> option error * gmap string Bucket.

Definition item_update (k : string) (f : Bucket -> Bucket) : stmt :=
  fun ys =>
    match ys !! k with
    | Some b => (None, <[k := f b]> ys)
    | None => (Some (KeyError k), ys)
    end.

Definition seq (s1 s2 : stmt) : stmt :=
  fun ys =>
    match s1 ys with
    | (None, ys') => s2 ys'
    | r => r
    end.

(** Lines 213-214. *)
Definition add_year (label : string) (ys : gmap string Bucket)
  : gmap string Bucket :=
  match ys !! label with
  | Some _ => ys
  | None => <[label := new_bucket label]> ys
  end.

(** The tests of lines 216, 217 and 224. *)
Definition classify (sell_ts buy_ts : Z) (g : float) : column :=
  if long_term sell_ts buy_ts
  then (if (0 <? g)%float then cLTCG else cLTCL)
  else (if (0 <? g)%float then cSTCG else cSTCL).

(** Lines 217-232. *)
Definition add_gain (label : string) (col : column) (g : float) : stmt :=
  seq (seq (seq (item_update label (add_column col g))
                (item_update "totals" (add_column col g)))
           (item_update label (add_net g)))
      (item_update "totals" (add_net g)).

Definition set_year_summary (ys : gmap string Bucket) (st : State) : State :=
  mkState (asset st) (buy_deque st) (sell_deque st) (fifo_asset st)
    (volume_summary st) (margin st) ys (buy_tx st).

(** Lines 210-232. *)
Definition update_year_summary (sell_tx : Tx) (m : Lot) (st : State)
  : outcome State :=
  let label := year_label (Timestamp sell_tx) in
  let ys := add_year label (year_summary st) in
  match buy_tx st with
  | None => Raised (NameError "buy_tx") (set_year_summary ys st)
  | Some b =>
      let col := classify (Timestamp sell_tx) (Timestamp b) (Gain_Loss m) in
      match add_gain label col (Gain_Loss m) ys with
      | (None, ys') => Done (set_year_summary ys' st)
      | (Some e, ys') => Raised e (set_year_summary ys' st)
      end
  end.

(** Lines 234-237. *)
Definition update_volume (m : Lot) (st : State) : State :=
  let v := volume_summary st in
  mkState (asset st) (buy_deque st) (sell_deque st) (fifo_asset st)
    (mkVolume (v_Gain_Loss v + Gain_Loss m) (v_Sale_Price v + Sale_Price m)
       (v_Basis v + Basis m) (v_Remainder_Units v) (v_Remainder_Basis v))
    (margin st) (year_summary st) (buy_tx st).

(** Lines 133-237: the body of the matching loop after the pop of line 131. *)
Definition loop_body (sell_tx : Tx) (st : State) : outcome State :=
  match match_sale sell_tx st with
  | (None, st1) => Raised ZeroDivisionError st1
  | (Some m, st1) =>
      bind (update_year_summary sell_tx m (emit m st1)) id
        (fun st' => Done (update_volume m st'))
  end.

(** Lines 128-237. *)
Fixpoint fifo_loop (fuel : nat) (st : State) : outcome State :=
  match fuel with
  | O => Timeout
  | S fuel' =>
      match Deque.pop (sell_deque st) with
      | None => Done st
      | Some (sell_tx, sells) =>
          bind (loop_body sell_tx (set_queues (buy_deque st) sells st)) id
            (fifo_loop fuel')
      end
  end.

(** Lines 242-262: the body of the carryover loop. *)
Definition carryover_body (b : Tx) (st : State) : State :=
  let v := volume_summary st in
  let row :=
    mkCarryover (asset st) (Timestamp b) (Units b) (Total_Amount b) (IRS_ID b) in
  mkState (asset st) (buy_deque st) (sell_deque st)
    (if (dust <? Units b)%float then fifo_asset st ++ [CarryoverRow row]
     else fifo_asset st)
    (mkVolume (v_Gain_Loss v) (v_Sale_Price v) (v_Basis v)
       (v_Remainder_Units v + Units b) (v_Remainder_Basis v + Total_Amount b))
    (margin st) (year_summary st) (Some b).

(** Lines 241-262. *)
Fixpoint carryover_loop (fuel : nat) (st : State) : outcome State :=
  match fuel with
  | O => Timeout
  | S fuel' =>
      match Deque.pop (buy_deque st) with
      | None => Done st
      | Some (b, buys) =>
          carryover_loop fuel'
            (carryover_body b (set_queues buys (sell_deque st) st))
      end
  end.

(** Lines 264-266. *)
Definition append_volume_row (st : State) : State :=
  mkState (asset st) (buy_deque st) (sell_deque st)
    (fifo_asset st ++ [VolumeRow (volume_summary st)]) (volume_summary st)
    (margin st) (year_summary st) (buy_tx st).

(** ** One asset *)

Record Globals := mkGlobals {
  fifo : gmap string (list fifo_row);
  g_margin : list Lot;
  g_year_summary : gmap string Bucket;
  g_buy_tx : option Tx
}.

(** Lines 103-110. *)
Definition totals_bucket : Bucket := mkBucket "Totals" 0 0 0 0 0.

Definition initial_globals : Globals :=
  mkGlobals ∅ [] {[ "totals" := totals_bucket ]} None.

(** Lines 116-125. *)
Definition enter_asset (a : string) (qs : Deque.t Tx * Deque.t Tx) (g : Globals)
  : State :=
  mkState a (fst qs) (snd qs) [] (mkVolume 0 0 0 0 0)
    (g_margin g) (g_year_summary g) (g_buy_tx g).

Definition leave_asset (g : Globals) (st : State) : Globals :=
  mkGlobals (<[asset st := fifo_asset st]> (fifo g))
    (margin st) (year_summary st) (buy_tx st).

Definition queued (st : State) : nat :=
  length (buy_deque st) + length (sell_deque st).

(** Lines 113-266 for one asset. *)
Definition run_asset (a : string) (qs : Deque.t Tx * Deque.t Tx) (g : Globals)
  : outcome Globals :=
  let st0 := enter_asset a qs g in
  bind (fifo_loop (S (queued st0)) st0) (leave_asset g) (fun st1 =>
  bind (carryover_loop (S (queued st1)) st1) (leave_asset g) (fun st2 =>
  Done (leave_asset g (append_volume_row st2)))).

(** ** Vocabulary *)

(** The number a float stands for, when it is finite. *)
Definition value (x : float) : Qc :=
  match FloatOps.Prim2SF x with
  | SpecFloat.S754_finite s m e =>
      Q2Qc ((if s then -1 else 1) * inject_Z (Z.pos m) * Qpower 2 e)
  | _ => 0%Qc
  end.

(** Lines 217-232 on one bucket. *)
Definition add_to_bucket (col : column) (g : float) (b : Bucket) : Bucket :=
  add_net g (add_column col g b).

(** The sum of the four classified columns, added as they are listed. *)
Definition columns_sum (b : Bucket) : float :=
  (STCG b + STCL b + LTCG b + LTCL b)%float.

(** The test of lines 134-135 on the state an iteration starts in, and the
    same as a boolean. *)
Definition uncovered (st : State) (sell_tx : Tx) : Prop :=
  buy_deque st = [] \/
  exists b, Deque.peek (buy_deque st) = Some b /\
            (Timestamp sell_tx + Timedelta_seconds 15 < Timestamp b)%Z.

Definition uncoveredb (st : State) (sell_tx : Tx) : bool :=
  match Deque.peek (buy_deque st) with
  | None => true
  | Some b => (Timestamp sell_tx + Timedelta_seconds 15 <? Timestamp b)%Z
  end.

(** [t'] is the row [t] but for its units and its amount. *)
Definition reduced (t' t : Tx) : Prop :=
  Timestamp t' = Timestamp t /\ Asset t' = Asset t /\ Type_ t' = Type_ t /\
  IRS_ID t' = IRS_ID t.

(** [m] is a lot of the sale [s] matched with the purchase [b] in the state
    [st], and [st'] has it where lines 203-208 put it. *)
Definition covered_lot (m : Lot) (b s : Tx) (st st' : State) : Prop :=
  lot_Asset m = asset st /\
  Date_Purchased m = Timestamp b /\ Date_Sold m = Timestamp s /\
  IRS_ID_Buy m = IRS_ID b /\ IRS_ID_Sell m = IRS_ID s /\
  Gain_Loss m = (Sale_Price m - Basis m)%float /\
  fifo_asset st' =
    (if not_dust (lot_Units m) then fifo_asset st ++ [LotRow m]
     else fifo_asset st) /\
  margin st' = margin st.

(** [b'] is the bucket [b] after [g] has been added to its column [col] and
    to its net column. *)
Definition gained (col : column) (g : float) (b b' : Bucket) : Prop :=
  Year b' = Year b /\
  STCG b' = match col with cSTCG => (STCG b + g)%float | _ => STCG b end /\
  STCL b' = match col with cSTCL => (STCL b + g)%float | _ => STCL b end /\
  LTCG b' = match col with cLTCG => (LTCG b + g)%float | _ => LTCG b end /\
  LTCL b' = match col with cLTCL => (LTCL b + g)%float | _ => LTCL b end /\
  Net_CG b' = (Net_CG b + g)%float.

(** ** Conservation of units *)

(** The iterations the matching loop runs from [st] on: the sale each has
    popped, and the state its body starts in. *)
Fixpoint fifo_iterations (fuel : nat) (st : State) : list (Tx * State) :=
  match fuel with
  | O => []
  | S fuel' =>
      match Deque.pop (sell_deque st) with
      | None => []
      | Some (s, sells) =>
          let st0 := set_queues (buy_deque st) sells st in
          (s, st0) ::
          match loop_body s st0 with
          | Done st' => fifo_iterations fuel' st'
          | _ => []
          end
      end
  end.

(** The lot an iteration builds, if its division does not raise, and
    whether its sale is covered. *)
Definition lot_of (it : Tx * State) : option Lot := (match_sale it.1 it.2).1.

Definition covered (it : Tx * State) : bool := negb (uncoveredb it.2 it.1).

Definition lots (its : list (Tx * State)) : list Lot := omap lot_of its.

(** What line 191 loses when the purchase [b] is reduced by the sale [s]:
    the lot takes [|s.units|] of [b.units], and the float [b.units + s.units]
    goes back to the queue. *)
Definition reduction_loss (b s : Tx) : Qc :=
  (value (Units b) - value (abs (Units s)) - value (Units b + Units s))%Qc.

(** The loss of an iteration: that of line 191 when the iteration gets
    there. *)
Definition loss_of (it : Tx * State) : Qc :=
  match Deque.peek (buy_deque it.2) with
  | None => 0%Qc
  | Some b =>
      if (Timestamp it.1 + Timedelta_seconds 15 <? Timestamp b)%Z then 0%Qc
      else if (Units b <? abs (Units it.1))%float then 0%Qc
      else if (abs (Units it.1) <? Units b)%float then reduction_loss b it.1
      else 0%Qc
  end.

(** The units of a queue, the units of the lots of the covered sales, and
    the losses, as the numbers the floats stand for. *)
Definition sum_values (d : list Tx) : Qc :=
  foldr (fun t acc => (value (Units t) + acc)%Qc) 0%Qc d.

Definition matched_units (its : list (Tx * State)) : Qc :=
  foldr (fun it acc =>
           match lot_of it with
           | Some m => if covered it then (value (lot_Units m) + acc)%Qc else acc
           | None => acc
           end) 0%Qc its.

Definition lost_units (its : list (Tx * State)) : Qc :=
  foldr (fun it acc => (loss_of it + acc)%Qc) 0%Qc its.

(** The row lines 245-254 write for a purchase that is carried over. *)
Definition carryover_row (a : string) (b : Tx) : Carryover :=
  mkCarryover a (Timestamp b) (Units b) (Total_Amount b) (IRS_ID b).

(** The units a data frame shows: those of its lots that are not margin
    lots, and the remainder units of its carryover rows. *)
Definition shown_units (rows : list fifo_row) : Qc :=
  foldr (fun r acc =>
           match r with
           | LotRow m =>
               if decide (IRS_ID_Buy m = "MARGIN") then acc
               else (value (lot_Units m) + acc)%Qc
           | CarryoverRow c => (value (co_Remainder_Units c) + acc)%Qc
           | VolumeRow _ => acc
           end) 0%Qc rows.

(** ** Sums in the order the script adds *)

(** [acc += x] for every [x] of a list, from left to right. *)
Definition added (acc : float) (xs : list float) : float :=
  foldl (fun a x => (a + x)%float) acc xs.
End Float64.

(** ** Sample transactions in floating point *)

Module Float64Sample.
Import PrimFloat Float64.

Definition buy (a : string) (ts : Z) (u amt : float) (id : string) : Tx :=
  mkTx ts a "Buy" u amt id.
Definition sell (a : string) (ts : Z) (u amt : float) (id : string) : Tx :=
  mkTx ts a "Sell" u amt id.

(** A state at the start of a run, with the given queues. *)
Definition start (a : string) (buys sells : Deque.t Tx) : State :=
  enter_asset a (buys, sells) initial_globals.

(** What a completed piece of the script leaves behind. *)
Definition done {A} (d : A) (o : outcome A) : A :=
  match o with Done a => a | _ => d end.

(** Scenario B of the specification: two units bought, one sold. *)
Definition b_two : Tx := buy "BTC" Sample.T0 2 20000 "b1".
Definition s_one : Tx := sell "BTC" (Sample.day 10) (-1) 11000 "s1".

(** Three purchases of one unit for 1 each, and three sales of one unit for
    0.1, 1.5 and 0.5, these being the floats nearest to them. *)
Definition b_x1 : Tx := buy "BTC" Sample.T0 1 1 "b1".
Definition b_x2 : Tx := buy "BTC" (Sample.day 1) 1 1 "b2".
Definition b_x3 : Tx := buy "BTC" (Sample.day 2) 1 1 "b3".
Definition s_x1 : Tx :=
  sell "BTC" (Sample.day 3) (-1) 0x1.999999999999ap-4 "s1".
Definition s_x2 : Tx := sell "BTC" (Sample.day 4) (-1) 0x1.8p+0 "s2".
Definition s_x3 : Tx := sell "BTC" (Sample.day 5) (-1) 0x1p-1 "s3".

(** Sales of those three purchases in two years: for 0.1 at the end of
    2021, and for 0.2 and 0.3 in 2022. *)
Definition s_y1 : Tx :=
  sell "BTC" (Sample.day 300) (-1) 0x1.999999999999ap-4 "s1".
Definition s_y2 : Tx :=
  sell "BTC" (Sample.day 400) (-1) 0x1.999999999999ap-3 "s2".
Definition s_y3 : Tx :=
  sell "BTC" (Sample.day 401) (-1) 0x1.3333333333333p-2 "s3".

(** A purchase of 1.5e9 units and a sale of 0.1 of a unit. *)
Definition b_large : Tx := buy "DOGE" Sample.T0 1500000000 1000 "b1".
Definition s_tenth : Tx :=
  sell "DOGE" (Sample.day 1) (-0x1.999999999999ap-4) 1 "s1".

(** The state in which the matching loop of that asset starts. *)
Definition doge : State :=
  enter_asset "DOGE" ([b_large], [s_tenth]) initial_globals.
End Float64Sample.

(** * Properties *)

(** ** Comparisons *)

Lemma Qcltb_true (x y : Qc) : Qcltb x y = true <-> (x < y)%Qc.
Proof.
  unfold Qcltb. rewrite Qclt_alt. destruct (x ?= y)%Qc; split; congruence.
Qed.

Lemma Qcltb_false (x y : Qc) : Qcltb x y = false <-> (y <= x)%Qc.
Proof.
  rewrite Qcle_ngt, <- Qcltb_true. destruct (Qcltb x y); intuition congruence.
Qed.

Lemma Qcltb_irrefl (x : Qc) : Qcltb x x = false.
Proof. apply Qcltb_false, Qcle_refl. Qed.

Lemma Qcltb_antisym (x y : Qc) :
  Qcltb x y = false -> Qcltb y x = false -> x = y.
Proof. rewrite !Qcltb_false. intros. now apply Qcle_antisym. Qed.

Lemma Qcminus_0_r (x : Qc) : (x - 0 = x)%Qc.
Proof. ring. Qed.

(** ** Queues *)

Module DequeFacts.
Import Deque.

Lemma pop_None {A} (d : t A) : pop d = None <-> d = [].
Proof.
  destruct d as [|x d]; simpl; [tauto|].
  destruct (pop d) as [[y r]|]; split; congruence.
Qed.

Lemma pop_Some {A} (d : t A) x r : pop d = Some (x, r) <-> d = r ++ [x].
Proof.
  revert x r. induction d as [|a d IH]; intros x r; simpl.
  - split; [discriminate|]. now destruct r.
  - destruct (pop d) as [[y r']|] eqn:E.
    + pose proof (proj1 (IH y r') eq_refl) as ->. split.
      * intros [= <- <-]. reflexivity.
      * destruct r as [|b r]; simpl.
        -- intros [= _ H]. now destruct r'.
        -- intros [= <- H]. apply app_inj_tail in H as [-> ->]. reflexivity.
    + apply pop_None in E as ->. split.
      * intros [= <- <-]. reflexivity.
      * destruct r as [|b r]; simpl.
        -- intros [= ->]. reflexivity.
        -- intros [= _ H]. now destruct r.
Qed.

(** What [append] puts back is what the next [pop] takes. *)
Lemma pop_append {A} (d : t A) x : pop (append x d) = Some (x, d).
Proof. now apply pop_Some. Qed.

Lemma pop_length {A} (d : t A) x r :
  pop d = Some (x, r) -> length d = S (length r).
Proof. intros ->%pop_Some. rewrite length_app. simpl. lia. Qed.

Lemma length_append {A} (d : t A) x : length (append x d) = S (length d).
Proof. unfold append. rewrite length_app. simpl. lia. Qed.

Lemma peek_None {A} (d : t A) : peek d = None <-> d = [].
Proof.
  unfold peek. rewrite <- pop_None. destruct (pop d); simpl; split; congruence.
Qed.
End DequeFacts.

(** ** The margin test *)


Lemma uncovered_empty st s : Deque.pop (buy_deque st) = None -> uncovered st s.
Proof. intros H. left. now apply DequeFacts.pop_None. Qed.

Lemma uncovered_pop st s b buys :
  Deque.pop (buy_deque st) = Some (b, buys) ->
  uncovered st s <-> too_late b s = true.
Proof.
  intros H. unfold uncovered, Deque.peek, too_late. rewrite H. simpl.
  rewrite Z.ltb_lt. split.
  - intros [E|(b' & [= <-] & Hlt)]; [|exact Hlt].
    rewrite E in H. discriminate.
  - intros Hlt. right. eauto.
Qed.



Lemma set_gain_margin_lot a s : set_gain (margin_lot a s) = margin_lot a s.
Proof. unfold set_gain, margin_lot. simpl. now rewrite Qcminus_0_r. Qed.

Lemma match_sale_uncovered st s :
  uncovered st s ->
  match_sale s st = (margin_lot (asset st) s, margin_state s st).
Proof.
  intros U. unfold match_sale. rewrite set_gain_margin_lot.
  destruct (Deque.pop (buy_deque st)) as [[b buys]|] eqn:E; [|reflexivity].
  apply (uncovered_pop _ _ _ _ E) in U. now rewrite U.
Qed.


Lemma compare_units_spec b s :
  match compare_units b s with
  | SaleLarger => (Units b < Qcabs (Units s))%Qc
  | PurchaseLarger => (Qcabs (Units s) < Units b)%Qc
  | SameUnits => Qcabs (Units s) = Units b
  end.
Proof.
  unfold compare_units.
  destruct (Qcltb (Units b) _) eqn:E1; [now apply Qcltb_true|].
  destruct (Qcltb (Qcabs _) _) eqn:E2; [now apply Qcltb_true|].
  symmetry. now apply Qcltb_antisym.
Qed.


(** ** What an iteration leaves alone *)


Lemma update_year_summary_cases s m st :
  exists ys,
    update_year_summary s m st = Done (set_year_summary ys st) \/
    exists e, update_year_summary s m st = Raised e (set_year_summary ys st).
Proof.
  unfold update_year_summary. destruct (buy_tx st); [|eauto].
  destruct (add_gain _ _ _ _) as [[e|] ys]; eauto.
Qed.

(** The phases after [match_sale] and [emit] touch the two summaries only,
    and an iteration always leaves a state behind. *)
Lemma loop_body_frame s st :
  exists st',
    final (loop_body s st) = Some st' /\
    same_tables (emit (match_sale s st).1 (match_sale s st).2) st'.
Proof.
  unfold loop_body. destruct (match_sale s st) as [m st1]. simpl.
  destruct (update_year_summary_cases s m (emit m st1)) as (ys & [-> | (e & ->)]);
    simpl; eexists; (split; [reflexivity|]); repeat split.
Qed.

Lemma emit_fifo m st :
  fifo_asset (emit m st) =
  if not_dust (lot_Units m) then fifo_asset st ++ [LotRow m] else fifo_asset st.
Proof. unfold emit. now destruct (not_dust _). Qed.

Lemma emit_same m st :
  asset (emit m st) = asset st /\ buy_deque (emit m st) = buy_deque st /\
  sell_deque (emit m st) = sell_deque st /\ margin (emit m st) = margin st /\
  buy_tx (emit m st) = buy_tx st /\ year_summary (emit m st) = year_summary st /\
  volume_summary (emit m st) = volume_summary st.
Proof. unfold emit. now destruct (not_dust _). Qed.

(** The lot and the state of a covered sale, by magnitudes. *)
Lemma match_sale_covered st s b buys :
  Deque.pop (buy_deque st) = Some (b, buys) ->
  too_late b s = false ->
  match_sale s st =
  let su := Qcabs (Units s) in
  match compare_units b s with
  | SaleLarger =>
      let price := (Units b / su * Total_Amount s)%Qc in
      (matched_lot (asset st) b s (Units b) price (Total_Amount b),
       mkState (asset st) buys
         (Deque.append
            (set_units_amount (Units s + Units b) (Total_Amount s - price) s)
            (sell_deque st))
         (fifo_asset st) (volume_summary st) (margin st) (year_summary st)
         (Some b))
  | PurchaseLarger =>
      let basis := (su / Units b * Total_Amount b)%Qc in
      let b' := set_units_amount (Units b + Units s) (Total_Amount b - basis) b in
      (matched_lot (asset st) b s su (Total_Amount s) basis,
       mkState (asset st) (Deque.append b' buys) (sell_deque st)
         (fifo_asset st) (volume_summary st) (margin st) (year_summary st)
         (Some b'))
  | SameUnits =>
      (matched_lot (asset st) b s (Units b) (Total_Amount s) (Total_Amount b),
       mkState (asset st) buys (sell_deque st)
         (fifo_asset st) (volume_summary st) (margin st) (year_summary st)
         (Some b))
  end.
Proof.
  intros E T. unfold match_sale, compare_units. rewrite E, T.
  destruct (Qcltb (Units b) _); [reflexivity|].
  destruct (Qcltb (Qcabs _) _); reflexivity.
Qed.

Lemma compare_units_larger_sale b s :
  (Units b < Qcabs (Units s))%Qc -> compare_units b s = SaleLarger.
Proof. intros H%Qcltb_true. unfold compare_units. now rewrite H. Qed.

Lemma compare_units_larger_purchase b s :
  (Qcabs (Units s) < Units b)%Qc -> compare_units b s = PurchaseLarger.
Proof.
  intros H. unfold compare_units.
  rewrite (proj2 (Qcltb_false _ _) (Qclt_le_weak _ _ H)).
  now rewrite (proj2 (Qcltb_true _ _) H).
Qed.

Lemma compare_units_same b s :
  Qcabs (Units s) = Units b -> compare_units b s = SameUnits.
Proof. intros H. unfold compare_units. now rewrite H, Qcltb_irrefl. Qed.

(** ** The margin branch *)

(** C9.  A sale takes the margin branch exactly when the purchase queue is
    empty or its earliest purchase is dated more than 15 seconds after the
    sale.  The branch appends one lot to [margin]: its units are the
    magnitude of the sale's units, its sale price the sale's amount, its
    basis zero, its gain the sale price, and both its dates the sale's
    timestamp.  A covered sale leaves [margin] as it is. *)
Theorem margin_iff_uncovered (s : Tx) (st : State) :
  exists st',
    final (loop_body s st) = Some st' /\
    ((uncovered st s /\
      exists m,
        margin st' = margin st ++ [m] /\
        lot_Units m = Qcabs (Units s) /\
        Sale_Price m = Total_Amount s /\
        Basis m = 0%Qc /\
        Gain_Loss m = Sale_Price m /\
        Date_Purchased m = Timestamp s /\
        Date_Sold m = Timestamp s) \/
     (~ uncovered st s /\ margin st' = margin st)).
Proof.
  destruct (loop_body_frame s st) as (st' & F & S).
  exists st'. split; [exact F|].
  destruct S as (_ & _ & _ & _ & <- & _).
  destruct (emit_same (match_sale s st).1 (match_sale s st).2)
    as (_ & _ & _ & -> & _).
  destruct (Deque.pop (buy_deque st)) as [[b buys]|] eqn:E.
  - destruct (too_late b s) eqn:T.
    + left. assert (U : uncovered st s) by now apply (uncovered_pop _ _ _ _ E).
      split; [exact U|]. rewrite (match_sale_uncovered _ _ U). simpl.
      eexists. split; [reflexivity|]. now simpl.
    + right. split.
      * rewrite (uncovered_pop _ _ _ _ E). congruence.
      * rewrite (match_sale_covered _ _ _ _ E T).
        now destruct (compare_units b s).
  - left. assert (U : uncovered st s) by now apply uncovered_empty.
    split; [exact U|]. rewrite (match_sale_uncovered _ _ U). simpl.
    eexists. split; [reflexivity|]. now simpl.
Qed.

(** C1, as the script has it.  An uncovered sale produces exactly one lot; it
    is appended to [margin], and the same lot is appended to the asset's own
    data frame as well unless its units are dust.  The sale is not put back
    and the purchase queue is left alone. *)
Theorem margin_lot_destinations (s : Tx) (st : State) :
  uncovered st s ->
  exists st',
    final (loop_body s st) = Some st' /\
    margin st' = margin st ++ [margin_lot (asset st) s] /\
    fifo_asset st' =
      (if not_dust (Qcabs (Units s))
       then fifo_asset st ++ [LotRow (margin_lot (asset st) s)]
       else fifo_asset st) /\
    sell_deque st' = sell_deque st /\
    buy_deque st' = buy_deque st.
Proof.
  intros U. destruct (loop_body_frame s st) as (st' & F & S).
  exists st'. split; [exact F|].
  rewrite (match_sale_uncovered _ _ U) in S. simpl in S.
  destruct S as (_ & <- & <- & <- & <- & _).
  rewrite emit_fifo.
  destruct (emit_same (margin_lot (asset st) s) (margin_state s st))
    as (_ & -> & -> & -> & _).
  now simpl.
Qed.

(** ** Termination of the matching loop *)

Lemma queued_match_sale s st : queued (match_sale s st).2 <= queued st.
Proof.
  destruct (Deque.pop (buy_deque st)) as [[b buys]|] eqn:E.
  - destruct (too_late b s) eqn:T.
    + assert (U : uncovered st s) by now apply (uncovered_pop _ _ _ _ E).
      now rewrite (match_sale_uncovered _ _ U).
    + rewrite (match_sale_covered _ _ _ _ E T).
      apply DequeFacts.pop_length in E. unfold queued. rewrite E.
      destruct (compare_units b s); simpl;
        rewrite ?DequeFacts.length_append; lia.
  - now rewrite (match_sale_uncovered _ _ (uncovered_empty _ s E)).
Qed.

Lemma queued_loop_body s st st' :
  final (loop_body s st) = Some st' -> queued st' <= queued st.
Proof.
  intros F. destruct (loop_body_frame s st) as (st'' & F' & S).
  rewrite F in F'. injection F' as <-.
  destruct S as (_ & B & L & _).
  destruct (emit_same (match_sale s st).1 (match_sale s st).2)
    as (_ & B' & L' & _).
  pose proof (queued_match_sale s st) as Q. unfold queued in *.
  rewrite <- B, <- L, B', L'. exact Q.
Qed.

(** An iteration, the [pop] of line 131 included, shortens the queues. *)
Lemma iteration_shortens_queues st s sells st' :
  Deque.pop (sell_deque st) = Some (s, sells) ->
  final (loop_body s (set_queues (buy_deque st) sells st)) = Some st' ->
  queued st' < queued st.
Proof.
  intros E F. apply queued_loop_body in F.
  apply DequeFacts.pop_length in E. unfold queued in *. simpl in F. lia.
Qed.

Lemma fifo_loop_terminates fuel st :
  queued st < fuel -> exists st', final (fifo_loop fuel st) = Some st'.
Proof.
  revert st. induction fuel as [|fuel IH]; intros st Q; [lia|]. simpl.
  destruct (Deque.pop (sell_deque st)) as [[s sells]|] eqn:E; [|simpl; eauto].
  destruct (loop_body_frame s (set_queues (buy_deque st) sells st))
    as (st1 & F & _).
  pose proof (iteration_shortens_queues _ _ _ _ E F) as Q1.
  destruct (loop_body _ _) as [a|e a|]; simpl in *; [|eauto|discriminate].
  injection F as ->. apply IH. lia.
Qed.

(** More fuel than needed changes nothing. *)
Lemma fifo_loop_fuel fuel1 fuel2 st :
  queued st < fuel1 -> queued st < fuel2 ->
  fifo_loop fuel1 st = fifo_loop fuel2 st.
Proof.
  revert fuel2 st. induction fuel1 as [|fuel1 IH]; intros fuel2 st Q1 Q2; [lia|].
  destruct fuel2 as [|fuel2]; [lia|]. simpl.
  destruct (Deque.pop (sell_deque st)) as [[s sells]|] eqn:E; [|reflexivity].
  destruct (loop_body s _) as [a|e a|] eqn:L; simpl; try reflexivity.
  assert (queued a < queued st).
  { eapply iteration_shortens_queues; [exact E|]. now rewrite L. }
  apply IH; lia.
Qed.

Lemma carryover_loop_terminates fuel st :
  length (buy_deque st) < fuel -> exists st', carryover_loop fuel st = Done st'.
Proof.
  revert st. induction fuel as [|fuel IH]; intros st Q; [lia|]. simpl.
  destruct (Deque.pop (buy_deque st)) as [[b buys]|] eqn:E; [|eauto].
  apply IH. simpl. apply DequeFacts.pop_length in E. lia.
Qed.

(** C2, as the script has it.  The matching loop terminates: an iteration
    takes its sale or its purchase out of the queues for good, so the number
    of queued transactions goes down every time, and the loop run with one
    unit of fuel per queued transaction (plus one) ends by itself.  A reduced
    transaction is put back whatever units it is left with; nothing compares
    them with the dust threshold. *)
Theorem fifo_loop_ends_by_shortening_queues (st : State) :
  (exists st', final (fifo_loop (S (queued st)) st) = Some st') /\
  (forall s sells st',
     Deque.pop (sell_deque st) = Some (s, sells) ->
     final (loop_body s (set_queues (buy_deque st) sells st)) = Some st' ->
     queued st' < queued st) /\
  (forall s b buys st',
     Deque.pop (buy_deque st) = Some (b, buys) ->
     ~ uncovered st s ->
     final (loop_body s st) = Some st' ->
     ((Units b < Qcabs (Units s))%Qc ->
        exists amount,
          sell_deque st' =
          Deque.append (set_units_amount (Units s + Units b) amount s)
            (sell_deque st)) /\
     ((Qcabs (Units s) < Units b)%Qc ->
        exists amount,
          buy_deque st' =
          Deque.append (set_units_amount (Units b + Units s) amount b) buys)).
Proof.
  split; [apply fifo_loop_terminates; lia|].
  split; [intros s sells st'; apply iteration_shortens_queues|].
  intros s b buys st' E NU F.
  assert (T : too_late b s = false).
  { destruct (too_late b s) eqn:T; [|reflexivity].
    destruct NU. now apply (uncovered_pop _ _ _ _ E). }
  destruct (loop_body_frame s st) as (st'' & F' & S).
  rewrite F in F'. injection F' as <-.
  destruct S as (_ & <- & <- & _).
  destruct (emit_same (match_sale s st).1 (match_sale s st).2)
    as (_ & -> & -> & _).
  rewrite (match_sale_covered _ _ _ _ E T). split; intros H.
  - rewrite (compare_units_larger_sale _ _ H). simpl. eauto.
  - rewrite (compare_units_larger_purchase _ _ H). simpl. eauto.
Qed.

(** ** The year summary *)

(** No year prints as ['totals']: the keys of the years never collide with
    the key of the running total. *)
Lemma pretty_N_go_ne_t x s s' :
  s ≠ String "t"%char s' -> pretty_N_go x s ≠ String "t"%char s'.
Proof.
  revert s. induction (N.lt_wf_0 x) as [x _ IH]; intros s Hs.
  destruct (decide (x = 0)%N) as [->|Hx].
  - now rewrite pretty_N_go_0.
  - rewrite pretty_N_go_step by lia. apply IH.
    + apply N.div_lt; lia.
    + unfold pretty_N_char. repeat case_match; congruence.
Qed.

Lemma year_label_not_totals ts : year_label ts ≠ "totals".
Proof.
  unfold year_label, pretty, pretty_Z.
  destruct (year ts) as [|p|p]; [discriminate| |discriminate].
  unfold pretty, pretty_positive, pretty, pretty_N.
  case_decide; [discriminate|]. now apply pretty_N_go_ne_t.
Qed.

Lemma add_gain_ok label col g ys yb t :
  label ≠ "totals" ->
  ys !! label = Some yb ->
  ys !! "totals" = Some t ->
  add_gain label col g ys =
  (None, <["totals" := add_to_bucket col g t]>
           (<[label := add_to_bucket col g yb]> ys)).
Proof.
  intros Hne Hy Ht. unfold add_gain, seq, item_update, add_to_bucket.
  rewrite Hy. cbn iota. rewrite lookup_insert_ne, Ht by done. cbn iota.
  rewrite lookup_insert_ne, lookup_insert_eq by done. cbn iota.
  rewrite lookup_insert_ne, lookup_insert_eq by done. f_equal.
  apply map_eq. intros k.
  destruct (decide (k = "totals")) as [->|Hk].
  - now rewrite !lookup_insert_eq.
  - rewrite !(lookup_insert_ne _ "totals") by done.
    destruct (decide (k = label)) as [->|Hk'].
    + now rewrite !lookup_insert_eq.
    + now rewrite !lookup_insert_ne by done.
Qed.

Lemma add_gain_raises label col g ys :
  ys !! "totals" = None -> (add_gain label col g ys).1 ≠ None.
Proof.
  intros Ht. unfold add_gain, seq, item_update.
  destruct (ys !! label) as [yb|] eqn:Hy; [|discriminate].
  destruct (decide (label = "totals")) as [->|Hne]; [congruence|].
  cbn iota. now rewrite lookup_insert_ne, Ht by done.
Qed.

Lemma add_year_lookup label ys :
  exists yb,
    add_year label ys !! label = Some yb /\
    yb = default (new_bucket label) (ys !! label) /\
    forall k, k ≠ label -> add_year label ys !! k = ys !! k.
Proof.
  unfold add_year. destruct (ys !! label) as [yb|] eqn:E; simpl.
  - exists yb. now rewrite E.
  - exists (new_bucket label). rewrite lookup_insert_eq.
    repeat split. intros k Hk. now rewrite lookup_insert_ne.
Qed.

(** Sums over a dictionary of buckets. *)
Lemma total_of_insert_new f (m : gmap string Bucket) k b :
  m !! k = None -> total_of f (<[k := b]> m) = (f b + total_of f m)%Qc.
Proof.
  intros H. unfold total_of.
  rewrite (map_fold_insert_L (fun _ b acc => (f b + acc)%Qc) 0%Qc k b m);
    [reflexivity| |exact H].
  intros. ring.
Qed.

Lemma total_of_insert_old f (m : gmap string Bucket) k b b' :
  m !! k = Some b ->
  total_of f (<[k := b']> m) = (total_of f m - f b + f b')%Qc.
Proof.
  intros H.
  rewrite <- (insert_delete_eq m k b') .
  rewrite <- (insert_id m k b H) at 2.
  rewrite <- (insert_delete_eq m k b).
  rewrite !total_of_insert_new by apply lookup_delete_eq. ring.
Qed.

Lemma balanced_new label : balanced (new_bucket label).
Proof. unfold balanced. simpl. ring. Qed.

Lemma balanced_add col g b : balanced b -> balanced (add_to_bucket col g b).
Proof. unfold balanced. intros H. destruct col; simpl; rewrite H; ring. Qed.

Lemma years_insert_totals ys t : years (<["totals" := t]> ys) = years ys.
Proof. unfold years. apply delete_insert_eq. Qed.

Lemma years_insert_year ys label b :
  label ≠ "totals" -> years (<[label := b]> ys) = <[label := b]> (years ys).
Proof. intros H. unfold years. now rewrite delete_insert_ne. Qed.

Lemma years_lookup ys label :
  label ≠ "totals" -> years ys !! label = ys !! label.
Proof. intros H. unfold years. now rewrite lookup_delete_ne. Qed.

Lemma consistent_add_year label ys :
  label ≠ "totals" -> consistent ys -> consistent (add_year label ys).
Proof.
  intros Hne [Hb (t & Ht & Hsum)]. unfold add_year.
  destruct (ys !! label) as [yb|] eqn:E; [now split; eauto|].
  split.
  - intros k b. destruct (decide (k = label)) as [->|Hk].
    + rewrite lookup_insert_eq. intros [= <-]. apply balanced_new.
    + rewrite lookup_insert_ne by done. apply Hb.
  - exists t. split; [now rewrite lookup_insert_ne|].
    intros f Hf. rewrite years_insert_year by done.
    rewrite total_of_insert_new by now rewrite years_lookup.
    rewrite (Hsum f Hf).
    simpl in Hf. destruct Hf as [<-|[<-|[<-|[<-|[<-|[]]]]]]; simpl; ring.
Qed.

Lemma consistent_add_to_buckets label col g ys yb t :
  label ≠ "totals" ->
  ys !! label = Some yb ->
  ys !! "totals" = Some t ->
  consistent ys ->
  consistent (<["totals" := add_to_bucket col g t]>
                (<[label := add_to_bucket col g yb]> ys)).
Proof.
  intros Hne Hy Ht [Hb (t' & Ht' & Hsum)].
  rewrite Ht in Ht'. injection Ht' as <-. split.
  - intros k b. destruct (decide (k = "totals")) as [->|Hk].
    + rewrite lookup_insert_eq. intros [= <-]. apply balanced_add; eauto.
    + rewrite lookup_insert_ne by done.
      destruct (decide (k = label)) as [->|Hk'].
      * rewrite lookup_insert_eq. intros [= <-]. apply balanced_add; eauto.
      * rewrite lookup_insert_ne by done. apply Hb.
  - eexists. split; [apply lookup_insert_eq|].
    intros f Hf. rewrite years_insert_totals, years_insert_year by done.
    rewrite (total_of_insert_old f _ label yb)
      by now rewrite years_lookup.
    rewrite <- (Hsum f Hf).
    simpl in Hf.
    destruct Hf as [<-|[<-|[<-|[<-|[<-|[]]]]]]; destruct col; simpl; ring.
Qed.

(** On a consistent dictionary lines 217-232 go through. *)
Lemma add_gain_consistent label col g ys :
  label ≠ "totals" ->
  consistent ys ->
  exists ys', add_gain label col g (add_year label ys) = (None, ys') /\
              consistent ys'.
Proof.
  intros Hne C. apply (consistent_add_year label) in C; [|exact Hne].
  destruct (add_year_lookup label ys) as (yb & Hy & _ & _).
  destruct C as [Hb (t & Ht & Hsum)].
  eexists. split; [apply (add_gain_ok _ _ _ _ yb t Hne Hy Ht)|].
  apply consistent_add_to_buckets; try done. split; eauto.
Qed.

Lemma match_sale_summaries s st :
  year_summary (match_sale s st).2 = year_summary st /\
  volume_summary (match_sale s st).2 = volume_summary st /\
  asset (match_sale s st).2 = asset st /\
  fifo_asset (match_sale s st).2 = fifo_asset st.
Proof.
  unfold match_sale.
  destruct (Deque.pop (buy_deque st)) as [[b buys]|]; [|done].
  destruct (too_late b s); [done|].
  destruct (Qcltb (Units b) _); [done|]. now destruct (Qcltb _ (Units b)).
Qed.

Lemma update_year_summary_consistent s m st st' :
  consistent (year_summary st) ->
  final (update_year_summary s m st) = Some st' ->
  consistent (year_summary st').
Proof.
  intros C. unfold update_year_summary.
  pose proof (year_label_not_totals (Timestamp s)) as Hne.
  destruct (buy_tx st) as [b|].
  - destruct (add_gain_consistent (year_label (Timestamp s))
                (classify (Timestamp s) (Timestamp b) (Gain_Loss m))
                (Gain_Loss m) _ Hne C) as (ys' & -> & C').
    simpl. now intros [= <-].
  - simpl. intros [= <-]. simpl. now apply consistent_add_year.
Qed.

Lemma loop_body_consistent s st st' :
  consistent (year_summary st) ->
  final (loop_body s st) = Some st' ->
  consistent (year_summary st').
Proof.
  intros C. unfold loop_body.
  destruct (match_sale_summaries s st) as (Y & _).
  destruct (match_sale s st) as [m st1]. simpl in Y.
  destruct (emit_same m st1) as (_ & _ & _ & _ & _ & Y' & _).
  assert (C1 : consistent (year_summary (emit m st1))) by now rewrite Y', Y.
  pose proof (update_year_summary_consistent s m (emit m st1)) as U.
  destruct (update_year_summary s m (emit m st1)) as [a|e a|]; simpl.
  - intros [= <-]. simpl. now apply (U a).
  - intros [= <-]. now apply (U a).
  - discriminate.
Qed.

Lemma fifo_loop_consistent fuel st st' :
  consistent (year_summary st) ->
  final (fifo_loop fuel st) = Some st' ->
  consistent (year_summary st').
Proof.
  revert st. induction fuel as [|fuel IH]; intros st C; [discriminate|]. simpl.
  destruct (Deque.pop (sell_deque st)) as [[s sells]|]; [|now intros [= <-]].
  pose proof (loop_body_consistent s (set_queues (buy_deque st) sells st)) as L.
  destruct (loop_body s _) as [a|e a|]; simpl.
  - apply IH. now apply L.
  - intros [= <-]. now apply L.
  - discriminate.
Qed.

Lemma carryover_loop_shared fuel st st' :
  carryover_loop fuel st = Done st' ->
  year_summary st' = year_summary st /\ margin st' = margin st /\
  asset st' = asset st.
Proof.
  revert st. induction fuel as [|fuel IH]; intros st; [discriminate|]. simpl.
  destruct (Deque.pop (buy_deque st)) as [[b buys]|]; [|now intros [= <-]].
  intros H. now apply IH in H.
Qed.

Lemma carryover_loop_never_raises fuel st :
  carryover_loop fuel st = Timeout \/ exists st', carryover_loop fuel st = Done st'.
Proof.
  revert st. induction fuel as [|fuel IH]; intros st; [now left|]. simpl.
  destruct (Deque.pop (buy_deque st)) as [[b buys]|]; [apply IH|eauto].
Qed.

Lemma initial_consistent : consistent (g_year_summary initial_globals).
Proof.
  split.
  - intros k b. simpl. destruct (decide (k = "totals")) as [->|Hk].
    + rewrite lookup_singleton_eq. intros [= <-]. unfold balanced. simpl. ring.
    + now rewrite lookup_singleton_ne.
  - exists totals_bucket. split; [apply lookup_singleton_eq|].
    intros f Hf. unfold years. simpl. rewrite delete_singleton_eq.
    unfold total_of. rewrite map_fold_empty.
    simpl in Hf. now destruct Hf as [<-|[<-|[<-|[<-|[<-|[]]]]]].
Qed.

Lemma run_asset_consistent a qs g g' :
  consistent (g_year_summary g) ->
  final (run_asset a qs g) = Some g' ->
  consistent (g_year_summary g').
Proof.
  intros C. unfold run_asset.
  pose proof (fifo_loop_consistent (S (queued (enter_asset a qs g)))
                (enter_asset a qs g)) as L.
  destruct (fifo_loop _ _) as [st1|e st1|]; cbn [bind].
  - specialize (L st1 C eq_refl).
    destruct (carryover_loop_never_raises (S (queued st1)) st1)
      as [->|(st2 & E)]; [discriminate|].
    rewrite E. cbn [bind final]. intros [= <-]. simpl.
    apply carryover_loop_shared in E as (-> & _). exact L.
  - simpl. intros [= <-]. simpl. now apply L.
  - discriminate.
Qed.

Lemma run_assets_consistent am g g' :
  consistent (g_year_summary g) ->
  final (run_assets am g) = Some g' ->
  consistent (g_year_summary g').
Proof.
  revert g. induction am as [|[a qs] am IH]; intros g C; simpl.
  - now intros [= <-].
  - pose proof (run_asset_consistent a qs g) as R.
    destruct (run_asset a qs g) as [g1|e g1|]; simpl.
    + apply IH. now apply R.
    + intros [= <-]. now apply R.
    + discriminate.
Qed.

Lemma add_gain_done label col g ys ys' :
  label ≠ "totals" ->
  add_gain label col g ys = (None, ys') ->
  exists yb t,
    ys !! label = Some yb /\ ys !! "totals" = Some t /\
    ys' = <["totals" := add_to_bucket col g t]>
            (<[label := add_to_bucket col g yb]> ys).
Proof.
  intros Hne H.
  destruct (ys !! "totals") as [t|] eqn:Ht.
  - destruct (ys !! label) as [yb|] eqn:Hy.
    + rewrite (add_gain_ok _ col g _ _ _ Hne Hy Ht) in H.
      injection H as <-. eauto.
    + unfold add_gain, seq, item_update in H. rewrite Hy in H. discriminate.
  - apply (add_gain_raises label col g) in Ht. now rewrite H in Ht.
Qed.

(** Lines 210-232 when [buy_tx] is bound and the running total exists. *)
Lemma update_year_summary_bound s m st b t :
  buy_tx st = Some b ->
  year_summary st !! "totals" = Some t ->
  let label := year_label (Timestamp s) in
  let col := classify (Timestamp s) (Timestamp b) (Gain_Loss m) in
  let yb := default (new_bucket label) (year_summary st !! label) in
  update_year_summary s m st =
  Done (set_year_summary
          (<["totals" := add_to_bucket col (Gain_Loss m) t]>
             (<[label := add_to_bucket col (Gain_Loss m) yb]>
                (add_year label (year_summary st)))) st).
Proof.
  intros Hb Ht label col yb. unfold update_year_summary. rewrite Hb.
  pose proof (year_label_not_totals (Timestamp s)) as Hne.
  destruct (add_year_lookup label (year_summary st)) as (yb' & Hy & -> & Hk).
  fold label. fold col.
  rewrite (add_gain_ok label col (Gain_Loss m) _ _ t Hne Hy); [reflexivity|].
  rewrite Hk by done. exact Ht.
Qed.

(** Lines 210-232 when they go through. *)
Lemma update_year_summary_done s m st st' :
  update_year_summary s m st = Done st' ->
  let label := year_label (Timestamp s) in
  let yb := default (new_bucket label) (year_summary st !! label) in
  exists b t,
    buy_tx st = Some b /\
    year_summary st !! "totals" = Some t /\
    let col := classify (Timestamp s) (Timestamp b) (Gain_Loss m) in
    st' = set_year_summary
            (<["totals" := add_to_bucket col (Gain_Loss m) t]>
               (<[label := add_to_bucket col (Gain_Loss m) yb]>
                  (add_year label (year_summary st)))) st.
Proof.
  intros H label yb.
  destruct (buy_tx st) as [b|] eqn:Hb;
    [|unfold update_year_summary in H; now rewrite Hb in H].
  destruct (year_summary st !! "totals") as [t|] eqn:Ht.
  - exists b, t. repeat split.
    rewrite (update_year_summary_bound s m st b t Hb Ht) in H.
    now injection H as <-.
  - unfold update_year_summary in H. rewrite Hb in H.
    pose proof (year_label_not_totals (Timestamp s)) as Hne.
    destruct (add_year_lookup (year_label (Timestamp s)) (year_summary st))
      as (_ & _ & _ & Hk).
    specialize (Hk "totals" (not_eq_sym Hne)). rewrite Ht in Hk.
    apply (add_gain_raises (year_label (Timestamp s))
             (classify (Timestamp s) (Timestamp b) (Gain_Loss m))
             (Gain_Loss m)) in Hk.
    destruct (add_gain _ _ _ _) as [[e|] ys']; [discriminate|]. now destruct Hk.
Qed.

Lemma add_to_bucket_net col g b :
  Net_CG (add_to_bucket col g b) = (Net_CG b + g)%Qc.
Proof. now destruct col. Qed.

Lemma add_to_bucket_column col g b :
  get_column col (add_to_bucket col g b) = (get_column col b + g)%Qc.
Proof. now destruct col. Qed.

(** ** The dust filter *)

Lemma not_dust_true u : not_dust u = true <-> (dust < Qcabs u)%Qc.
Proof. apply Qcltb_true. Qed.

Lemma not_dust_false u : not_dust u = false <-> (Qcabs u <= dust)%Qc.
Proof. apply Qcltb_false. Qed.

(** C7, as the script has it.  The dust filter stands in front of the
    asset's own data frame only: an iteration that completes appends its lot
    there exactly when the magnitude of its units exceeds the threshold.
    Whatever the units, the lot's gain, sale price and basis are added to the
    volume summary, and its gain is added to the net column and to one
    classified column of both the year's bucket and the running total. *)
Theorem dust_filter_on_asset_table (s : Tx) (st st' : State) :
  loop_body s st = Done st' ->
  let m := (match_sale s st).1 in
  let label := year_label (Timestamp s) in
  let y := default (new_bucket label) (year_summary st !! label) in
  ((Qcabs (lot_Units m) <= dust)%Qc -> fifo_asset st' = fifo_asset st) /\
  ((dust < Qcabs (lot_Units m))%Qc ->
     fifo_asset st' = fifo_asset st ++ [LotRow m]) /\
  v_Gain_Loss (volume_summary st') =
    (v_Gain_Loss (volume_summary st) + Gain_Loss m)%Qc /\
  v_Sale_Price (volume_summary st') =
    (v_Sale_Price (volume_summary st) + Sale_Price m)%Qc /\
  v_Basis (volume_summary st') =
    (v_Basis (volume_summary st) + Basis m)%Qc /\
  exists col t t' y',
    year_summary st !! "totals" = Some t /\
    year_summary st' !! "totals" = Some t' /\
    year_summary st' !! label = Some y' /\
    Net_CG t' = (Net_CG t + Gain_Loss m)%Qc /\
    get_column col t' = (get_column col t + Gain_Loss m)%Qc /\
    Net_CG y' = (Net_CG y + Gain_Loss m)%Qc /\
    get_column col y' = (get_column col y + Gain_Loss m)%Qc.
Proof.
  intros H m label y. unfold loop_body in H.
  destruct (match_sale_summaries s st) as (Y & V & _ & F).
  subst m. destruct (match_sale s st) as [m st1]. simpl in *.
  destruct (emit_same m st1) as (_ & _ & _ & _ & _ & Y' & V').
  destruct (update_year_summary s m (emit m st1)) as [st2| |] eqn:U;
    simpl in H; try discriminate.
  injection H as <-.
  apply update_year_summary_done in U as (b & t & Hb & Ht & ->).
  rewrite Y', Y in Ht. rewrite Y', Y. simpl. rewrite V', V, emit_fifo.
  pose proof (year_label_not_totals (Timestamp s)) as Hne. rewrite F.
  split; [now intros ->%not_dust_false|].
  split; [now intros ->%not_dust_true|].
  do 3 (split; [reflexivity|]).
  eexists _, t, _, _. split; [exact Ht|].
  split; [apply lookup_insert_eq|].
  split; [now rewrite lookup_insert_ne, lookup_insert_eq|].
  fold label. fold y.
  split; [apply add_to_bucket_net|].
  split; [apply add_to_bucket_column|].
  split; [apply add_to_bucket_net|apply add_to_bucket_column].
Qed.

(** ** The purchase a margin sale is classified against *)

Lemma long_term_true sell_ts buy_ts :
  long_term sell_ts buy_ts = true <->
  (Timedelta_days 365 <= sell_ts - buy_ts)%Z.
Proof. unfold long_term. rewrite negb_true_iff, Z.ltb_ge. tauto. Qed.

Lemma classify_long_term_gain sell_ts buy_ts g :
  (Timedelta_days 365 <= sell_ts - buy_ts)%Z -> (0 < g)%Qc ->
  classify sell_ts buy_ts g = cLTCG.
Proof.
  intros L%long_term_true G%Qcltb_true. unfold classify. now rewrite L, G.
Qed.

(** An uncovered sale met while [buy_tx] is unbound: line 216 raises. *)
Lemma uncovered_unbound_raises s st :
  uncovered st s -> buy_tx st = None ->
  exists st', loop_body s st = Raised (NameError "buy_tx") st'.
Proof.
  intros U B. unfold loop_body. rewrite (match_sale_uncovered _ _ U).
  unfold update_year_summary.
  destruct (emit_same (margin_lot (asset st) s) (margin_state s st))
    as (_ & _ & _ & _ & -> & _).
  simpl. rewrite B. simpl. eauto.
Qed.

(** Once bound, [buy_tx] stays bound, and a covered sale binds it to the
    purchase it popped (reduced in place when the purchase was the larger
    side, which leaves its timestamp alone). *)
Lemma match_sale_buy_tx s st :
  match Deque.pop (buy_deque st) with
  | Some (b, _) =>
      if too_late b s then buy_tx (match_sale s st).2 = buy_tx st
      else exists b', buy_tx (match_sale s st).2 = Some b' /\
                      Timestamp b' = Timestamp b
  | None => buy_tx (match_sale s st).2 = buy_tx st
  end.
Proof.
  destruct (Deque.pop (buy_deque st)) as [[b buys]|] eqn:E.
  - destruct (too_late b s) eqn:T.
    + assert (U : uncovered st s) by now apply (uncovered_pop _ _ _ _ E).
      now rewrite (match_sale_uncovered _ _ U).
    + rewrite (match_sale_covered _ _ _ _ E T).
      destruct (compare_units b s); simpl; eauto.
  - now rewrite (match_sale_uncovered _ _ (uncovered_empty _ s E)).
Qed.

(** ** Conservation of units *)

Lemma uncoveredb_true st s : uncoveredb st s = true <-> uncovered st s.
Proof.
  unfold uncoveredb, Deque.peek.
  destruct (Deque.pop (buy_deque st)) as [[b buys]|] eqn:E; simpl.
  - symmetry. now apply (uncovered_pop _ _ _ _ E).
  - split; [intros _; now apply uncovered_empty|reflexivity].
Qed.

Lemma sum_units_snoc d x : sum_units (d ++ [x]) = (sum_units d + Units x)%Qc.
Proof.
  induction d as [|y d IH]; simpl; [ring|]. rewrite IH. ring.
Qed.

Lemma Qc_sum_nonpos (x y : Qc) : (y < - x)%Qc -> (x + y <= 0)%Qc.
Proof.
  intros H%Qclt_le_weak. apply Qcle_minus_iff in H. apply Qcle_minus_iff.
  now replace (0 + - (x + y))%Qc with (- x + - y)%Qc by ring.
Qed.

(** What [match_sale] takes out of the purchase queue is what the lot
    records, and what it puts back into the sale queue is still a sale. *)
Lemma match_sale_conserves s st :
  nonpos_units s ->
  sum_units (buy_deque st) =
    ((if uncoveredb st s then 0 else lot_Units (match_sale s st).1) +
     sum_units (buy_deque (match_sale s st).2))%Qc /\
  (Forall nonpos_units (sell_deque st) ->
   Forall nonpos_units (sell_deque (match_sale s st).2)).
Proof.
  intros Hs. unfold uncoveredb, Deque.peek.
  destruct (Deque.pop (buy_deque st)) as [[b buys]|] eqn:E; simpl.
  - destruct (too_late b s) eqn:T.
    + assert (U : uncovered st s) by now apply (uncovered_pop _ _ _ _ E).
      rewrite (match_sale_uncovered _ _ U). simpl. split; [ring|done].
    + rewrite (match_sale_covered _ _ _ _ E T).
      apply DequeFacts.pop_Some in E. rewrite E, sum_units_snoc.
      pose proof (compare_units_spec b s) as C.
      destruct (compare_units b s); simpl.
      * split; [ring|]. intros F. unfold Deque.append.
        apply Forall_app. split; [exact F|]. constructor; [|constructor].
        unfold nonpos_units. simpl. apply Qc_sum_nonpos.
        now rewrite <- (Qcabs_neg _ Hs).
      * split; [|done]. unfold Deque.append. rewrite sum_units_snoc. simpl.
        rewrite (Qcabs_neg _ Hs). ring.
      * split; [ring|done].
  - rewrite (match_sale_uncovered _ _ (uncovered_empty _ s E)). simpl.
    split; [ring|done].
Qed.

Lemma loop_body_done_tables s st st' :
  loop_body s st = Done st' ->
  same_tables (emit (match_sale s st).1 (match_sale s st).2) st' /\
  v_Remainder_Units (volume_summary st') = v_Remainder_Units (volume_summary st).
Proof.
  intros H. destruct (loop_body_frame s st) as (st'' & F & S).
  rewrite H in F. injection F as <-. split; [exact S|].
  unfold loop_body in H. destruct (match_sale_summaries s st) as (_ & V & _).
  destruct (match_sale s st) as [m st1]. simpl in V.
  destruct (emit_same m st1) as (_ & _ & _ & _ & _ & _ & V').
  destruct (update_year_summary_cases s m (emit m st1))
    as (ys & [E | (e & E)]); rewrite E in H; simpl in H; [|discriminate].
  injection H as <-. simpl. now rewrite V', V.
Qed.

(** ** The whole run *)

Lemma run_asset_terminates a qs g :
  exists g', final (run_asset a qs g) = Some g'.
Proof.
  unfold run_asset.
  destruct (fifo_loop_terminates (S (queued (enter_asset a qs g)))
              (enter_asset a qs g)) as (st1 & F); [lia|].
  destruct (fifo_loop _ _) as [st|e st|]; cbn [bind]; simpl in F;
    [|simpl; eauto|discriminate].
  destruct (carryover_loop_terminates (S (queued st)) st) as (st2 & ->);
    [unfold queued; lia|].
  simpl. eauto.
Qed.

(** The fuel the loops are run with is enough: a run never times out. *)
Lemma run_assets_terminates am g :
  exists g', final (run_assets am g) = Some g'.
Proof.
  revert g. induction am as [|[a qs] am IH]; intros g; simpl; [eauto|].
  destruct (run_asset_terminates a qs g) as (g1 & F).
  destruct (run_asset a qs g) as [g2|e g2|]; simpl in *;
    [apply IH|eauto|discriminate].
Qed.

(** Validation lets a sale into a queue only with units that are not
    positive. *)
Lemma am_modify_sales_nonpos a f am :
  (forall qs, Forall nonpos_units qs.2 -> Forall nonpos_units (f qs).2) ->
  sales_nonpos am -> sales_nonpos (am_modify a f am).
Proof.
  intros Hf. unfold sales_nonpos.
  induction am as [|[a' qs] am IH]; intros H; simpl.
  - constructor; [|constructor]. simpl. apply Hf. constructor.
  - apply Forall_cons in H as [H1 H2]. case_decide.
    + constructor; [|exact H2]. simpl. now apply Hf.
    + constructor; [exact H1|]. now apply IH.
Qed.

Lemma insert_row_sales_nonpos now row am am' :
  sales_nonpos am -> insert_row now row am = inr am' -> sales_nonpos am'.
Proof.
  intros H. unfold insert_row.
  destruct (negb _); [discriminate|].
  destruct (_ <? _)%Z; [discriminate|].
  case_decide.
  - destruct (Qcltb (Units row) 0); [discriminate|]. intros [= <-].
    apply am_modify_sales_nonpos; [|exact H]. now intros [bs ss].
  - case_decide; [|discriminate].
    destruct (Qcltb 0 (Units row)) eqn:E; [discriminate|]. intros [= <-].
    apply am_modify_sales_nonpos; [|exact H]. intros [bs ss] F. simpl in *.
    constructor; [|exact F]. now apply Qcltb_false.
Qed.

Lemma build_queues_sales_nonpos now transactions am am' :
  sales_nonpos am ->
  build_queues now transactions am = inr am' -> sales_nonpos am'.
Proof.
  revert am. induction transactions as [|row rest IH]; intros am H; simpl.
  - now intros [= <-].
  - destruct (insert_row now row am) as [msg|am1] eqn:E; [discriminate|].
    apply IH. eapply insert_row_sales_nonpos; eauto.
Qed.

(** * The properties on sample logs *)

Import Sample.

(** C1, as stated, fails: the half unit sold after the only purchase is used
    up is an uncovered sale, and its lot is a row of the asset's own data
    frame as well as of [margin]. *)
Lemma margin_lot_also_in_asset_table :
  exists g,
    run now [b1; s1; s_half] = inr (Done g) /\
    g_margin g = [margin_lot "BTC" s_half] /\
    exists rows,
      fifo g !! "BTC" = Some rows /\ LotRow (margin_lot "BTC" s_half) ∈ rows.
Proof.
  eexists. split; [vm_compute; reflexivity|].
  split; [compute_done|].
  eexists. split; [vm_compute; reflexivity|compute_done].
Qed.

Lemma margin_lot_destinations_witness :
  uncovered (after b1 "BTC" [] []) s_half /\
  exists st',
    final (loop_body s_half (after b1 "BTC" [] [])) = Some st' /\
    margin st' =
      margin (after b1 "BTC" [] []) ++
      [margin_lot (asset (after b1 "BTC" [] [])) s_half] /\
    fifo_asset st' =
      (if not_dust (Qcabs (Units s_half))
       then fifo_asset (after b1 "BTC" [] []) ++
            [LotRow (margin_lot (asset (after b1 "BTC" [] [])) s_half)]
       else fifo_asset (after b1 "BTC" [] [])) /\
    sell_deque st' = sell_deque (after b1 "BTC" [] []) /\
    buy_deque st' = buy_deque (after b1 "BTC" [] []).
Proof.
  split; [left; reflexivity|].
  apply margin_lot_destinations. left; reflexivity.
Defined.

(** C2, as stated, fails: matched with a purchase of 1 - 2^-30 units, the
    sale of one unit goes back to the head of the sale queue with 2^-30 of a
    unit, which is below the threshold. *)
Lemma reduced_sale_requeued_below_dust :
  exists st' s',
    loop_body s1 (start "BTC" [b_under] []) = Done st' /\
    Deque.pop (sell_deque st') = Some (s', []) /\
    Units s' = frac (-1) 1073741824 /\
    (Qcabs (Units s') < dust)%Qc.
Proof.
  eexists _, _. split; [vm_compute; reflexivity|].
  split; [vm_compute; reflexivity|].
  split; compute_done.
Qed.

Lemma fifo_loop_ends_by_shortening_queues_witness :
  Deque.pop (sell_deque (start "BTC" [b_under] [s1])) = Some (s1, []) /\
  final (loop_body s1
           (set_queues (buy_deque (start "BTC" [b_under] [s1])) []
              (start "BTC" [b_under] [s1]))) =
    Some (done (start "BTC" [] []) (loop_body s1 (start "BTC" [b_under] []))) /\
  queued (done (start "BTC" [] []) (loop_body s1 (start "BTC" [b_under] [])))
  < queued (start "BTC" [b_under] [s1]).
Proof.
  assert (H1 : Deque.pop (sell_deque (start "BTC" [b_under] [s1]))
               = Some (s1, [])) by reflexivity.
  assert (H2 : final (loop_body s1
                        (set_queues (buy_deque (start "BTC" [b_under] [s1])) []
                           (start "BTC" [b_under] [s1]))) =
               Some (done (start "BTC" [] [])
                       (loop_body s1 (start "BTC" [b_under] []))))
    by (vm_compute; reflexivity).
  split; [exact H1|]. split; [exact H2|].
  exact (proj1 (proj2 (fifo_loop_ends_by_shortening_queues
                         (start "BTC" [b_under] [s1]))) _ _ _ H1 H2).
Defined.

(** C3: the script on scenario C of the specification, a single sale with
    nothing to cover it.  The lot is built and appended, and line 216 then
    finds [buy_tx] unbound. *)
Theorem first_sale_uncovered_raises :
  exists g,
    run now [s_alone] = inr (Raised (NameError "buy_tx") g) /\
    g_margin g = [margin_lot "BTC" s_alone].
Proof. eexists. split; [vm_compute; reflexivity|compute_done]. Qed.

(** C5: the script on a purchase, its sale a day later, and an uncovered
    sale 400 days after the purchase.  The margin lot is dated as bought and
    sold at the same instant, yet its gain is in the long-term column of its
    year: line 216 measured the holding period from [b1], which [buy_tx]
    still names. *)
Theorem margin_sale_bucketed_long_term :
  exists g y,
    run now [b1; s1; s_late] = inr (Done g) /\
    g_margin g = [margin_lot "BTC" s_late] /\
    (Date_Sold (margin_lot "BTC" s_late)
     - Date_Purchased (margin_lot "BTC" s_late) < Timedelta_days 365)%Z /\
    g_buy_tx g = Some b1 /\
    g_year_summary g !! year_label (Timestamp s_late) = Some y /\
    LTCG y = Gain_Loss (margin_lot "BTC" s_late) /\
    STCG y = 0%Qc /\
    (0 < Gain_Loss (margin_lot "BTC" s_late))%Qc.
Proof.
  eexists _, _. split; [vm_compute; reflexivity|].
  split; [compute_done|]. split; [compute_done|]. split; [compute_done|].
  split; [vm_compute; reflexivity|]. repeat split; compute_done.
Qed.

(** C7, as stated, fails: the sale of 2^-30 of a unit that finds the purchase
    queue empty is a row of [margin], with units below the threshold; only
    the asset's own data frame is without it. *)
Lemma dust_margin_lot_in_margin_table :
  exists g rows,
    run now [b1; s1; s_dust] = inr (Done g) /\
    g_margin g = [margin_lot "BTC" s_dust] /\
    (Qcabs (lot_Units (margin_lot "BTC" s_dust)) <= dust)%Qc /\
    fifo g !! "BTC" = Some rows /\
    LotRow (margin_lot "BTC" s_dust) ∉ rows.
Proof.
  eexists _, _. split; [vm_compute; reflexivity|].
  split; [compute_done|]. split; [compute_done|].
  split; [vm_compute; reflexivity|compute_done].
Qed.

Lemma dust_filter_on_asset_table_witness :
  loop_body s_dust (after b1 "BTC" [] []) =
    Done (done (start "BTC" [] []) (loop_body s_dust (after b1 "BTC" [] []))) /\
  fifo_asset
    (done (start "BTC" [] []) (loop_body s_dust (after b1 "BTC" [] []))) =
  fifo_asset (after b1 "BTC" [] []) /\
  v_Sale_Price
    (volume_summary
       (done (start "BTC" [] []) (loop_body s_dust (after b1 "BTC" [] [])))) =
  (v_Sale_Price (volume_summary (after b1 "BTC" [] []))
   + Sale_Price (match_sale s_dust (after b1 "BTC" [] [])).1)%Qc.
Proof.
  assert (H : loop_body s_dust (after b1 "BTC" [] []) =
              Done (done (start "BTC" [] [])
                      (loop_body s_dust (after b1 "BTC" [] []))))
    by (vm_compute; reflexivity).
  split; [exact H|].
  destruct (dust_filter_on_asset_table _ _ _ H) as (D & _ & _ & P & _).
  split; [apply D; compute_done|exact P].
Defined.


Lemma margin_iff_uncovered_witness :
  exists st',
    final (loop_body s_half (after b1 "BTC" [] [])) = Some st' /\
    ((uncovered (after b1 "BTC" [] []) s_half /\
      exists m,
        margin st' = margin (after b1 "BTC" [] []) ++ [m] /\
        lot_Units m = Qcabs (Units s_half) /\
        Sale_Price m = Total_Amount s_half /\
        Basis m = 0%Qc /\
        Gain_Loss m = Sale_Price m /\
        Date_Purchased m = Timestamp s_half /\
        Date_Sold m = Timestamp s_half) \/
     (~ uncovered (after b1 "BTC" [] []) s_half /\
      margin st' = margin (after b1 "BTC" [] []))).
Proof. exact (margin_iff_uncovered s_half (after b1 "BTC" [] [])). Defined.

(** The purchase line 216 reads may belong to another asset: the only ETH
    transaction of this log is a sale, and it is classified against the BTC
    purchase made 400 days earlier. *)
Example margin_sale_classified_across_assets :
  exists g y,
    run now [b1; s1; s_eth] = inr (Done g) /\
    g_margin g = [margin_lot "ETH" s_eth] /\
    g_year_summary g !! "2022" = Some y /\
    LTCG y = Total_Amount s_eth.
Proof.
  eexists _, _. split; [vm_compute; reflexivity|].
  split; [compute_done|]. split; [vm_compute; reflexivity|compute_done].
Qed.

(** Scenarios A and B of the specification. *)
Example scenario_A :
  exists g y,
    run now [b1; sell "BTC" (day 400) (int (-1)) (int 120) "s1"] =
      inr (Done g) /\
    fifo g !! "BTC" =
      Some [LotRow (mkLot "BTC" T0 (day 400) (int 1) (int 120) (int 100)
                      (int 20) "b1" "s1");
            VolumeRow (mkVolume (int 20) (int 120) (int 100) 0 0)] /\
    g_margin g = [] /\
    g_year_summary g !! "2022" = Some y /\ LTCG y = int 20.
Proof.
  eexists _, _. split; [vm_compute; reflexivity|].
  split; [compute_done|]. split; [compute_done|].
  split; [vm_compute; reflexivity|compute_done].
Qed.

Example scenario_B :
  exists g y,
    run now [b_two; s_one] = inr (Done g) /\
    fifo g !! "BTC" =
      Some [LotRow (mkLot "BTC" T0 (day 10) (int 1) (int 11000) (int 10000)
                      (int 1000) "b1" "s1");
            CarryoverRow (mkCarryover "BTC" T0 (int 1) (int 10000) "b1");
            VolumeRow (mkVolume (int 1000) (int 11000) (int 10000)
                         (int 1) (int 10000))] /\
    g_year_summary g !! "2021" = Some y /\ STCG y = int 1000.
Proof.
  eexists _, _. split; [vm_compute; reflexivity|].
  split; [compute_done|]. split; [vm_compute; reflexivity|compute_done].
Qed.

(** * Properties of the rest of the script *)

(** ** Queue discipline *)

Lemma fill_rev {A} (rows : list A) : fill rows = rev rows.
Proof.
  unfold fill. rewrite <- (app_nil_r (rev rows)). generalize (@nil A).
  induction rows as [|x rows IH]; intros acc; simpl; [reflexivity|].
  rewrite IH. unfold Deque.appendleft. now rewrite <- app_assoc.
Qed.

Lemma drain_rev {A} (d : Deque.t A) fuel :
  length d <= fuel -> drain fuel d = rev d.
Proof.
  revert d. induction fuel as [|fuel IH]; intros d H.
  - destruct d; [reflexivity|simpl in H; lia].
  - simpl. destruct (Deque.pop d) as [[x r]|] eqn:E.
    + apply DequeFacts.pop_Some in E as ->.
      rewrite length_app in H. simpl in H.
      rewrite rev_app_distr. simpl. f_equal. apply IH. lia.
    + now apply DequeFacts.pop_None in E as ->.
Qed.

(** X1.  First in, first out: the rows put into a queue with [appendleft]
    come out of it with [pop] in the order they went in, and one [pop] per
    row empties the queue. *)
Theorem queue_is_first_in_first_out {A} (rows : list A) :
  drain (length rows) (fill rows) = rows /\
  Deque.pop (fill rows) =
    match rows with
    | [] => None
    | row :: rest => Some (row, fill rest)
    end.
Proof.
  split.
  - rewrite drain_rev by now rewrite fill_rev, length_rev.
    now rewrite fill_rev, rev_involutive.
  - destruct rows as [|row rest]; [reflexivity|].
    apply DequeFacts.pop_Some. rewrite !fill_rev. reflexivity.
Qed.

(** ** Validation *)

Lemma insert_row_accepted now row am :
  accepted now row ->
  insert_row now row am =
  inr (am_modify (Asset row)
         (if decide (Type_ row = "Buy") then appendleft_buy row
          else appendleft_sell row) am).
Proof.
  intros (T & N & K). unfold insert_row.
  rewrite (proj2 (Qcltb_true _ _) T). simpl.
  rewrite (proj2 (Z.ltb_ge _ _) N).
  destruct K as [[K U]|[K U]]; rewrite K.
  - rewrite decide_True by reflexivity.
    now rewrite (proj2 (Qcltb_false _ _) U).
  - rewrite decide_False by discriminate. rewrite decide_True by reflexivity.
    now rewrite (proj2 (Qcltb_false _ _) U).
Qed.

Lemma insert_row_rejected now row :
  ~ accepted now row ->
  exists message, forall am, insert_row now row am = inl message.
Proof.
  intros H. unfold insert_row, accepted in *.
  destruct (Qcltb 0 (Total_Amount row)) eqn:T; simpl; [|eauto].
  destruct (now <? Timestamp row)%Z eqn:N; [eauto|].
  apply Qcltb_true in T. apply Z.ltb_ge in N.
  destruct (decide (Type_ row = "Buy")) as [K|K].
  - destruct (Qcltb (Units row) 0) eqn:U; [eauto|].
    apply Qcltb_false in U. destruct H. auto.
  - destruct (decide (Type_ row = "Sell")) as [K'|K']; [|eauto].
    destruct (Qcltb 0 (Units row)) eqn:U; [eauto|].
    apply Qcltb_false in U. destruct H. auto.
Qed.

Lemma insert_row_inr now row am am' :
  insert_row now row am = inr am' -> accepted now row.
Proof.
  unfold insert_row, accepted.
  destruct (Qcltb 0 (Total_Amount row)) eqn:T; simpl; [|discriminate].
  destruct (now <? Timestamp row)%Z eqn:N; [discriminate|].
  apply Qcltb_true in T. apply Z.ltb_ge in N.
  destruct (decide (Type_ row = "Buy")) as [K|K].
  - destruct (Qcltb (Units row) 0) eqn:U; [discriminate|].
    apply Qcltb_false in U. auto.
  - destruct (decide (Type_ row = "Sell")) as [K'|K']; [|discriminate].
    destruct (Qcltb 0 (Units row)) eqn:U; [discriminate|].
    apply Qcltb_false in U. auto.
Qed.

(** X2.  Validation lets a log through exactly when every row has a positive
    total amount, a timestamp that is not in the future, and is a purchase
    with units that are not negative or a sale with units that are not
    positive.  Rows with zero units pass. *)
Theorem validation_accepts_exactly
    (now : Z) (transactions : list Tx) (am : asset_map) :
  (exists am', build_queues now transactions am = inr am') <->
  Forall (accepted now) transactions.
Proof.
  revert am. induction transactions as [|row rest IH]; intros am; simpl.
  - split; [constructor|eauto].
  - split.
    + intros (am' & H).
      destruct (insert_row now row am) as [msg|am1] eqn:E; [discriminate|].
      constructor; [eapply insert_row_inr; eauto|]. apply (IH am1). eauto.
    + intros [A F]%Forall_cons. rewrite (insert_row_accepted _ _ _ A).
      now apply IH.
Qed.

(** X3.  Validation stops at the first row it objects to: the run ends with
    the message for that row, whatever follows it and whatever queues the
    rows before it have built. *)
Theorem validation_stops_at_first_rejected_row
    (now : Z) (before after : list Tx) (row : Tx) (am : asset_map) :
  Forall (accepted now) before ->
  ~ accepted now row ->
  exists message,
    (forall am', insert_row now row am' = inl message) /\
    build_queues now (before ++ row :: after) am = inl message /\
    run now (before ++ row :: after) = inl message.
Proof.
  intros F R. destruct (insert_row_rejected now row R) as (msg & M).
  exists msg. split; [exact M|].
  assert (B : forall am0, build_queues now (before ++ row :: after) am0
                          = inl msg).
  { induction F as [|x l A F IH]; intros am0; simpl.
    - now rewrite M.
    - rewrite (insert_row_accepted _ _ _ A). apply IH. }
  split; [apply B|]. unfold run. now rewrite B.
Qed.

(** ** Queue construction *)

Lemma am_modify_keys_old a f am :
  a ∈ am.*1 -> (am_modify a f am).*1 = am.*1.
Proof.
  induction am as [|[a' qs] am IH]; intros H.
  - now apply elem_of_nil in H.
  - cbn [am_modify]. destruct (decide (a' = a)) as [->|Hne]; [reflexivity|].
    rewrite !fmap_cons. f_equal. apply IH.
    rewrite fmap_cons in H. apply elem_of_cons in H as [?|?]; [|assumption].
    simpl in *. congruence.
Qed.

Lemma am_modify_keys_new a f am :
  a ∉ am.*1 -> (am_modify a f am).*1 = am.*1 ++ [a].
Proof.
  induction am as [|[a' qs] am IH]; intros H; [reflexivity|].
  rewrite fmap_cons in H. apply not_elem_of_cons in H as [H1 H2].
  cbn [am_modify]. rewrite decide_False by (simpl in H1; congruence).
  rewrite !fmap_cons. simpl. f_equal. now apply IH.
Qed.

Lemma am_modify_keys a f am :
  (am_modify a f am).*1 = if decide (a ∈ am.*1) then am.*1 else am.*1 ++ [a].
Proof.
  case_decide; [now apply am_modify_keys_old|now apply am_modify_keys_new].
Qed.

Lemma am_lookup_None a am : am_lookup a am = None <-> a ∉ am.*1.
Proof.
  induction am as [|[a' qs] am IH]; simpl.
  - split; [intros _; apply not_elem_of_nil|reflexivity].
  - destruct (decide (a' = a)) as [->|Hne].
    + split; [discriminate|]. intros []. apply list_elem_of_here.
    + rewrite IH, not_elem_of_cons. intuition congruence.
Qed.

(** Reading [asset_map[a]] back after line 84 or 88 has written it. *)
Lemma am_lookup_modify a f am :
  am_lookup a (am_modify a f am) =
  Some (f (default ([], []) (am_lookup a am))).
Proof.
  induction am as [|[a' qs] am IH]; simpl.
  - now rewrite decide_True.
  - destruct (decide (a' = a)) as [->|Hne]; simpl.
    + now rewrite decide_True.
    + now rewrite decide_False.
Qed.

Lemma am_lookup_modify_ne a a' f am :
  a' ≠ a -> am_lookup a' (am_modify a f am) = am_lookup a' am.
Proof.
  intros Hne. induction am as [|[a0 qs] am IH]; simpl.
  - now rewrite decide_False.
  - destruct (decide (a0 = a)) as [->|H0]; simpl.
    + now rewrite !decide_False.
    + destruct (decide (a0 = a')); [reflexivity|exact IH].
Qed.

Lemma fill_snoc {A} (rows : list A) row : fill (rows ++ [row]) = row :: fill rows.
Proof. rewrite !fill_rev, rev_app_distr. reflexivity. Qed.

Lemma first_seen_snoc rows row :
  first_seen (rows ++ [row]) =
  if decide (Asset row ∈ first_seen rows) then first_seen rows
  else first_seen rows ++ [Asset row].
Proof. unfold first_seen. now rewrite foldl_app. Qed.

Lemma first_seen_NoDup rows : NoDup (first_seen rows).
Proof.
  induction rows as [|row rows IH] using rev_ind; [constructor|].
  rewrite first_seen_snoc. case_decide; [exact IH|].
  apply NoDup_app. repeat split; [exact IH| |apply NoDup_singleton].
  intros x Hx ->%list_elem_of_singleton. contradiction.
Qed.

Lemma first_seen_elem_of rows a :
  a ∈ first_seen rows <-> a ∈ Asset <$> rows.
Proof.
  induction rows as [|row rows IH] using rev_ind.
  - reflexivity.
  - rewrite first_seen_snoc, fmap_app, elem_of_app, <- IH. simpl.
    rewrite list_elem_of_singleton. case_decide.
    + split; [auto|]. intros [?| ->]; assumption.
    + now rewrite elem_of_app, list_elem_of_singleton.
Qed.

Lemma purchases_of_snoc a rows row :
  purchases_of a (rows ++ [row]) =
  purchases_of a rows ++
  (if decide (Asset row = a /\ Type_ row = "Buy") then [row] else []).
Proof.
  unfold purchases_of. now rewrite filter_app.
Qed.

Lemma sales_of_snoc a rows row :
  sales_of a (rows ++ [row]) =
  sales_of a rows ++
  (if decide (Asset row = a /\ Type_ row = "Sell") then [row] else []).
Proof.
  unfold sales_of. now rewrite filter_app.
Qed.

Lemma unseen_asset_has_no_rows a rows :
  a ∉ first_seen rows -> purchases_of a rows = [] /\ sales_of a rows = [].
Proof.
  rewrite first_seen_elem_of. unfold purchases_of, sales_of.
  induction rows as [|row rows IH]; intros H; [split; reflexivity|].
  rewrite fmap_cons in H. apply not_elem_of_cons in H as [H1 H2].
  destruct (IH H2) as [E1 E2].
  rewrite !filter_cons, !decide_False by (intros [? _]; simpl in H1; congruence).
  now split.
Qed.

Lemma holds_insert_row now rows row am am' :
  holds rows am ->
  insert_row now row am = inr am' ->
  holds (rows ++ [row]) am'.
Proof.
  intros [K L] H. pose proof (insert_row_inr _ _ _ _ H) as A.
  rewrite (insert_row_accepted _ _ _ A) in H. injection H as <-.
  destruct A as (_ & _ & T). split.
  - now rewrite am_modify_keys, K, first_seen_snoc.
  - intros a. rewrite first_seen_snoc, purchases_of_snoc, sales_of_snoc.
    destruct (decide (Asset row = a)) as [<-|Hne].
    + rewrite am_lookup_modify, L.
      assert (S : Asset row ∈
                  (if decide (Asset row ∈ first_seen rows) then first_seen rows
                   else first_seen rows ++ [Asset row])).
      { case_decide; [assumption|].
        apply elem_of_app. right. now apply list_elem_of_singleton. }
      rewrite (decide_True _ _ S). clear S.
      pose proof (unseen_asset_has_no_rows (Asset row) rows) as N.
      destruct (decide (Asset row ∈ first_seen rows)) as [S|S]; simpl;
        [|destruct (N S) as [E1 E2]; rewrite E1, E2]; clear N.
      all: destruct T as [[T U]|[T U]]; rewrite T.
      all: repeat case_decide; try (exfalso; intuition congruence).
      all: unfold appendleft_buy, appendleft_sell; simpl.
      all: now rewrite ?fill_snoc, ?app_nil_r.
    + rewrite am_lookup_modify_ne by congruence. rewrite L.
      rewrite !(decide_False (P := _ /\ _)) by (intros [? _]; congruence).
      rewrite !app_nil_r.
      destruct (decide (Asset row ∈ first_seen rows)); [reflexivity|].
      destruct (decide (a ∈ first_seen rows)) as [Hin|Hin].
      * rewrite decide_True; [reflexivity|]. apply elem_of_app. now left.
      * rewrite decide_False; [reflexivity|].
        intros [?|?%list_elem_of_singleton]%elem_of_app; congruence.
Qed.

Lemma holds_build_queues now rows transactions am am' :
  holds rows am ->
  build_queues now transactions am = inr am' ->
  holds (rows ++ transactions) am'.
Proof.
  revert rows am. induction transactions as [|row rest IH]; intros rows am H.
  - simpl. intros [= <-]. now rewrite app_nil_r.
  - simpl. destruct (insert_row now row am) as [msg|am1] eqn:E; [discriminate|].
    intros B. rewrite (cons_middle row rows rest), app_assoc.
    apply (IH _ am1); [|exact B]. eapply holds_insert_row; eauto.
Qed.

(** X4.  The queues of an accepted log: the assets are keyed once each, in
    the order they first appear in the log; the queues of an asset hold its
    purchases and its sales, filled in the order of the log, so that [pop]
    returns them earliest first; an asset the log does not mention has no
    queues. *)
Theorem queues_hold_the_log (now : Z) (transactions : list Tx) (am : asset_map) :
  build_queues now transactions [] = inr am ->
  NoDup am.*1 /\
  am.*1 = first_seen transactions /\
  forall a,
    am_lookup a am =
    if decide (a ∈ Asset <$> transactions)
    then Some (fill (purchases_of a transactions),
               fill (sales_of a transactions))
    else None.
Proof.
  intros B.
  assert (H0 : holds [] []).
  { split; [reflexivity|]. intros a. cbn [first_seen foldl am_lookup].
    destruct (decide (a ∈ [])) as [H|H]; [now apply elem_of_nil in H|reflexivity]. }
  destruct (holds_build_queues now [] transactions [] am H0 B) as [K L].
  simpl in K, L. split; [rewrite K; apply first_seen_NoDup|].
  split; [exact K|]. intros a. rewrite L.
  destruct (decide (a ∈ first_seen transactions)) as [H|H];
    rewrite first_seen_elem_of in H.
  - now rewrite decide_True.
  - now rewrite decide_False.
Qed.

(** ** Where the money goes *)

Lemma sum_amount_snoc d x :
  sum_amount (d ++ [x]) = (sum_amount d + Total_Amount x)%Qc.
Proof. induction d as [|y d IH]; simpl; [ring|]. rewrite IH. ring. Qed.

Lemma Qc_shift (a b c : Qc) : (a - b = c)%Qc -> a = (b + c)%Qc.
Proof. intros <-. ring. Qed.

(** What a match takes from the two queues is what its lot records. *)
Lemma match_sale_money s st :
  (Sale_Price (match_sale s st).1 + sum_amount (sell_deque (match_sale s st).2)
   = Total_Amount s + sum_amount (sell_deque st))%Qc /\
  (Basis (match_sale s st).1 + sum_amount (buy_deque (match_sale s st).2)
   = sum_amount (buy_deque st))%Qc /\
  Gain_Loss (match_sale s st).1 =
    (Sale_Price (match_sale s st).1 - Basis (match_sale s st).1)%Qc /\
  lot_Asset (match_sale s st).1 = asset st.
Proof.
  destruct (Deque.pop (buy_deque st)) as [[b buys]|] eqn:E.
  - destruct (too_late b s) eqn:T.
    + assert (U : uncovered st s) by now apply (uncovered_pop _ _ _ _ E).
      rewrite (match_sale_uncovered _ _ U). simpl. repeat split; ring.
    + rewrite (match_sale_covered _ _ _ _ E T).
      apply DequeFacts.pop_Some in E. rewrite E, sum_amount_snoc.
      destruct (compare_units b s); simpl; unfold Deque.append;
        rewrite ?sum_amount_snoc; simpl; repeat split; ring.
  - rewrite (match_sale_uncovered _ _ (uncovered_empty _ s E)). simpl.
    repeat split; ring.
Qed.

(** An iteration that completes: the volume summary and [year_summary]
    after it. *)
Lemma loop_body_done_summaries s st st' :
  loop_body s st = Done st' ->
  let m := (match_sale s st).1 in
  let label := year_label (Timestamp s) in
  let y := default (new_bucket label) (year_summary st !! label) in
  volume_summary st' =
    mkVolume (v_Gain_Loss (volume_summary st) + Gain_Loss m)
      (v_Sale_Price (volume_summary st) + Sale_Price m)
      (v_Basis (volume_summary st) + Basis m)
      (v_Remainder_Units (volume_summary st))
      (v_Remainder_Basis (volume_summary st)) /\
  exists b t,
    buy_tx (match_sale s st).2 = Some b /\
    buy_tx st' = Some b /\
    year_summary st !! "totals" = Some t /\
    year_summary st' =
      <["totals" := add_to_bucket
                      (classify (Timestamp s) (Timestamp b) (Gain_Loss m))
                      (Gain_Loss m) t]>
        (<[label := add_to_bucket
                      (classify (Timestamp s) (Timestamp b) (Gain_Loss m))
                      (Gain_Loss m) y]>
           (add_year label (year_summary st))).
Proof.
  intros H m label y. unfold loop_body in H.
  destruct (match_sale_summaries s st) as (Y & V & _ & _).
  subst m. destruct (match_sale s st) as [m st1]. simpl in *.
  destruct (emit_same m st1) as (_ & _ & _ & _ & B & Y' & V').
  destruct (update_year_summary s m (emit m st1)) as [st2| |] eqn:U;
    simpl in H; try discriminate.
  injection H as <-.
  apply update_year_summary_done in U as (b & t & Hb & Ht & ->).
  simpl. rewrite V', V, Y', Y in *. split; [reflexivity|].
  exists b, t. rewrite <- B. repeat split; assumption.
Qed.

Lemma fifo_loop_money fuel st st' :
  fifo_loop fuel st = Done st' ->
  sell_deque st' = [] /\
  v_Sale_Price (volume_summary st') =
    (v_Sale_Price (volume_summary st) + sum_amount (sell_deque st))%Qc /\
  (v_Basis (volume_summary st') + sum_amount (buy_deque st')
   = v_Basis (volume_summary st) + sum_amount (buy_deque st))%Qc /\
  (v_Gain_Loss (volume_summary st') - v_Gain_Loss (volume_summary st)
   = (v_Sale_Price (volume_summary st') - v_Sale_Price (volume_summary st))
     - (v_Basis (volume_summary st') - v_Basis (volume_summary st)))%Qc /\
  v_Remainder_Basis (volume_summary st') =
    v_Remainder_Basis (volume_summary st) /\
  (forall t, year_summary st !! "totals" = Some t ->
     exists t',
       year_summary st' !! "totals" = Some t' /\
       (Net_CG t' - Net_CG t
        = v_Gain_Loss (volume_summary st') - v_Gain_Loss (volume_summary st))%Qc).
Proof.
  revert st. induction fuel as [|fuel IH]; intros st; [discriminate|]. simpl.
  destruct (Deque.pop (sell_deque st)) as [[s sells]|] eqn:E.
  - set (st0 := set_queues (buy_deque st) sells st).
    destruct (loop_body s st0) as [st1| |] eqn:L; simpl; try discriminate.
    intros H. apply IH in H as (S' & P' & B' & G' & R' & N').
    destruct (loop_body_done_tables _ _ _ L) as ((_ & B1 & L1 & _) & _).
    destruct (emit_same (match_sale s st0).1 (match_sale s st0).2)
      as (_ & B2 & L2 & _).
    destruct (match_sale_money s st0) as (MP & MB & MG & _).
    rewrite <- L2, L1 in MP. rewrite <- B2, B1 in MB.
    destruct (loop_body_done_summaries _ _ _ L) as (V & b & t0 & _ & _ & Ht & Y).
    apply DequeFacts.pop_Some in E. rewrite E, sum_amount_snoc.
    rewrite V in *. simpl in *.
    split; [exact S'|].
    split; [rewrite P'; rewrite <- (Qcplus_assoc _ _ (sum_amount _)), MP; ring|].
    split; [rewrite B', <- MB; ring|].
    split; [apply Qc_shift in G'; rewrite G', MG; ring|].
    split; [exact R'|].
    intros t Ht'. rewrite Ht in Ht'. injection Ht' as ->.
    destruct (N' _ (eq_trans (f_equal (fun ys => ys !! "totals") Y)
                      (lookup_insert_eq _ _ _))) as (t' & Ht' & D).
    exists t'. split; [exact Ht'|].
    apply Qc_shift in D. rewrite D, add_to_bucket_net. ring.
  - intros [= <-]. apply DequeFacts.pop_None in E. rewrite E. simpl.
    repeat split; try ring. intros t Ht. exists t. split; [exact Ht|ring].
Qed.

Lemma carryover_loop_effect fuel st st' :
  carryover_loop fuel st = Done st' ->
  buy_deque st' = [] /\
  volume_summary st' =
    mkVolume (v_Gain_Loss (volume_summary st))
      (v_Sale_Price (volume_summary st)) (v_Basis (volume_summary st))
      (v_Remainder_Units (volume_summary st) + sum_units (buy_deque st))
      (v_Remainder_Basis (volume_summary st) + sum_amount (buy_deque st)) /\
  fifo_asset st' =
    fifo_asset st ++
    (CarryoverRow <$>
       (carryover_row (asset st) <$>
          filter (fun b => Qcltb dust (Units b) = true) (rev (buy_deque st)))) /\
  buy_tx st' = match buy_deque st with [] => buy_tx st | b :: _ => Some b end.
Proof.
  revert st. induction fuel as [|fuel IH]; intros st; [discriminate|]. simpl.
  destruct (Deque.pop (buy_deque st)) as [[b buys]|] eqn:E.
  - intros H. apply IH in H as (Q & V & T & B). simpl in *.
    apply DequeFacts.pop_Some in E. rewrite E.
    rewrite sum_units_snoc, sum_amount_snoc, rev_app_distr. simpl.
    split; [exact Q|]. rewrite V, T, B. split; [f_equal; ring|].
    split.
    + rewrite filter_cons. unfold carryover_row.
      destruct (Qcltb dust (Units b)) eqn:D.
      * rewrite decide_True by reflexivity.
        now rewrite !fmap_cons, <- app_assoc.
      * now rewrite decide_False by discriminate.
    + now destruct buys.
  - intros [= <-]. apply DequeFacts.pop_None in E. rewrite E. simpl.
    rewrite app_nil_r. repeat split.
    destruct (volume_summary st). simpl. f_equal; ring.
Qed.

Lemma loop_body_done_asset s st st' :
  loop_body s st = Done st' -> asset st' = asset st.
Proof.
  intros L. destruct (loop_body_done_tables _ _ _ L) as ((A & _) & _).
  destruct (emit_same (match_sale s st).1 (match_sale s st).2) as (A' & _).
  destruct (match_sale_summaries s st) as (_ & _ & A'' & _). congruence.
Qed.

(** The rows the matching loop appends, and what every lot it builds says. *)
Lemma fifo_loop_table fuel st st' :
  fifo_loop fuel st = Done st' ->
  asset st' = asset st /\
  fifo_asset st' =
    fifo_asset st ++
    (LotRow <$> filter (fun m => not_dust (lot_Units m) = true)
                  ((fifo_matches fuel st).*2)) /\
  Forall (fun m => lot_Asset m = asset st /\
                   Gain_Loss m = (Sale_Price m - Basis m)%Qc)
    ((fifo_matches fuel st).*2).
Proof.
  revert st. induction fuel as [|fuel IH]; intros st; [discriminate|]. simpl.
  destruct (Deque.pop (sell_deque st)) as [[s sells]|] eqn:E.
  - set (st0 := set_queues (buy_deque st) sells st).
    destruct (loop_body s st0) as [st1| |] eqn:L; simpl; try discriminate.
    intros H. apply IH in H as (A' & T' & P').
    pose proof (loop_body_done_asset _ _ _ L) as A1.
    destruct (loop_body_done_tables _ _ _ L) as ((_ & _ & _ & T1 & _) & _).
    destruct (match_sale_summaries s st0) as (_ & _ & _ & T3).
    destruct (match_sale_money s st0) as (_ & _ & MG & MA).
    rewrite emit_fifo, T3 in T1. simpl in A1, T1, MA.
    split; [congruence|]. split.
    + rewrite T', <- T1. rewrite filter_cons.
      destruct (decide _) as [D|D].
      * rewrite D. now rewrite fmap_cons, <- app_assoc.
      * apply not_true_is_false in D. now rewrite D.
    + constructor; [now split|]. now rewrite A1 in P'.
  - intros [= <-]. simpl. rewrite app_nil_r. repeat split. constructor.
Qed.

(** X8.  The data frame of a completed asset: first the lots the matching
    loop let through the dust filter, each naming the asset and with a gain
    of sale price less basis; then one carryover row for every purchase the
    loop left whose units exceed the threshold, earliest first; then the
    volume summary, whose remainder columns sum the purchases left, below
    the threshold or not.  The loop has left no sale. *)
Theorem asset_table_shape
    (a : string) (buys sells : Deque.t Tx) (g g' : Globals) :
  run_asset a (buys, sells) g = Done g' ->
  exists st1 lots v,
    fifo_loop (S (queued (enter_asset a (buys, sells) g)))
      (enter_asset a (buys, sells) g) = Done st1 /\
    sell_deque st1 = [] /\
    fifo g' !! a =
      Some ((LotRow <$> lots) ++
            (CarryoverRow <$>
               (carryover_row a <$>
                  filter (fun b => Qcltb dust (Units b) = true)
                    (rev (buy_deque st1)))) ++
            [VolumeRow v]) /\
    Forall (fun m => lot_Asset m = a /\ not_dust (lot_Units m) = true /\
                     Gain_Loss m = (Sale_Price m - Basis m)%Qc) lots /\
    v_Remainder_Units v = sum_units (buy_deque st1) /\
    v_Remainder_Basis v = sum_amount (buy_deque st1).
Proof.
  intros R. unfold run_asset in R.
  set (st0 := enter_asset a (buys, sells) g) in *.
  destruct (fifo_loop (S (queued st0)) st0) as [st1| |] eqn:L;
    cbn [bind] in R; try discriminate.
  destruct (carryover_loop (S (queued st1)) st1) as [st2| |] eqn:C;
    cbn [bind] in R; try discriminate.
  injection R as <-.
  destruct (fifo_loop_table _ _ _ L) as (A1 & T1 & P1).
  destruct (carryover_loop_shared _ _ _ C) as (_ & _ & A2).
  destruct (fifo_loop_money _ _ _ L) as (S1 & _ & _ & _ & RB & _).
  assert (RU : v_Remainder_Units (volume_summary st1) = 0%Qc).
  { clear -L. revert L. generalize (S (queued st0)). intros fuel.
    assert (H : v_Remainder_Units (volume_summary st0) = 0%Qc) by reflexivity.
    revert H. generalize st0. clear st0.
    induction fuel as [|fuel IH]; intros st H; [discriminate|]. simpl.
    destruct (Deque.pop (sell_deque st)) as [[s sells']|];
      [|now intros [= <-]].
    destruct (loop_body s _) as [st3| |] eqn:B; simpl; try discriminate.
    apply IH. apply loop_body_done_tables in B as (_ & ->). exact H. }
  apply carryover_loop_effect in C as (_ & V & T2 & _).
  exists st1, (filter (fun m => not_dust (lot_Units m) = true)
                 ((fifo_matches (S (queued st0)) st0).*2)),
    (volume_summary st2).
  split; [reflexivity|]. split; [exact S1|]. simpl.
  rewrite A2, A1. simpl. split.
  - rewrite lookup_insert_eq. f_equal. rewrite T2, T1, A1. simpl.
    now rewrite <- app_assoc.
  - split.
    + apply Forall_forall. intros m [D Hm]%list_elem_of_filter.
      rewrite Forall_forall in P1. destruct (P1 m Hm) as (PA & PG).
      simpl in PA. auto.
    + rewrite V. simpl. rewrite RU, RB. simpl. split; ring.
Qed.

(** ** When the script raises *)

Lemma add_year_totals label ys :
  label ≠ "totals" -> add_year label ys !! "totals" = ys !! "totals".
Proof.
  intros H. destruct (add_year_lookup label ys) as (_ & _ & _ & K).
  apply K. congruence.
Qed.

(** The three ways an iteration can end, once the running total exists. *)
Lemma loop_body_outcome s st t :
  year_summary st !! "totals" = Some t ->
  match loop_body s st with
  | Done st' =>
      ~ (uncovered st s /\ buy_tx st = None) /\
      is_Some (buy_tx st') /\ is_Some (year_summary st' !! "totals")
  | Raised e st' =>
      e = NameError "buy_tx" /\ uncovered st s /\ buy_tx st = None /\
      buy_tx st' = None /\ is_Some (year_summary st' !! "totals")
  | Timeout => False
  end.
Proof.
  intros Ht. unfold loop_body.
  destruct (match_sale_summaries s st) as (Y & _).
  pose proof (match_sale_buy_tx s st) as B.
  pose proof (year_label_not_totals (Timestamp s)) as Hne.
  assert (D : forall m st1 b,
             year_summary st1 = year_summary st -> buy_tx st1 = Some b ->
             exists st', bind (update_year_summary s m (emit m st1)) id
                           (fun st' => Done (update_volume m st')) = Done st' /\
                         is_Some (buy_tx st') /\
                         is_Some (year_summary st' !! "totals")).
  { intros m st1 b Y1 B1.
    destruct (emit_same m st1) as (_ & _ & _ & _ & Eb & Ey & _).
    rewrite (update_year_summary_bound s m (emit m st1) b t);
      [|congruence|congruence].
    eexists. split; [reflexivity|]. simpl. rewrite Eb, B1.
    split; [eauto|]. rewrite lookup_insert_eq. eauto. }
  destruct (Deque.pop (buy_deque st)) as [[b buys]|] eqn:E.
  - destruct (too_late b s) eqn:T.
    + assert (U : uncovered st s) by now apply (uncovered_pop _ _ _ _ E).
      rewrite (match_sale_uncovered _ _ U) in *. simpl in *.
      destruct (buy_tx st) as [b0|] eqn:B0.
      * destruct (D (margin_lot (asset st) s) (margin_state s st) b0 eq_refl B0)
          as (st' & -> & H1 & H2).
        split; [|now split]. intros [_ ?]. discriminate.
      * unfold update_year_summary.
        destruct (emit_same (margin_lot (asset st) s) (margin_state s st))
          as (_ & _ & _ & _ & Eb & Ey & _).
        rewrite Eb. simpl. rewrite B0. simpl. rewrite Eb, Ey. simpl.
        rewrite add_year_totals, Ht by exact Hne. repeat split; eauto.
    + destruct B as (b' & B' & _).
      destruct (match_sale s st) as [m st1]. simpl in *.
      destruct (D m st1 b' Y B') as (st' & -> & H1 & H2).
      split; [|now split]. intros [U _].
      apply (uncovered_pop _ _ _ _ E) in U. congruence.
  - assert (U : uncovered st s) by now apply uncovered_empty.
    rewrite (match_sale_uncovered _ _ U) in *. simpl in *.
    destruct (buy_tx st) as [b0|] eqn:B0.
    + destruct (D (margin_lot (asset st) s) (margin_state s st) b0 eq_refl B0)
        as (st' & -> & H1 & H2).
      split; [|now split]. intros [_ ?]. discriminate.
    + unfold update_year_summary.
      destruct (emit_same (margin_lot (asset st) s) (margin_state s st))
        as (_ & _ & _ & _ & Eb & Ey & _).
      rewrite Eb. simpl. rewrite B0. simpl. rewrite Eb, Ey. simpl.
      rewrite add_year_totals, Ht by exact Hne. repeat split; eauto.
Qed.


Lemma fifo_loop_outcome fuel st t :
  year_summary st !! "totals" = Some t ->
  queued st < fuel ->
  match fifo_loop fuel st with
  | Done st' =>
      is_Some (year_summary st' !! "totals") /\
      (is_Some (buy_tx st) \/ sell_deque st <> [] -> is_Some (buy_tx st')) /\
      ~ first_sale_raises st
  | Raised e st' =>
      e = NameError "buy_tx" /\ first_sale_raises st /\
      is_Some (year_summary st' !! "totals")
  | Timeout => False
  end.
Proof.
  revert st t. induction fuel as [|fuel IH]; intros st t Ht Q; [lia|]. simpl.
  destruct (Deque.pop (sell_deque st)) as [[s sells]|] eqn:E.
  - set (st0 := set_queues (buy_deque st) sells st).
    pose proof (loop_body_outcome s st0 t Ht) as O.
    assert (Q0 : forall st1, final (loop_body s st0) = Some st1 ->
                             queued st1 < fuel).
    { intros st1 F. pose proof (iteration_shortens_queues _ _ _ _ E F). lia. }
    destruct (loop_body s st0) as [st1|e st1|]; simpl; [| |contradiction].
    + destruct O as (N & [b1 B1] & [t1 T1]).
      specialize (IH st1 t1 T1 (Q0 st1 eq_refl)).
      destruct (fifo_loop fuel st1) as [st'|e st'|]; [| |contradiction].
      * destruct IH as (T' & B' & _). split; [exact T'|].
        split; [intros _; apply B'; left; rewrite B1; eauto|].
        intros (B0 & s' & sells' & E' & U). rewrite E in E'.
        injection E' as <- <-. apply N. now split.
      * destruct IH as (_ & (B0 & _) & _). congruence.
    + destruct O as (-> & U & B & _ & T'). repeat split; try assumption.
      exists s, sells. now split.
  - split; [rewrite Ht; eauto|]. split.
    + intros [H|H]; [exact H|]. apply DequeFacts.pop_None in E. contradiction.
    + intros (_ & s & sells & E' & _). congruence.
Qed.

Lemma run_asset_outcome a buys sells g t :
  g_year_summary g !! "totals" = Some t ->
  match run_asset a (buys, sells) g with
  | Done g' =>
      is_Some (g_year_summary g' !! "totals") /\
      (is_Some (g_buy_tx g) \/ buys <> [] \/ sells <> [] ->
       is_Some (g_buy_tx g')) /\
      ~ first_sale_raises (enter_asset a (buys, sells) g)
  | Raised e g' =>
      e = NameError "buy_tx" /\
      first_sale_raises (enter_asset a (buys, sells) g) /\
      is_Some (g_year_summary g' !! "totals")
  | Timeout => False
  end.
Proof.
  intros Ht. unfold run_asset.
  set (st0 := enter_asset a (buys, sells) g).
  pose proof (fifo_loop_outcome (S (queued st0)) st0 t Ht (Nat.lt_succ_diag_r _))
    as O.
  destruct (fifo_loop (S (queued st0)) st0) as [st1|e st1|] eqn:L;
    cbn [bind]; [| |contradiction].
  - destruct O as (T1 & B1 & N).
    destruct (carryover_loop_terminates (S (queued st1)) st1) as (st2 & C);
      [unfold queued; lia|].
    rewrite C. cbn [bind]. simpl.
    destruct (carryover_loop_shared _ _ _ C) as (-> & _).
    split; [exact T1|]. split; [|exact N].
    apply carryover_loop_effect in C as (_ & _ & _ & ->).
    intros H. destruct (buy_deque st1) as [|b l] eqn:D; [|eauto].
    apply B1. destruct H as [H|[H|H]]; [now left| |now right].
    (* the purchases were all matched, so there was a sale *)
    right. intros S0.
    assert (st1 = st0).
    { simpl in S0. revert L. simpl. rewrite S0. simpl. now intros [= <-]. }
    subst st1. simpl in D. contradiction.
  - destruct O as (-> & F & T'). simpl.
    split; [reflexivity|]. split; [exact F|exact T'].
Qed.

Lemma run_assets_outcome am g t :
  g_year_summary g !! "totals" = Some t ->
  match run_assets am g with
  | Done g' => is_Some (g_year_summary g' !! "totals")
  | Raised e g' => e = NameError "buy_tx" /\ g_buy_tx g = None
  | Timeout => False
  end.
Proof.
  revert g t. induction am as [|[a [buys sells]] am IH]; intros g t Ht; simpl.
  - rewrite Ht. eauto.
  - pose proof (run_asset_outcome a buys sells g t Ht) as O.
    destruct (run_asset a (buys, sells) g) as [g1|e g1|]; simpl;
      [| |contradiction].
    + destruct O as ([t1 T1] & B & _). specialize (IH g1 t1 T1).
      destruct (run_assets am g1) as [g'|e g'|]; [exact IH| |contradiction].
      destruct IH as (-> & B1). split; [reflexivity|].
      destruct (g_buy_tx g) eqn:B0; [|reflexivity].
      destruct B as [b' B']; [left; eauto|]. congruence.
    + destruct O as (-> & (B0 & _) & _). now split.
Qed.


(** On queues with the signs validation leaves, no iteration of the
    matching loop divides by zero, and the queues it leaves have those signs
    again: line 167 divides by [|s.units|], which exceeds units that are not
    negative, line 183 by units that exceed [|s.units|], and what lines 175
    and 191 put back has the sign of the larger side. *)
Lemma signed_iteration_divides_safely s st st' :
  Forall nonneg_units (buy_deque st) ->
  Forall nonpos_units (sell_deque st) ->
  nonpos_units s ->
  ~ divides_by_zero s st /\
  (final (loop_body s st) = Some st' ->
   Forall nonneg_units (buy_deque st') /\ Forall nonpos_units (sell_deque st')).
Proof.
  intros FB FS Hs. split.
  - intros (b & buys & E & _ & [[L Z]|(_ & L & Z)]).
    + apply DequeFacts.pop_Some in E. rewrite E in FB.
      apply Forall_app in FB as [_ Hb]. apply Forall_inv in Hb.
      unfold nonneg_units in Hb. rewrite Z in L.
      exact (Qclt_not_le _ _ L Hb).
    + rewrite Z in L. exact (Qclt_not_le _ _ L (Qcabs_nonneg _)).
  - intros F. destruct (loop_body_frame s st) as (st'' & F' & S).
    rewrite F in F'. injection F' as <-.
    destruct S as (_ & <- & <- & _).
    destruct (emit_same (match_sale s st).1 (match_sale s st).2)
      as (_ & -> & -> & _).
    split; [|now apply (match_sale_conserves s st Hs)].
    destruct (Deque.pop (buy_deque st)) as [[b buys]|] eqn:E.
    + destruct (too_late b s) eqn:T.
      * assert (U : uncovered st s) by now apply (uncovered_pop _ _ _ _ E).
        now rewrite (match_sale_uncovered _ _ U).
      * rewrite (match_sale_covered _ _ _ _ E T).
        apply DequeFacts.pop_Some in E. rewrite E in FB.
        apply Forall_app in FB as [FB Hb].
        pose proof (compare_units_spec b s) as C.
        destruct (compare_units b s); simpl; try exact FB.
        unfold Deque.append. apply Forall_app. split; [exact FB|].
        constructor; [|constructor]. unfold nonneg_units. simpl.
        unfold nonpos_units in Hs. rewrite (Qcabs_neg _ Hs) in C.
        apply Qclt_le_weak. apply Qclt_minus_iff in C.
        now replace (Units b + - - Units s)%Qc with (Units b + Units s)%Qc
          in C by ring.
    + now rewrite (match_sale_uncovered _ _ (uncovered_empty _ s E)).
Qed.


Lemma pop_fill {A} (rows : list A) :
  Deque.pop (fill rows) =
  match rows with [] => None | row :: rest => Some (row, fill rest) end.
Proof.
  destruct rows as [|row rest]; [reflexivity|].
  apply DequeFacts.pop_Some. now rewrite !fill_rev.
Qed.

Lemma peek_fill {A} (rows : list A) : Deque.peek (fill rows) = head rows.
Proof. unfold Deque.peek. rewrite pop_fill. now destruct rows. Qed.

Lemma fill_nil {A} (rows : list A) : fill rows = [] <-> rows = [].
Proof.
  rewrite fill_rev. split; [|now intros ->].
  intros H. apply (f_equal (@rev A)) in H. now rewrite rev_involutive in H.
Qed.

Lemma first_seen_head row rest :
  exists l, first_seen (row :: rest) = Asset row :: l.
Proof.
  induction rest as [|x rest IH] using rev_ind.
  - exists []. reflexivity.
  - destruct IH as (l & IH). rewrite app_comm_cons, first_seen_snoc, IH.
    case_decide; [eauto|]. exists (l ++ [Asset x]). reflexivity.
Qed.

Lemma build_queues_accepted now transactions am :
  Forall (accepted now) transactions ->
  exists am', build_queues now transactions am = inr am'.
Proof.
  intros F. revert am. induction F as [|row rest A F IH]; intros am; simpl.
  - eauto.
  - rewrite (insert_row_accepted _ _ _ A). apply IH.
Qed.

(** The queues the first asset of an accepted log is processed with. *)
Lemma build_queues_first_asset now row rest :
  Forall (accepted now) (row :: rest) ->
  exists am,
    build_queues now (row :: rest) [] =
    inr ((Asset row,
          (fill (purchases_of (Asset row) (row :: rest)),
           fill (sales_of (Asset row) (row :: rest)))) :: am).
Proof.
  intros F. destruct (build_queues_accepted now _ [] F) as (am & B).
  assert (H0 : holds [] []).
  { split; [reflexivity|]. intros a. cbn [first_seen foldl am_lookup].
    destruct (decide (a ∈ [])) as [H|H]; [now apply elem_of_nil in H|reflexivity]. }
  destruct (holds_build_queues now [] _ [] am H0 B) as [K L].
  simpl app in K, L. destruct (first_seen_head row rest) as (l & Hl).
  rewrite Hl in K. destruct am as [|[a qs] am]; [discriminate|].
  rewrite fmap_cons in K. injection K as -> K.
  specialize (L (Asset row)). cbn [am_lookup] in L.
  rewrite decide_True in L by reflexivity.
  rewrite decide_True in L by (rewrite Hl; apply list_elem_of_here).
  injection L as ->. exists am. exact B.
Qed.

Lemma first_sale_raises_start a purchases sales :
  first_sale_raises (enter_asset a (fill purchases, fill sales) initial_globals)
  <->
  exists s,
    head sales = Some s /\
    (purchases = [] \/
     exists b, head purchases = Some b /\
               (Timestamp s + Timedelta_seconds 15 < Timestamp b)%Z).
Proof.
  unfold first_sale_raises, uncovered. simpl. rewrite pop_fill, peek_fill.
  split.
  - intros (_ & s & sells & E & U). exists s.
    destruct sales as [|s0 sales]; [discriminate|]. injection E as -> _.
    split; [reflexivity|]. now rewrite fill_nil in U.
  - intros (s & E & U). split; [reflexivity|].
    destruct sales as [|s0 sales]; [discriminate|]. injection E as ->.
    exists s, (fill sales). split; [reflexivity|]. now rewrite fill_nil.
Qed.

(** X12.  When the script stops on the [NameError]: an accepted log makes it
    raise exactly when the asset of its first row has a sale, and the
    earliest sale of that asset is uncovered, that is, the asset has no
    purchase or its earliest purchase is dated more than 15 seconds after
    that sale.  The sales of the other assets, uncovered or not, do not
    matter. *)
Theorem run_raises_iff_first_asset_starts_uncovered
    (now : Z) (row : Tx) (rest : list Tx) :
  Forall (accepted now) (row :: rest) ->
  (exists g, run now (row :: rest) = inr (Raised (NameError "buy_tx") g)) <->
  exists s,
    head (sales_of (Asset row) (row :: rest)) = Some s /\
    (purchases_of (Asset row) (row :: rest) = [] \/
     exists b,
       head (purchases_of (Asset row) (row :: rest)) = Some b /\
       (Timestamp s + Timedelta_seconds 15 < Timestamp b)%Z).
Proof.
  intros F. destruct (build_queues_first_asset now row rest F) as (am & B).
  rewrite <- first_sale_raises_start with (a := Asset row).
  unfold run. rewrite B. cbn [run_assets].
  set (P := purchases_of (Asset row) (row :: rest)) in *.
  set (S := sales_of (Asset row) (row :: rest)) in *.
  pose proof (run_asset_outcome (Asset row) (fill P) (fill S) initial_globals
                totals_bucket (lookup_singleton_eq _ _)) as O.
  assert (NE : fill P <> [] \/ fill S <> []).
  { apply Forall_inv in F. destruct F as (_ & _ & [[K _]|[K _]]).
    - left. rewrite fill_nil. unfold P, purchases_of.
      rewrite filter_cons, decide_True by now split. discriminate.
    - right. rewrite fill_nil. unfold S, sales_of.
      rewrite filter_cons, decide_True by now split. discriminate. }
  destruct (run_asset (Asset row) (fill P, fill S) initial_globals)
    as [g1|e g1|]; cbn [bind]; [| |contradiction].
  - destruct O as ([t1 T1] & B1 & N). split; [|contradiction].
    intros (g & R). destruct B1 as [b1 B1]; [now right|].
    pose proof (run_assets_outcome am g1 t1 T1) as O1.
    injection R as R. rewrite R in O1. destruct O1 as [_ O1]. congruence.
  - destruct O as (-> & R & _). split; [now intros _|eauto].
Qed.

(** ** Holding periods of covered sales *)

Lemma classify_spec sell_ts buy_ts g :
  let col := classify sell_ts buy_ts g in
  ((col = cLTCG \/ col = cLTCL) <->
   (Timedelta_days 365 <= sell_ts - buy_ts)%Z) /\
  ((col = cSTCL \/ col = cLTCL) <-> (g <= 0)%Qc).
Proof.
  unfold classify. rewrite <- long_term_true, <- Qcltb_false.
  destruct (long_term sell_ts buy_ts), (Qcltb 0 g); simpl;
    split; split; intros H; try reflexivity; try discriminate; auto;
    destruct H; discriminate.
Qed.

(** X14.  A covered sale is classified by the dates of its own lot: the gain
    of the lot goes to a long-term column exactly when the lot was sold 365
    days or more after it was purchased, and to a loss column exactly when
    it is not positive; a gain of zero counts as a loss. *)
Theorem covered_sale_classified_by_its_lot
    (s b : Tx) (buys : Deque.t Tx) (st st' : State) :
  Deque.pop (buy_deque st) = Some (b, buys) ->
  ~ uncovered st s ->
  loop_body s st = Done st' ->
  let m := (match_sale s st).1 in
  let col := classify (Date_Sold m) (Date_Purchased m) (Gain_Loss m) in
  exists t t',
    year_summary st !! "totals" = Some t /\
    year_summary st' !! "totals" = Some t' /\
    t' = add_to_bucket col (Gain_Loss m) t /\
    ((col = cLTCG \/ col = cLTCL) <->
     (Timedelta_days 365 <= Date_Sold m - Date_Purchased m)%Z) /\
    ((col = cSTCL \/ col = cLTCL) <-> (Gain_Loss m <= 0)%Qc).
Proof.
  intros E NU L m col.
  assert (T : too_late b s = false).
  { destruct (too_late b s) eqn:T; [|reflexivity].
    destruct NU. now apply (uncovered_pop _ _ _ _ E). }
  destruct (loop_body_done_summaries _ _ _ L) as (_ & b0 & t & B0 & _ & Ht & Y).
  pose proof (match_sale_buy_tx s st) as B. rewrite E, T in B.
  destruct B as (b' & B' & Tb). rewrite B0 in B'. injection B' as <-.
  assert (D : Date_Sold m = Timestamp s /\ Date_Purchased m = Timestamp b).
  { unfold m. rewrite (match_sale_covered _ _ _ _ E T).
    now destruct (compare_units b s). }
  destruct D as [DS DP]. unfold col. rewrite DS, DP, <- Tb.
  exists t, (add_to_bucket
               (classify (Timestamp s) (Timestamp b0) (Gain_Loss m))
               (Gain_Loss m) t).
  split; [exact Ht|]. split; [rewrite Y; apply lookup_insert_eq|].
  split; [reflexivity|]. apply classify_spec.
Qed.

(** ** Assets without sales *)

(** X15.  An asset with no sale is carried over whole: its data frame holds
    a carryover row for each purchase above the dust threshold, earliest
    first, and a volume summary with nothing but the remainder of all its
    purchases; [margin] and [year_summary] are left as they are, and
    [buy_tx] ends up naming the latest purchase of the asset. *)
Theorem asset_without_sales_is_carried_over
    (a : string) (buys : Deque.t Tx) (g : Globals) :
  run_asset a (buys, []) g =
  Done (mkGlobals
          (<[a := (CarryoverRow <$>
                     (carryover_row a <$>
                        filter (fun b => Qcltb dust (Units b) = true)
                          (rev buys))) ++
                  [VolumeRow
                     (mkVolume 0 0 0 (sum_units buys) (sum_amount buys))]]>
             (fifo g))
          (g_margin g) (g_year_summary g)
          (match buys with [] => g_buy_tx g | b :: _ => Some b end)).
Proof.
  unfold run_asset. set (st0 := enter_asset a (buys, []) g).
  assert (L : fifo_loop (S (queued st0)) st0 = Done st0) by reflexivity.
  rewrite L. cbn [bind].
  destruct (carryover_loop_terminates (S (queued st0)) st0) as (st2 & C);
    [unfold queued; lia|].
  rewrite C. cbn [bind].
  destruct (carryover_loop_shared _ _ _ C) as (Y & M & A).
  apply carryover_loop_effect in C as (_ & V & T & B).
  unfold leave_asset, append_volume_row. simpl.
  rewrite A, T, V, M, Y, B. simpl.
  now rewrite !Qcplus_0_l.
Qed.

(** ** The margin table *)

Lemma loop_body_margin s st st' :
  final (loop_body s st) = Some st' ->
  asset st' = asset st /\
  length (sell_deque st') <= S (length (sell_deque st)) /\
  (margin st' = margin st \/
   (margin st' = margin st ++ [margin_lot (asset st) s] /\
    sell_deque st' = sell_deque st)).
Proof.
  intros F. destruct (loop_body_frame s st) as (st'' & F' & S).
  rewrite F in F'. injection F' as <-.
  destruct S as (A & _ & L & _ & M & _).
  destruct (emit_same (match_sale s st).1 (match_sale s st).2)
    as (A' & _ & L' & M' & _).
  destruct (match_sale_summaries s st) as (_ & _ & A'' & _).
  rewrite <- A, <- L, <- M, A', L', M', A''. split; [reflexivity|].
  destruct (Deque.pop (buy_deque st)) as [[b buys]|] eqn:E.
  - destruct (too_late b s) eqn:T.
    + assert (U : uncovered st s) by now apply (uncovered_pop _ _ _ _ E).
      rewrite (match_sale_uncovered _ _ U). simpl. split; [lia|]. right. now split.
    + rewrite (match_sale_covered _ _ _ _ E T).
      destruct (compare_units b s); simpl;
        rewrite ?DequeFacts.length_append; split; try lia; now left.
  - rewrite (match_sale_uncovered _ _ (uncovered_empty _ s E)). simpl.
    split; [lia|]. right. now split.
Qed.

Lemma margin_lot_is_margin_row a s : margin_row (margin_lot a s).
Proof. repeat split. Qed.

Lemma fifo_loop_margin fuel st st' :
  final (fifo_loop fuel st) = Some st' ->
  asset st' = asset st /\
  exists new,
    margin st' = margin st ++ new /\
    Forall (fun m => margin_row m /\ lot_Asset m = asset st) new /\
    length new + length (sell_deque st') <= length (sell_deque st).
Proof.
  revert st. induction fuel as [|fuel IH]; intros st; [discriminate|]. simpl.
  destruct (Deque.pop (sell_deque st)) as [[s sells]|] eqn:E.
  - apply DequeFacts.pop_length in E.
    set (st0 := set_queues (buy_deque st) sells st).
    pose proof (loop_body_margin s st0) as B.
    destruct (loop_body s st0) as [st1|e st1|]; simpl; [| |discriminate].
    + destruct (B st1 eq_refl) as (A1 & L1 & M1). intros H.
      apply IH in H as (A' & new & M' & P' & C').
      rewrite A1 in P'. simpl in *.
      split; [congruence|].
      destruct M1 as [M1|[M1 S1]].
      * exists new. rewrite M', M1. repeat split; [exact P'|].
        (* a covered sale: at most the sale itself goes back *)
        lia.
      * exists (margin_lot (asset st) s :: new).
        rewrite M', M1, <- app_assoc. split; [reflexivity|].
        split; [constructor; [split; [apply margin_lot_is_margin_row|reflexivity]|exact P']|].
        simpl. rewrite S1 in C'. lia.
    + intros [= <-]. destruct (B st1 eq_refl) as (A1 & L1 & M1).
      split; [exact A1|]. simpl in *.
      destruct M1 as [M1|[M1 S1]].
      * exists []. rewrite app_nil_r. repeat split; [exact M1|constructor|].
        simpl. lia.
      * exists [margin_lot (asset st) s]. split; [exact M1|].
        split; [constructor; [split; [apply margin_lot_is_margin_row|reflexivity]|constructor]|].
        simpl. rewrite S1. lia.
  - intros [= <-]. split; [reflexivity|]. exists [].
    rewrite app_nil_r. repeat split; [constructor|simpl; lia].
Qed.

Lemma run_asset_margin a buys sells g g' :
  final (run_asset a (buys, sells) g) = Some g' ->
  exists new,
    g_margin g' = g_margin g ++ new /\
    Forall (fun m => margin_row m /\ lot_Asset m = a) new /\
    length new <= length sells.
Proof.
  unfold run_asset. set (st0 := enter_asset a (buys, sells) g).
  pose proof (fifo_loop_margin (S (queued st0)) st0) as L.
  destruct (fifo_loop (S (queued st0)) st0) as [st1|e st1|]; cbn [bind];
    [| |discriminate].
  - destruct (L st1 eq_refl) as (_ & new & M & P & C).
    destruct (carryover_loop_never_raises (S (queued st1)) st1)
      as [->|(st2 & E)]; [discriminate|].
    rewrite E. cbn [bind final]. intros [= <-]. simpl.
    apply carryover_loop_shared in E as (_ & -> & _).
    exists new. simpl in *. repeat split; [exact M|exact P|lia].
  - simpl. intros [= <-]. simpl.
    destruct (L st1 eq_refl) as (_ & new & M & P & C).
    exists new. simpl in *. repeat split; [exact M|exact P|lia].
Qed.

Lemma queued_sales_cons a buys sells am :
  queued_sales ((a, (buys, sells)) :: am) = length sells + queued_sales am.
Proof. reflexivity. Qed.

(** X16.  The margin table only grows, by margin rows: whatever a run over
    the assets leaves behind, completed or not, [margin] is what it was
    followed by rows that name one of the assets, have ["MARGIN"] as the
    purchase, no basis, the sale price as gain and the sale's own date as
    purchase date; there are no more new rows than there were sales
    queued. *)
Theorem margin_table_only_grows (am : asset_map) (g g' : Globals) :
  final (run_assets am g) = Some g' ->
  exists new,
    g_margin g' = g_margin g ++ new /\
    Forall (fun m => margin_row m /\ lot_Asset m ∈ am.*1) new /\
    length new <= queued_sales am.
Proof.
  revert g. induction am as [|[a [buys sells]] am IH]; intros g; simpl.
  - intros [= <-]. exists []. rewrite app_nil_r.
    split; [reflexivity|]. split; [constructor|]. unfold queued_sales. simpl. lia.
  - pose proof (run_asset_margin a buys sells g) as R.
    destruct (run_asset a (buys, sells) g) as [g1|e g1|]; simpl;
      [| |discriminate].
    + destruct (R g1 eq_refl) as (new1 & M1 & P1 & C1). intros H.
      apply IH in H as (new & M & P & C).
      exists (new1 ++ new). rewrite M, M1, <- app_assoc.
      split; [reflexivity|]. split.
      * apply Forall_app. split.
        -- eapply Forall_impl; [exact P1|]. intros m [? ->].
           split; [assumption|]. apply list_elem_of_here.
        -- eapply Forall_impl; [exact P|]. intros m [? ?].
           split; [assumption|]. now apply list_elem_of_further.
      * rewrite length_app, queued_sales_cons. lia.
    + intros [= <-]. destruct (R g1 eq_refl) as (new1 & M1 & P1 & C1).
      exists new1. split; [exact M1|]. split.
      * eapply Forall_impl; [exact P1|]. intros m [? ->].
        split; [assumption|]. apply list_elem_of_here.
      * rewrite queued_sales_cons. lia.
Qed.

(** ** Transactions of zero units *)

Lemma set_units_amount_same (t : Tx) u amt :
  u = Units t -> amt = Total_Amount t -> set_units_amount u amt t = t.
Proof. intros -> ->. now destruct t. Qed.

(** X17.  The matching loop books a transaction of zero units without
    showing it.  A purchase of zero units met by a sale of negative units is
    used up in a lot of zero units and zero proceeds, so that its whole
    amount is a loss, and the sale goes back as it was; a sale of zero units
    met by a purchase of positive units is used up in a lot of zero units
    and zero basis, so that its whole amount is a gain, and the purchase
    goes back as it was.  Neither lot is a row of the data frame. *)
Theorem zero_unit_transactions_are_booked_unseen
    (s b : Tx) (buys : Deque.t Tx) (st st' : State) :
  Deque.pop (buy_deque st) = Some (b, buys) ->
  ~ uncovered st s ->
  final (loop_body s st) = Some st' ->
  (Units b = 0%Qc -> (Units s < 0)%Qc ->
     Gain_Loss (match_sale s st).1 = (- Total_Amount b)%Qc /\
     Sale_Price (match_sale s st).1 = 0%Qc /\
     fifo_asset st' = fifo_asset st /\
     buy_deque st' = buys /\
     Deque.pop (sell_deque st') = Some (s, sell_deque st)) /\
  (Units s = 0%Qc -> (0 < Units b)%Qc ->
     Gain_Loss (match_sale s st).1 = Total_Amount s /\
     Basis (match_sale s st).1 = 0%Qc /\
     fifo_asset st' = fifo_asset st /\
     sell_deque st' = sell_deque st /\
     Deque.pop (buy_deque st') = Some (b, buys)).
Proof.
  intros E NU F.
  assert (T : too_late b s = false).
  { destruct (too_late b s) eqn:T; [|reflexivity].
    destruct NU. now apply (uncovered_pop _ _ _ _ E). }
  destruct (loop_body_frame s st) as (st'' & F' & S).
  rewrite F in F'. injection F' as <-.
  destruct S as (_ & <- & <- & <- & _).
  rewrite emit_fifo.
  destruct (emit_same (match_sale s st).1 (match_sale s st).2)
    as (_ & -> & -> & _).
  destruct (match_sale_summaries s st) as (_ & _ & _ & ->).
  rewrite (match_sale_covered _ _ _ _ E T). cbv zeta.
  assert (Z : not_dust 0 = false) by reflexivity.
  split.
  - intros Hb Hs.
    assert (H : (Units b < Qcabs (Units s))%Qc).
    { rewrite Hb, (Qcabs_neg _ (Qclt_le_weak _ _ Hs)).
      apply Qclt_minus_iff in Hs.
      now replace (- Units s)%Qc with (0 + - Units s)%Qc by ring. }
    rewrite (compare_units_larger_sale _ _ H). simpl. rewrite Hb, Z.
    assert (P : (0 / Qcabs (Units s) * Total_Amount s = 0)%Qc).
    { unfold Qcdiv. ring. }
    rewrite P. repeat split; [ring|].
    rewrite set_units_amount_same by ring. apply DequeFacts.pop_append.
  - intros Hs Hb.
    assert (H : (Qcabs (Units s) < Units b)%Qc) by now rewrite Hs.
    rewrite (compare_units_larger_purchase _ _ H). simpl. rewrite Hs.
    rewrite (Qcabs_pos 0 (Qcle_refl 0)), Z.
    assert (P : (0 / Units b * Total_Amount b = 0)%Qc).
    { unfold Qcdiv. ring. }
    rewrite P. repeat split; [ring|].
    rewrite set_units_amount_same by ring. apply DequeFacts.pop_append.
Qed.

(** ** The summary sheet *)

Lemma pretty_N_go_head x s :
  (0 < x)%N ->
  exists c rest,
    pretty_N_go x s = String c rest /\ Ascii.compare "T" c = Gt.
Proof.
  revert s. induction (N.lt_wf_0 x) as [x _ IH]; intros s Hx.
  rewrite pretty_N_go_step by exact Hx.
  destruct (decide (x `div` 10 = 0)%N) as [->|Hd].
  - rewrite pretty_N_go_0. eexists _, _. split; [reflexivity|].
    unfold pretty_N_char. repeat case_match; reflexivity.
  - apply IH; [apply N.div_lt; lia|now apply N.neq_0_lt_0].
Qed.

Lemma year_label_head ts :
  exists c rest, year_label ts = String c rest /\ Ascii.compare "T" c = Gt.
Proof.
  unfold year_label, pretty, pretty_Z.
  destruct (year ts) as [|p|p].
  - eexists _, _. split; reflexivity.
  - unfold pretty, pretty_positive, pretty, pretty_N.
    case_decide; [discriminate|]. apply pretty_N_go_head. lia.
  - eexists _, _. split; reflexivity.
Qed.

(** Every year sorts before ['Totals']. *)
Lemma Totals_not_before_year (t y : Bucket) ts :
  Year t = "Totals" -> Year y = year_label ts -> ~ year_le t y.
Proof.
  intros Ht Hy. unfold year_le. rewrite Ht, Hy.
  destruct (year_label_head ts) as (c & rest & -> & C).
  unfold String.leb. simpl. rewrite C. discriminate.
Qed.

#[local] Instance year_le_total : Total year_le.
Proof. intros b1 b2. apply String.leb_total. Qed.

(** A sorted list made of [t] and of rows that [t] does not precede ends
    with [t]. *)
Lemma sorted_ends_with (t : Bucket) (l sorted : list Bucket) :
  Forall (fun y => ~ year_le t y) l ->
  Sorting.Sorted.Sorted year_le sorted ->
  sorted ≡ₚ t :: l ->
  exists rows, sorted = rows ++ [t] /\ rows ≡ₚ l.
Proof.
  intros N S. revert l N. induction S as [|x L S IH H]; intros l N P.
  - apply Permutation_nil_l in P. discriminate.
  - destruct (decide (x = t)) as [->|Hx].
    + apply Permutation_cons_inv in P.
      destruct L as [|y L'].
      * apply Permutation_nil_l in P. subst l. exists []. now split.
      * apply Sorting.Sorted.HdRel_inv in H. rewrite Forall_forall in N.
        destruct (N y); [|exact H]. rewrite <- P. apply list_elem_of_here.
    + assert (Hin : x ∈ l).
      { assert (x ∈ t :: l) by (rewrite <- P; apply list_elem_of_here).
        apply elem_of_cons in H0 as [?|?]; [contradiction|assumption]. }
      apply elem_of_Permutation in Hin as (l' & Hl).
      rewrite Hl in P. rewrite (Permutation_swap x t l') in P.
      apply Permutation_cons_inv in P.
      destruct (IH l') as (rows & -> & R); [|exact P|].
      { rewrite Hl in N. now apply Forall_cons in N as [_ N]. }
      exists (x :: rows). split; [reflexivity|]. now rewrite Hl, R.
Qed.

Lemma labelled_insert ys k b :
  labelled ys ->
  (if decide (k = "totals") then Year b = "Totals"
   else exists ts, Year b = year_label ts) ->
  labelled (<[k := b]> ys).
Proof.
  intros L H k' b'. destruct (decide (k' = k)) as [->|Hne].
  - rewrite lookup_insert_eq. now intros [= <-].
  - rewrite lookup_insert_ne by done. apply L.
Qed.

Lemma item_update_labelled k f ys :
  (forall b, Year (f b) = Year b) ->
  labelled ys -> labelled (item_update k f ys).2.
Proof.
  intros Hf L. unfold item_update.
  destruct (ys !! k) as [b|] eqn:E; [|exact L]. simpl.
  apply labelled_insert; [exact L|]. rewrite Hf. now apply L.
Qed.

Lemma seq_labelled (s1 s2 : stmt) ys :
  (forall ys0, labelled ys0 -> labelled (s1 ys0).2) ->
  (forall ys0, labelled ys0 -> labelled (s2 ys0).2) ->
  labelled ys -> labelled ((s1 ;> s2) ys).2.
Proof.
  intros H1 H2 L. unfold seq. specialize (H1 ys L).
  destruct (s1 ys) as [[e|] ys1]; [exact H1|]. now apply H2.
Qed.

Lemma add_gain_labelled label col g ys :
  labelled ys -> labelled (add_gain label col g ys).2.
Proof.
  assert (C : forall k ys0, labelled ys0 ->
                labelled (item_update k (add_column col g) ys0).2).
  { intros k ys0. apply item_update_labelled. intros b. now destruct col. }
  assert (N : forall k ys0, labelled ys0 ->
                labelled (item_update k (add_net g) ys0).2).
  { intros k ys0. now apply item_update_labelled. }
  intros L. unfold add_gain.
  apply (seq_labelled
           (item_update label (add_column col g) ;>
            item_update "totals" (add_column col g) ;>
            item_update label (add_net g))
           (item_update "totals" (add_net g))); [|apply N|exact L].
  intros ys1 L1.
  apply (seq_labelled
           (item_update label (add_column col g) ;>
            item_update "totals" (add_column col g))
           (item_update label (add_net g))); [|apply N|exact L1].
  intros ys2 L2.
  apply (seq_labelled (item_update label (add_column col g))
           (item_update "totals" (add_column col g)));
    [apply C|apply C|exact L2].
Qed.

Lemma add_year_labelled ts ys :
  labelled ys -> labelled (add_year (year_label ts) ys).
Proof.
  intros L. unfold add_year. destruct (ys !! year_label ts); [exact L|].
  apply labelled_insert; [exact L|].
  rewrite decide_False by apply year_label_not_totals. now exists ts.
Qed.

Lemma loop_body_labelled s st st' :
  labelled (year_summary st) ->
  final (loop_body s st) = Some st' ->
  labelled (year_summary st').
Proof.
  intros L. unfold loop_body.
  destruct (match_sale_summaries s st) as (Y & _).
  destruct (match_sale s st) as [m st1]. simpl in Y.
  destruct (emit_same m st1) as (_ & _ & _ & _ & _ & Y' & _).
  unfold update_year_summary. rewrite Y', Y.
  pose proof (add_year_labelled (Timestamp s) _ L) as L1.
  destruct (buy_tx (emit m st1)) as [b|]; [|simpl; now intros [= <-]].
  pose proof (add_gain_labelled (year_label (Timestamp s))
                (classify (Timestamp s) (Timestamp b) (Gain_Loss m))
                (Gain_Loss m) _ L1) as L2.
  destruct (add_gain _ _ _ _) as [[e|] ys']; simpl; now intros [= <-].
Qed.

Lemma fifo_loop_labelled fuel st st' :
  labelled (year_summary st) ->
  final (fifo_loop fuel st) = Some st' ->
  labelled (year_summary st').
Proof.
  revert st. induction fuel as [|fuel IH]; intros st L; [discriminate|]. simpl.
  destruct (Deque.pop (sell_deque st)) as [[s sells]|]; [|now intros [= <-]].
  pose proof (loop_body_labelled s (set_queues (buy_deque st) sells st)) as B.
  destruct (loop_body s _) as [a|e a|]; simpl.
  - apply IH. now apply B.
  - intros [= <-]. now apply B.
  - discriminate.
Qed.

Lemma run_assets_labelled am g g' :
  labelled (g_year_summary g) ->
  final (run_assets am g) = Some g' ->
  labelled (g_year_summary g').
Proof.
  revert g. induction am as [|[a qs] am IH]; intros g L; simpl.
  - now intros [= <-].
  - assert (R : forall g1, final (run_asset a qs g) = Some g1 ->
                           labelled (g_year_summary g1)).
    { intros g1. unfold run_asset.
      pose proof (fifo_loop_labelled (S (queued (enter_asset a qs g)))
                    (enter_asset a qs g)) as F.
      destruct (fifo_loop _ _) as [st1|e st1|]; cbn [bind].
      - destruct (carryover_loop_never_raises (S (queued st1)) st1)
          as [->|(st2 & E)]; [discriminate|].
        rewrite E. cbn [bind final]. intros [= <-]. simpl.
        apply carryover_loop_shared in E as (-> & _). now apply F.
      - simpl. intros [= <-]. simpl. now apply F.
      - discriminate. }
    destruct (run_asset a qs g) as [g1|e g1|]; simpl.
    + apply IH. now apply R.
    + intros [= <-]. now apply R.
    + discriminate.
Qed.

Lemma initial_labelled : labelled (g_year_summary initial_globals).
Proof.
  intros k b. simpl. destruct (decide (k = "totals")) as [->|Hk].
  - rewrite lookup_singleton_eq. now intros [= <-].
  - now rewrite lookup_singleton_ne.
Qed.

(** X18.  The summary sheet of a completed run ends with the ['Totals']
    row: the rows are sorted by their label, the last one is the running
    total, and the rows before it are the buckets of the years, every one of
    which sorts before ['Totals']. *)
Theorem summary_ends_with_Totals
    (now : Z) (transactions : list Tx) (g : Globals) :
  run now transactions = inr (Done g) ->
  exists rows t,
    summary (g_year_summary g) = rows ++ [t] /\
    g_year_summary g !! "totals" = Some t /\
    Year t = "Totals" /\
    rows ≡ₚ (map_to_list (years (g_year_summary g))).*2 /\
    Forall (fun y => (exists ts, Year y = year_label ts) /\ ~ year_le t y) rows /\
    Sorting.Sorted.Sorted year_le (summary (g_year_summary g)).
Proof.
  intros R. unfold run in R.
  destruct (build_queues now transactions []) as [msg|am]; [discriminate|].
  injection R as R.
  assert (F : final (run_assets am initial_globals) = Some g) by now rewrite R.
  pose proof (run_assets_consistent _ _ _ initial_consistent F) as [_ (t & Ht & _)].
  pose proof (run_assets_labelled _ _ _ initial_labelled F) as L.
  set (ys := g_year_summary g) in *.
  pose proof (L _ _ Ht) as Yt. simpl in Yt.
  assert (Y : Forall (fun y => (exists ts, Year y = year_label ts) /\
                               ~ year_le t y)
                ((map_to_list (years ys)).*2)).
  { apply Forall_forall. intros y Hy.
    apply list_elem_of_fmap in Hy as ([k y'] & -> & Hy).
    apply elem_of_map_to_list in Hy. unfold years in Hy.
    apply lookup_delete_Some in Hy as [Hk Hy]. apply L in Hy.
    rewrite decide_False in Hy by congruence. destruct Hy as (ts & Hy).
    split; [eauto|]. now apply (Totals_not_before_year t y' ts). }
  pose proof (sorting.Sorted_merge_sort year_le ((map_to_list ys).*2)) as S.
  destruct (sorted_ends_with t ((map_to_list (years ys)).*2)
              (summary ys)) as (rows & E & P).
  - eapply Forall_impl; [exact Y|]. now intros y [_ ?].
  - exact S.
  - unfold summary. rewrite sorting.merge_sort_Permutation.
    rewrite <- (map_to_list_delete ys "totals" t Ht). reflexivity.
  - exists rows, t. split; [exact E|]. split; [exact Ht|].
    split; [exact Yt|]. split; [exact P|]. split; [now rewrite P|exact S].
Qed.

(** ** The years of the summary *)

Lemma sale_years_snoc d s :
  sale_years (d ++ [s]) = sale_years d ∪ {[year_label (Timestamp s)]}.
Proof.
  unfold sale_years. rewrite fmap_app, list_to_set_app_L. simpl. set_solver.
Qed.

Lemma add_year_dom label ys : dom (add_year label ys) = dom ys ∪ {[label]}.
Proof.
  unfold add_year. destruct (ys !! label) eqn:E.
  - assert (label ∈ dom ys) by (apply elem_of_dom; eauto). set_solver.
  - rewrite dom_insert_L. set_solver.
Qed.

Lemma loop_body_done_dom s st st' :
  loop_body s st = Done st' ->
  dom (year_summary st') = dom (year_summary st) ∪ {[year_label (Timestamp s)]}.
Proof.
  intros L.
  destruct (loop_body_done_summaries _ _ _ L) as (_ & b & t & _ & _ & Ht & ->).
  rewrite !dom_insert_L, add_year_dom.
  assert ("totals" ∈ dom (year_summary st)) by (apply elem_of_dom; eauto).
  set_solver.
Qed.

Lemma match_sale_sale_years s st :
  sale_years (sell_deque (match_sale s st).2) ⊆
    sale_years (sell_deque st) ∪ {[year_label (Timestamp s)]} /\
  sale_years (sell_deque st) ⊆ sale_years (sell_deque (match_sale s st).2).
Proof.
  destruct (Deque.pop (buy_deque st)) as [[b buys]|] eqn:E.
  - destruct (too_late b s) eqn:T.
    + assert (U : uncovered st s) by now apply (uncovered_pop _ _ _ _ E).
      rewrite (match_sale_uncovered _ _ U). simpl. set_solver.
    + rewrite (match_sale_covered _ _ _ _ E T).
      destruct (compare_units b s); simpl; [|set_solver..].
      unfold Deque.append. rewrite sale_years_snoc. simpl. set_solver.
  - rewrite (match_sale_uncovered _ _ (uncovered_empty _ s E)). simpl.
    set_solver.
Qed.

Lemma fifo_loop_done_dom fuel st st' :
  fifo_loop fuel st = Done st' ->
  dom (year_summary st') = dom (year_summary st) ∪ sale_years (sell_deque st).
Proof.
  revert st. induction fuel as [|fuel IH]; intros st; [discriminate|]. simpl.
  destruct (Deque.pop (sell_deque st)) as [[s sells]|] eqn:E.
  - apply DequeFacts.pop_Some in E. rewrite E, sale_years_snoc.
    set (st0 := set_queues (buy_deque st) sells st).
    destruct (loop_body s st0) as [st1| |] eqn:L; simpl; try discriminate.
    intros H. apply IH in H. rewrite H, (loop_body_done_dom _ _ _ L).
    destruct (loop_body_done_tables _ _ _ L) as ((_ & _ & L1 & _) & _).
    destruct (emit_same (match_sale s st0).1 (match_sale s st0).2)
      as (_ & _ & L2 & _).
    destruct (match_sale_sale_years s st0) as (S1 & S2).
    rewrite <- L1, L2. simpl in *. set_solver.
  - intros [= <-]. apply DequeFacts.pop_None in E. rewrite E.
    unfold sale_years. simpl. set_solver.
Qed.

Lemma run_assets_done_dom am g g' :
  run_assets am g = Done g' ->
  dom (g_year_summary g') = dom (g_year_summary g) ∪ all_sale_years am.
Proof.
  revert g. induction am as [|[a [buys sells]] am IH]; intros g; simpl.
  - intros [= <-]. set_solver.
  - unfold run_asset at 1.
    set (st0 := enter_asset a (buys, sells) g).
    destruct (fifo_loop (S (queued st0)) st0) as [st1| |] eqn:L;
      cbn [bind]; try discriminate.
    destruct (carryover_loop (S (queued st1)) st1) as [st2| |] eqn:C;
      cbn [bind]; try discriminate.
    intros H. apply IH in H. rewrite H. simpl.
    apply carryover_loop_shared in C as (-> & _).
    apply fifo_loop_done_dom in L. rewrite L. simpl. set_solver.
Qed.

Lemma am_lookup_Some_elem a qs am : am_lookup a am = Some qs -> (a, qs) ∈ am.
Proof.
  induction am as [|[a' qs'] am IH]; simpl; [discriminate|].
  destruct (decide (a' = a)) as [->|Hne].
  - intros [= ->]. apply list_elem_of_here.
  - intros H. apply list_elem_of_further. now apply IH.
Qed.

Lemma am_elem_lookup a qs am :
  NoDup am.*1 -> (a, qs) ∈ am -> am_lookup a am = Some qs.
Proof.
  induction am as [|[a' qs'] am IH]; intros N H.
  - now apply elem_of_nil in H.
  - rewrite fmap_cons in N. apply NoDup_cons in N as [N1 N2]. simpl.
    apply elem_of_cons in H as [[= -> ->]|H].
    + now rewrite decide_True.
    + destruct (decide (a' = a)) as [->|Hne]; [|now apply IH].
      destruct N1. simpl. apply list_elem_of_fmap. exists (a, qs). now split.
Qed.

Lemma elem_of_all_sale_years x am :
  x ∈ all_sale_years am <->
  exists a qs s, (a, qs) ∈ am /\ s ∈ qs.2 /\ x = year_label (Timestamp s).
Proof.
  induction am as [|[a qs] am IH]; simpl.
  - split; [intros H; now apply elem_of_empty in H|].
    intros (a & qs & s & H & _). now apply elem_of_nil in H.
  - rewrite elem_of_union, IH. unfold sale_years.
    rewrite elem_of_list_to_set, list_elem_of_fmap. split.
    + intros [(s & -> & Hs)|(a' & qs' & s & H & Hs & ->)].
      * exists a, qs, s. split; [apply list_elem_of_here|now split].
      * exists a', qs', s. split; [now apply list_elem_of_further|now split].
    + intros (a' & qs' & s & H & Hs & ->).
      apply elem_of_cons in H as [[= -> ->]|H]; [left; eauto|].
      right. exists a', qs', s. now split.
Qed.

Lemma elem_of_fill {A} (x : A) rows : x ∈ fill rows <-> x ∈ rows.
Proof. rewrite fill_rev, !list_elem_of_In. symmetry. apply in_rev. Qed.

(** X19.  The summary of a completed run has a row for the running total
    and one for each calendar year in which a sale of the log is dated, and
    no other row: a year in which there were only purchases has none. *)
Theorem summary_has_the_years_of_the_sales
    (now : Z) (transactions : list Tx) (g : Globals) :
  run now transactions = inr (Done g) ->
  dom (g_year_summary g) =
  {["totals"]} ∪
  sale_years (filter (fun row => Type_ row = "Sell") transactions).
Proof.
  unfold run.
  destruct (build_queues now transactions []) as [msg|am] eqn:B;
    [discriminate|].
  intros [= R]. apply run_assets_done_dom in R. rewrite R. simpl.
  rewrite dom_singleton_L. f_equal.
  assert (H0 : holds [] []).
  { split; [reflexivity|]. intros a. cbn [first_seen foldl am_lookup].
    destruct (decide (a ∈ [])) as [H|H]; [now apply elem_of_nil in H|reflexivity]. }
  destruct (holds_build_queues now [] _ [] am H0 B) as [K L].
  simpl app in K, L.
  assert (N : NoDup am.*1) by (rewrite K; apply first_seen_NoDup).
  apply set_eq. intros x. rewrite elem_of_all_sale_years.
  unfold sale_years. rewrite elem_of_list_to_set, list_elem_of_fmap. split.
  - intros (a & qs & s & H & Hs & ->).
    apply (am_elem_lookup _ _ _ N) in H. rewrite L in H.
    destruct (decide (a ∈ first_seen transactions)); [|discriminate].
    injection H as <-. simpl in Hs. rewrite elem_of_fill in Hs.
    unfold sales_of in Hs. apply list_elem_of_filter in Hs as [[_ T] Hs].
    exists s. split; [reflexivity|]. now apply list_elem_of_filter.
  - intros (s & -> & Hs). apply list_elem_of_filter in Hs as [T Hs].
    assert (A : Asset s ∈ first_seen transactions).
    { apply first_seen_elem_of, list_elem_of_fmap. eauto. }
    pose proof (L (Asset s)) as La. rewrite decide_True in La by exact A.
    apply am_lookup_Some_elem in La.
    eexists _, _, s. split; [exact La|]. split; [|reflexivity]. simpl.
    rewrite elem_of_fill. unfold sales_of.
    apply list_elem_of_filter. auto.
Qed.

(** ** The order of the queues *)

#[local] Instance row_le_total : Total row_le.
Proof.
  intros r1 r2. unfold row_le, row_leb.
  destruct (Z.ltb_spec (Timestamp r1) (Timestamp r2)) as [H|H]; [now left|].
  destruct (Z.ltb_spec (Timestamp r2) (Timestamp r1)) as [H'|H']; [now right|].
  assert (E : Timestamp r1 = Timestamp r2) by lia.
  rewrite E, Z.eqb_refl. simpl.
  apply String.leb_total.
Qed.

Lemma row_le_not_later r1 r2 : row_le r1 r2 -> not_later r1 r2.
Proof.
  unfold row_le, row_leb, not_later. intros H.
  apply orb_true_iff in H as [H|H].
  - apply Z.ltb_lt in H. lia.
  - apply andb_true_iff in H as [H _]. apply Z.eqb_eq in H. lia.
Qed.

Lemma Sorted_not_later l :
  Sorting.Sorted.Sorted row_le l ->
  Sorting.Sorted.StronglySorted not_later l.
Proof.
  induction 1 as [|x l S IH H]; constructor; [exact IH|].
  destruct H as [|y l' H]; [constructor|].
  apply row_le_not_later in H.
  inversion IH as [|? ? _ F]; subst. constructor; [exact H|].
  eapply Forall_impl; [exact F|]. unfold not_later in *. intros z ?. lia.
Qed.

Lemma StronglySorted_filter {A} (R : relation A) (P : A -> Prop)
    `{!forall x, Decision (P x)} (l : list A) :
  Sorting.Sorted.StronglySorted R l ->
  Sorting.Sorted.StronglySorted R (filter P l).
Proof.
  induction 1 as [|x l S IH F]; [constructor|].
  rewrite filter_cons. destruct (decide (P x)); [|exact IH].
  constructor; [exact IH|].
  apply Forall_forall. intros y Hy. apply list_elem_of_filter in Hy as [_ Hy].
  rewrite Forall_forall in F. now apply F.
Qed.

Lemma drain_fill {A} (rows : list A) :
  drain (length (fill rows)) (fill rows) = rows.
Proof.
  rewrite drain_rev by reflexivity. rewrite fill_rev. apply rev_involutive.
Qed.

(** X20.  The queues are popped in the order of time.  The log is sorted
    before the queues are filled, so when validation accepts it, popping a
    queue of an asset to the end returns the purchases, or the sales, that
    the log has of that asset, whatever the order in which the log lists
    them, each dated no later than those popped after it. *)
Theorem queues_pop_in_time_order
    (now : Z) (rows : list Tx) (am : asset_map) (a : string)
    (buys sells : Deque.t Tx) :
  build_queues now (sort_values rows) [] = inr am ->
  am_lookup a am = Some (buys, sells) ->
  drain (length buys) buys ≡ₚ purchases_of a rows /\
  drain (length sells) sells ≡ₚ sales_of a rows /\
  Sorting.Sorted.StronglySorted not_later (drain (length buys) buys) /\
  Sorting.Sorted.StronglySorted not_later (drain (length sells) sells).
Proof.
  intros B L.
  assert (H0 : holds [] []).
  { split; [reflexivity|]. intros a'. cbn [first_seen foldl am_lookup].
    destruct (decide (a' ∈ [])) as [H|H]; [now apply elem_of_nil in H|reflexivity]. }
  destruct (holds_build_queues now [] (sort_values rows) [] am H0 B) as [_ K].
  simpl in K. rewrite K in L.
  destruct (decide (a ∈ first_seen (sort_values rows))); [|discriminate].
  injection L as <- <-. rewrite !drain_fill.
  pose proof (Sorted_not_later _ (sorting.Sorted_merge_sort row_le rows)) as S.
  fold (sort_values rows) in S.
  assert (P : sort_values rows ≡ₚ rows)
    by apply sorting.merge_sort_Permutation.
  split; [unfold purchases_of; now rewrite P|].
  split; [unfold sales_of; now rewrite P|].
  split; now apply StronglySorted_filter.
Qed.

(** * The properties of the rest of the script on sample logs *)

Ltac accept :=
  unfold accepted;
  split; [vm_compute; reflexivity|];
  split; [vm_compute; discriminate|];
  first [left; split; [reflexivity|vm_compute; discriminate]
        |right; split; [reflexivity|vm_compute; discriminate]].

Lemma validation_stops_at_first_rejected_row_witness :
  Forall (accepted now) [b1] /\
  ~ accepted now s_wrong /\
  exists message,
    (forall am', insert_row now s_wrong am' = inl message) /\
    build_queues now ([b1] ++ s_wrong :: [s1]) [] = inl message /\
    run now ([b1] ++ s_wrong :: [s1]) = inl message.
Proof.
  assert (H1 : Forall (accepted now) [b1]).
  { constructor; [accept|constructor]. }
  assert (H2 : ~ accepted now s_wrong).
  { intros (_ & _ & [[K _]|[_ U]]); [discriminate K|].
    vm_compute in U. apply U. reflexivity. }
  split; [exact H1|]. split; [exact H2|].
  exact (validation_stops_at_first_rejected_row now [b1] [s1] s_wrong [] H1 H2).
Defined.

Lemma queues_hold_the_log_witness :
  build_queues now [b1; s1; s_eth] [] =
    inr [("BTC", ([b1], [s1])); ("ETH", ([], [s_eth]))] /\
  NoDup [("BTC", ([b1], [s1])); ("ETH", ([], [s_eth]))].*1 /\
  [("BTC", ([b1], [s1])); ("ETH", ([], [s_eth]))].*1 =
    first_seen [b1; s1; s_eth].
Proof.
  assert (H : build_queues now [b1; s1; s_eth] [] =
              inr [("BTC", ([b1], [s1])); ("ETH", ([], [s_eth]))])
    by (vm_compute; reflexivity).
  split; [exact H|].
  destruct (queues_hold_the_log now _ _ H) as (N & K & _). now split.
Defined.

Lemma asset_table_shape_witness :
  run_asset "BTC" ([b_two], [s_one]) initial_globals =
    Done (done initial_globals
            (run_asset "BTC" ([b_two], [s_one]) initial_globals)) /\
  exists st1 v,
    fifo_loop (S (queued (enter_asset "BTC" ([b_two], [s_one]) initial_globals)))
      (enter_asset "BTC" ([b_two], [s_one]) initial_globals) = Done st1 /\
    sell_deque st1 = [] /\
    v_Remainder_Units v = sum_units (buy_deque st1) /\
    v_Remainder_Basis v = sum_amount (buy_deque st1).
Proof.
  assert (H : run_asset "BTC" ([b_two], [s_one]) initial_globals =
              Done (done initial_globals
                      (run_asset "BTC" ([b_two], [s_one]) initial_globals)))
    by (vm_compute; reflexivity).
  split; [exact H|].
  destruct (asset_table_shape _ _ _ _ _ H)
    as (st1 & lots & v & L & S & _ & _ & U & B).
  exists st1, v. repeat split; assumption.
Defined.




Lemma run_raises_iff_first_asset_starts_uncovered_witness :
  Forall (accepted now) [s_alone; b_next] /\
  exists g, run now [s_alone; b_next] = inr (Raised (NameError "buy_tx") g).
Proof.
  assert (H : Forall (accepted now) [s_alone; b_next]).
  { constructor; [accept|]. constructor; [accept|constructor]. }
  split; [exact H|].
  apply (proj2 (run_raises_iff_first_asset_starts_uncovered now s_alone [b_next] H)).
  exists s_alone. split; [reflexivity|].
  right. exists b_next. split; [reflexivity|]. vm_compute. reflexivity.
Defined.

Lemma covered_sale_classified_by_its_lot_witness :
  Deque.pop (buy_deque (start "BTC" [b_two] [])) = Some (b_two, []) /\
  ~ uncovered (start "BTC" [b_two] []) s_one /\
  loop_body s_one (start "BTC" [b_two] []) =
    Done (done (start "BTC" [] []) (loop_body s_one (start "BTC" [b_two] []))) /\
  exists t t',
    year_summary (start "BTC" [b_two] []) !! "totals" = Some t /\
    year_summary
      (done (start "BTC" [] []) (loop_body s_one (start "BTC" [b_two] [])))
      !! "totals" = Some t' /\
    t' = add_to_bucket
           (classify (Date_Sold (match_sale s_one (start "BTC" [b_two] [])).1)
              (Date_Purchased (match_sale s_one (start "BTC" [b_two] [])).1)
              (Gain_Loss (match_sale s_one (start "BTC" [b_two] [])).1))
           (Gain_Loss (match_sale s_one (start "BTC" [b_two] [])).1) t.
Proof.
  assert (H1 : Deque.pop (buy_deque (start "BTC" [b_two] []))
               = Some (b_two, [])) by reflexivity.
  assert (H2 : ~ uncovered (start "BTC" [b_two] []) s_one).
  { rewrite <- uncoveredb_true. vm_compute. discriminate. }
  assert (H3 : loop_body s_one (start "BTC" [b_two] []) =
               Done (done (start "BTC" [] [])
                       (loop_body s_one (start "BTC" [b_two] []))))
    by (vm_compute; reflexivity).
  split; [exact H1|]. split; [exact H2|]. split; [exact H3|].
  destruct (covered_sale_classified_by_its_lot s_one b_two [] _ _ H1 H2 H3)
    as (t & t' & A & B & C & _).
  exists t, t'. split; [exact A|]. split; [exact B|exact C].
Defined.

Lemma margin_table_only_grows_witness :
  final (run_assets [("BTC", ([], [s_half]))] (globals_after b1)) =
    Some (done (globals_after b1)
            (run_assets [("BTC", ([], [s_half]))] (globals_after b1))) /\
  exists new,
    g_margin (done (globals_after b1)
                (run_assets [("BTC", ([], [s_half]))] (globals_after b1)))
    = g_margin (globals_after b1) ++ new /\
    Forall (fun m => margin_row m /\
                     lot_Asset m ∈ [("BTC", ([] : Deque.t Tx, [s_half]))].*1)
      new /\
    length new <= queued_sales [("BTC", ([], [s_half]))].
Proof.
  assert (H : final (run_assets [("BTC", ([], [s_half]))] (globals_after b1)) =
              Some (done (globals_after b1)
                      (run_assets [("BTC", ([], [s_half]))] (globals_after b1))))
    by (vm_compute; reflexivity).
  split; [exact H|].
  exact (margin_table_only_grows _ _ _ H).
Defined.

Lemma zero_unit_transactions_are_booked_unseen_witness :
  Deque.pop (buy_deque (start "BTC" [b_zero] [])) = Some (b_zero, []) /\
  ~ uncovered (start "BTC" [b_zero] []) s1 /\
  final (loop_body s1 (start "BTC" [b_zero] [])) =
    Some (done (start "BTC" [] []) (loop_body s1 (start "BTC" [b_zero] []))) /\
  Gain_Loss (match_sale s1 (start "BTC" [b_zero] [])).1 =
    Qcopp (Total_Amount b_zero) /\
  fifo_asset (done (start "BTC" [] []) (loop_body s1 (start "BTC" [b_zero] [])))
  = fifo_asset (start "BTC" [b_zero] []).
Proof.
  assert (H1 : Deque.pop (buy_deque (start "BTC" [b_zero] []))
               = Some (b_zero, [])) by reflexivity.
  assert (H2 : ~ uncovered (start "BTC" [b_zero] []) s1).
  { rewrite <- uncoveredb_true. vm_compute. discriminate. }
  assert (H3 : final (loop_body s1 (start "BTC" [b_zero] [])) =
               Some (done (start "BTC" [] [])
                       (loop_body s1 (start "BTC" [b_zero] []))))
    by (vm_compute; reflexivity).
  split; [exact H1|]. split; [exact H2|]. split; [exact H3|].
  destruct (proj1 (zero_unit_transactions_are_booked_unseen s1 b_zero [] _ _
                     H1 H2 H3)) as (G & _ & F & _).
  - reflexivity.
  - vm_compute. reflexivity.
  - split; [exact G|exact F].
Defined.

Lemma summary_ends_with_Totals_witness :
  run now [b1; s1; s_late] =
    inr (Done (done initial_globals (ran (run now [b1; s1; s_late])))) /\
  exists rows t,
    summary (g_year_summary
               (done initial_globals (ran (run now [b1; s1; s_late]))))
    = rows ++ [t] /\
    Year t = "Totals".
Proof.
  assert (H : run now [b1; s1; s_late] =
              inr (Done (done initial_globals (ran (run now [b1; s1; s_late])))))
    by (vm_compute; reflexivity).
  split; [exact H|].
  destruct (summary_ends_with_Totals now _ _ H) as (rows & t & E & _ & Y & _).
  exists rows, t. split; [exact E|exact Y].
Defined.

Lemma summary_has_the_years_of_the_sales_witness :
  run now [b1; s1; s_late] =
    inr (Done (done initial_globals (ran (run now [b1; s1; s_late])))) /\
  dom (g_year_summary (done initial_globals (ran (run now [b1; s1; s_late])))) =
  {["totals"]} ∪
  sale_years (filter (fun row => Type_ row = "Sell") [b1; s1; s_late]).
Proof.
  assert (H : run now [b1; s1; s_late] =
              inr (Done (done initial_globals (ran (run now [b1; s1; s_late])))))
    by (vm_compute; reflexivity).
  split; [exact H|].
  exact (summary_has_the_years_of_the_sales now _ _ H).
Defined.

Lemma queues_pop_in_time_order_witness :
  build_queues now (sort_values [s_late; s1; b1]) [] =
    inr [("BTC", ([b1], [s_late; s1]))] /\
  am_lookup "BTC" [("BTC", ([b1], [s_late; s1]))] = Some ([b1], [s_late; s1]) /\
  drain (length [s_late; s1]) [s_late; s1] ≡ₚ sales_of "BTC" [s_late; s1; b1] /\
  Sorting.Sorted.StronglySorted not_later (drain (length [s_late; s1]) [s_late; s1]).
Proof.
  assert (H1 : build_queues now (sort_values [s_late; s1; b1]) [] =
               inr [("BTC", ([b1], [s_late; s1]))])
    by (vm_compute; reflexivity).
  assert (H2 : am_lookup "BTC" [("BTC", ([b1], [s_late; s1]))]
               = Some ([b1], [s_late; s1])) by reflexivity.
  split; [exact H1|]. split; [exact H2|].
  destruct (queues_pop_in_time_order now _ _ _ _ _ H1 H2) as (_ & P & _ & S).
  split; [exact P|exact S].
Defined.

(** * The purchase a margin sale is classified against *)

Lemma match_sale_latest ts s st :
  latest_at ts st -> latest_at ts (match_sale s st).2.
Proof.
  unfold latest_at. intros H.
  destruct (Deque.pop (buy_deque st)) as [[b buys]|] eqn:E.
  - destruct (too_late b s) eqn:T.
    + assert (U : uncovered st s) by now apply (uncovered_pop _ _ _ _ E).
      now rewrite (match_sale_uncovered _ _ U).
    + rewrite (match_sale_covered _ _ _ _ E T).
      apply DequeFacts.pop_Some in E. rewrite E in H.
      destruct buys as [|h r]; simpl in H;
        destruct (compare_units b s); simpl; eauto.
  - now rewrite (match_sale_uncovered _ _ (uncovered_empty _ s E)).
Qed.

Lemma loop_body_latest ts s st st' :
  latest_at ts st -> loop_body s st = Done st' -> latest_at ts st'.
Proof.
  intros H L. apply (match_sale_latest ts s) in H.
  destruct (loop_body_done_tables _ _ _ L) as ((_ & B & _ & _ & _ & X) & _).
  destruct (emit_same (match_sale s st).1 (match_sale s st).2)
    as (_ & B' & _ & _ & X' & _).
  unfold latest_at in *. now rewrite <- B, <- X, B', X'.
Qed.

Lemma fifo_loop_latest ts fuel st st' :
  latest_at ts st -> fifo_loop fuel st = Done st' -> latest_at ts st'.
Proof.
  revert st. induction fuel as [|fuel IH]; intros st H; [discriminate|]. simpl.
  destruct (Deque.pop (sell_deque st)) as [[s sells]|]; [|now intros [= <-]].
  destruct (loop_body s _) as [st1| |] eqn:L; simpl; try discriminate.
  apply IH.
  assert (H0 : latest_at ts (set_queues (buy_deque st) sells st)) by exact H.
  exact (loop_body_latest ts _ _ _ H0 L).
Qed.

(** With no purchase queued, the matching loop pops none and leaves
    [buy_tx] as it is. *)
Lemma fifo_loop_no_purchase fuel st st' :
  buy_deque st = [] -> fifo_loop fuel st = Done st' ->
  buy_deque st' = [] /\ buy_tx st' = buy_tx st.
Proof.
  revert st. induction fuel as [|fuel IH]; intros st H; [discriminate|]. simpl.
  destruct (Deque.pop (sell_deque st)) as [[s sells]|]; [|now intros [= <-]].
  set (st0 := set_queues (buy_deque st) sells st).
  destruct (loop_body s st0) as [st1| |] eqn:L; simpl; try discriminate.
  intros F.
  assert (U : uncovered st0 s) by (left; exact H).
  destruct (loop_body_done_tables _ _ _ L) as ((_ & B & _ & _ & _ & X) & _).
  destruct (emit_same (match_sale s st0).1 (match_sale s st0).2)
    as (_ & B' & _ & _ & X' & _).
  rewrite (match_sale_uncovered _ _ U) in *. simpl in *.
  destruct (IH st1) as (Q & Y); [congruence|exact F|].
  split; [exact Q|congruence].
Qed.

(** C10.  Line 216 classifies a margin sale against whatever purchase
    [buy_tx] names, and that is always the purchase popped last: a covered
    match binds [buy_tx] to the purchase it pops, a margin sale leaves it as
    it is, and an asset processed to the end leaves it on the asset's latest
    purchase, reduced or not, whichever of the two loops popped it last; an
    asset with no purchase leaves it as it found it.  So the lot of a margin
    sale has the sale's date as its purchase date, but its amount goes to a
    long-term column of the running total exactly when the sale is dated
    365 days or more after the purchase popped last, which may belong to
    another asset, and to a loss column exactly when the amount is not
    positive; a positive amount 365 days or more after that purchase is a
    long-term gain. *)
Theorem margin_classified_against_last_purchase :
  (forall (s b : Tx) (st : State) (t : Bucket),
     uncovered st s ->
     buy_tx st = Some b ->
     year_summary st !! "totals" = Some t ->
     exists st' m col t',
       loop_body s st = Done st' /\
       margin st' = margin st ++ [m] /\
       Date_Purchased m = Timestamp s /\ Date_Sold m = Timestamp s /\
       buy_tx st' = Some b /\
       year_summary st' !! "totals" = Some t' /\
       t' = add_to_bucket col (Total_Amount s) t /\
       get_column col t' = (get_column col t + Total_Amount s)%Qc /\
       ((col = cLTCG \/ col = cLTCL) <->
        (Timedelta_days 365 <= Timestamp s - Timestamp b)%Z) /\
       ((col = cSTCL \/ col = cLTCL) <-> (Total_Amount s <= 0)%Qc) /\
       ((Timedelta_days 365 <= Timestamp s - Timestamp b)%Z ->
        (0 < Total_Amount s)%Qc ->
        LTCG t' = (LTCG t + Total_Amount s)%Qc)) /\
  (forall (s b : Tx) (buys : Deque.t Tx) (st st' : State),
     Deque.pop (buy_deque st) = Some (b, buys) ->
     ~ uncovered st s ->
     final (loop_body s st) = Some st' ->
     exists b', buy_tx st' = Some b' /\ Timestamp b' = Timestamp b) /\
  (forall (a : string) (buys sells : Deque.t Tx) (g g' : Globals),
     run_asset a (buys, sells) g = Done g' ->
     match buys with
     | [] => g_buy_tx g' = g_buy_tx g
     | b :: _ => exists b', g_buy_tx g' = Some b' /\ Timestamp b' = Timestamp b
     end).
Proof.
  split; [|split].
  - intros s b st t U B Ht. unfold loop_body.
    rewrite (match_sale_uncovered _ _ U).
    destruct (emit_same (margin_lot (asset st) s) (margin_state s st))
      as (_ & _ & _ & Hm & Hb & Hy & _).
    rewrite (update_year_summary_bound s (margin_lot (asset st) s)
               (emit (margin_lot (asset st) s) (margin_state s st)) b t);
      [|first [rewrite Hb; exact B|rewrite Hy; exact Ht]..].
    cbn [bind].
    set (col := classify (Timestamp s) (Timestamp b) (Total_Amount s)).
    eexists _, (margin_lot (asset st) s), col,
      (add_to_bucket col (Total_Amount s) t).
    split; [reflexivity|]. simpl. rewrite Hm, Hb, Hy. simpl. fold col.
    do 3 (split; [reflexivity|]). split; [exact B|].
    split; [apply lookup_insert_eq|]. split; [reflexivity|].
    split; [apply add_to_bucket_column|].
    destruct (classify_spec (Timestamp s) (Timestamp b) (Total_Amount s))
      as [C1 C2].
    fold col in C1, C2. split; [exact C1|]. split; [exact C2|].
    intros L G. unfold col. now rewrite (classify_long_term_gain _ _ _ L G).
  - intros s b buys st st' E NU F.
    assert (T : too_late b s = false).
    { destruct (too_late b s) eqn:T; [|reflexivity].
      destruct NU. now apply (uncovered_pop _ _ _ _ E). }
    destruct (loop_body_frame s st) as (st'' & F' & S).
    rewrite F in F'. injection F' as <-.
    destruct S as (_ & _ & _ & _ & _ & <-).
    destruct (emit_same (match_sale s st).1 (match_sale s st).2)
      as (_ & _ & _ & _ & -> & _).
    pose proof (match_sale_buy_tx s st) as B. now rewrite E, T in B.
  - intros a buys sells g g' R. unfold run_asset in R.
    set (st0 := enter_asset a (buys, sells) g) in *.
    destruct (fifo_loop (S (queued st0)) st0) as [st1| |] eqn:L;
      cbn [bind] in R; try discriminate.
    destruct (carryover_loop (S (queued st1)) st1) as [st2| |] eqn:C;
      cbn [bind] in R; try discriminate.
    injection R as <-. simpl.
    apply carryover_loop_effect in C as (_ & _ & _ & ->).
    destruct buys as [|b r].
    + assert (Q : buy_deque st0 = []) by reflexivity.
      destruct (fifo_loop_no_purchase _ _ _ Q L) as (-> & ->).
      reflexivity.
    + assert (H : latest_at (Timestamp b) st0) by reflexivity.
      apply (fifo_loop_latest _ _ _ _ H) in L. unfold latest_at in L.
      destruct (buy_deque st1) as [|h q]; [exact L|eauto].
Qed.

Lemma margin_classified_against_last_purchase_witness :
  uncovered (after b1 "ETH" [] []) s_eth /\
  buy_tx (after b1 "ETH" [] []) = Some b1 /\
  year_summary (after b1 "ETH" [] []) !! "totals" = Some totals_bucket /\
  (exists st' m t',
     loop_body s_eth (after b1 "ETH" [] []) = Done st' /\
     margin st' = margin (after b1 "ETH" [] []) ++ [m] /\
     Date_Purchased m = Timestamp s_eth /\ Date_Sold m = Timestamp s_eth /\
     year_summary st' !! "totals" = Some t' /\
     LTCG t' = (LTCG totals_bucket + Total_Amount s_eth)%Qc) /\
  run_asset "BTC" ([b1], []) initial_globals =
    Done (done initial_globals (run_asset "BTC" ([b1], []) initial_globals)) /\
  exists b',
    g_buy_tx (done initial_globals (run_asset "BTC" ([b1], []) initial_globals))
    = Some b' /\
    Timestamp b' = Timestamp b1.
Proof.
  destruct margin_classified_against_last_purchase as (P1 & _ & P3).
  assert (H1 : uncovered (after b1 "ETH" [] []) s_eth) by (left; reflexivity).
  assert (H2 : buy_tx (after b1 "ETH" [] []) = Some b1) by reflexivity.
  assert (H3 : year_summary (after b1 "ETH" [] []) !! "totals"
               = Some totals_bucket) by (vm_compute; reflexivity).
  assert (H4 : run_asset "BTC" ([b1], []) initial_globals =
               Done (done initial_globals
                       (run_asset "BTC" ([b1], []) initial_globals)))
    by (vm_compute; reflexivity).
  split; [exact H1|]. split; [exact H2|]. split; [exact H3|].
  split; [|split; [exact H4|exact (P3 _ _ _ _ _ H4)]].
  destruct (P1 s_eth b1 _ totals_bucket H1 H2 H3)
    as (st' & m & col & t' & L & M & P & S & _ & T & _ & _ & _ & _ & G).
  exists st', m, t'. repeat (split; [assumption|]).
  apply G; [vm_compute; discriminate|vm_compute; reflexivity].
Defined.

(** * Properties of the script in binary floating point *)

Module Float64Facts.
Import PrimFloat Float64.

(** ** What an iteration leaves alone *)

Lemma year_summary_falls_through_or_raises s m st :
  exists ys,
    update_year_summary s m st = Done (set_year_summary ys st) \/
    exists e, update_year_summary s m st = Raised e (set_year_summary ys st).
Proof.
  unfold update_year_summary. destruct (buy_tx st); [|eauto].
  destruct (add_gain _ _ _ _) as [[e|] ys]; eauto.
Qed.

(** Once line 203 is reached, an iteration leaves a state behind in which
    the queues, [margin] and [buy_tx] are those of [match_sale], and the data
    frame has the lot unless it is dust. *)
Lemma iteration_after_match s st m st1 :
  match_sale s st = (Some m, st1) ->
  exists st',
    final (loop_body s st) = Some st' /\
    asset st' = asset st1 /\
    buy_deque st' = buy_deque st1 /\ sell_deque st' = sell_deque st1 /\
    fifo_asset st' =
      (if not_dust (lot_Units m) then fifo_asset st1 ++ [LotRow m]
       else fifo_asset st1) /\
    margin st' = margin st1 /\ buy_tx st' = buy_tx st1.
Proof.
  intros M. unfold loop_body. rewrite M.
  destruct (year_summary_falls_through_or_raises s m (emit m st1))
    as (ys & [-> | (e & ->)]);
    simpl; eexists; (split; [reflexivity|]); unfold emit;
    destruct (not_dust (lot_Units m)); repeat split.
Qed.

(** ** Covered sales *)

Lemma covered_not_too_late st s b buys :
  Deque.pop (buy_deque st) = Some (b, buys) ->
  ~ uncovered st s -> too_late b s = false.
Proof.
  intros E NU. destruct (too_late b s) eqn:T; [|reflexivity].
  destruct NU. right. exists b. unfold Deque.peek. rewrite E.
  split; [reflexivity|]. now apply Z.ltb_lt.
Qed.

(** C4.  A covered sale is matched with the purchase [b] at the right end of
    the queue, and the floats of the lot and of the queues follow the
    comparison of [|s.units|] with [b.units].  When the sale is larger, the
    lot has the units and the amount of the purchase and the share
    [b.units / |s.units| * s.amount] of the proceeds, the purchase is gone
    and the sale is what the next [pop] of the sale queue returns, with
    [s.units + b.units] units and its amount less that share.  When the
    purchase is larger, the lot has [|s.units|] units, the amount of the
    sale and the share [|s.units| / b.units * b.amount] of the cost, the
    sale is gone and the purchase is what the next [pop] of the purchase
    queue returns, with [b.units + s.units] units and its amount less that
    share.  When neither is larger, the lot has the units and the amounts of
    both and neither is put back.  The divisions are Python's: the first two
    cases are those of a divisor that is not zero. *)
Theorem covered_match_by_magnitude
    (s b : Tx) (buys : Deque.t Tx) (st : State) :
  Deque.pop (buy_deque st) = Some (b, buys) ->
  ~ uncovered st s ->
  let su := abs (Units s) in
  ((Units b <? su)%float = true -> (su =? 0)%float = false ->
   exists m s' st',
     final (loop_body s st) = Some st' /\
     covered_lot m b s st st' /\
     lot_Units m = Units b /\
     Sale_Price m = (Units b / su * Total_Amount s)%float /\
     Basis m = Total_Amount b /\
     buy_deque st' = buys /\
     Deque.pop (sell_deque st') = Some (s', sell_deque st) /\
     Units s' = (Units s + Units b)%float /\
     Total_Amount s' = (Total_Amount s - Sale_Price m)%float /\
     reduced s' s) /\
  ((Units b <? su)%float = false -> (su <? Units b)%float = true ->
   (Units b =? 0)%float = false ->
   exists m b' st',
     final (loop_body s st) = Some st' /\
     covered_lot m b s st st' /\
     lot_Units m = su /\
     Sale_Price m = Total_Amount s /\
     Basis m = (su / Units b * Total_Amount b)%float /\
     sell_deque st' = sell_deque st /\
     Deque.pop (buy_deque st') = Some (b', buys) /\
     Units b' = (Units b + Units s)%float /\
     Total_Amount b' = (Total_Amount b - Basis m)%float /\
     reduced b' b) /\
  ((Units b <? su)%float = false -> (su <? Units b)%float = false ->
   exists m st',
     final (loop_body s st) = Some st' /\
     covered_lot m b s st st' /\
     lot_Units m = Units b /\
     Sale_Price m = Total_Amount s /\
     Basis m = Total_Amount b /\
     buy_deque st' = buys /\
     sell_deque st' = sell_deque st).
Proof.
  intros E NU su. pose proof (covered_not_too_late _ _ _ _ E NU) as T.
  split; [|split].
  - intros L Z.
    set (price := (Units b / su * Total_Amount s)%float).
    set (m := matched_lot (asset st) b s (Units b) price (Total_Amount b)).
    set (s' := set_units_amount (Units s + Units b)
                 (Total_Amount s - price) s).
    destruct (iteration_after_match s st m
                (mkState (asset st) buys (Deque.append s' (sell_deque st))
                   (fifo_asset st) (volume_summary st) (margin st)
                   (year_summary st) (Some b)))
      as (st' & F & _ & B & S & R & M & _).
    { unfold match_sale. rewrite E, T. fold su. now rewrite L, Z. }
    simpl in B, S, R, M. exists m, s', st'. split; [exact F|].
    split; [repeat split; first [exact R|exact M]|].
    rewrite B, S. do 4 (split; [reflexivity|]).
    split; [apply DequeFacts.pop_append|]. now repeat split.
  - intros L G Z.
    set (basis := (su / Units b * Total_Amount b)%float).
    set (m := matched_lot (asset st) b s su (Total_Amount s) basis).
    set (b' := set_units_amount (Units b + Units s)
                 (Total_Amount b - basis) b).
    destruct (iteration_after_match s st m
                (mkState (asset st) (Deque.append b' buys) (sell_deque st)
                   (fifo_asset st) (volume_summary st) (margin st)
                   (year_summary st) (Some b')))
      as (st' & F & _ & B & S & R & M & _).
    { unfold match_sale. rewrite E, T. fold su. now rewrite L, G, Z. }
    simpl in B, S, R, M. exists m, b', st'. split; [exact F|].
    split; [repeat split; first [exact R|exact M]|].
    rewrite B, S. do 4 (split; [reflexivity|]).
    split; [apply DequeFacts.pop_append|]. now repeat split.
  - intros L G.
    set (m := matched_lot (asset st) b s (Units b) (Total_Amount s)
                (Total_Amount b)).
    destruct (iteration_after_match s st m
                (mkState (asset st) buys (sell_deque st)
                   (fifo_asset st) (volume_summary st) (margin st)
                   (year_summary st) (Some b)))
      as (st' & F & _ & B & S & R & M & _).
    { unfold match_sale. rewrite E, T. fold su. now rewrite L, G. }
    simpl in B, S, R, M. exists m, st'. split; [exact F|].
    split; [repeat split; first [exact R|exact M]|].
    rewrite B, S. now repeat split.
Qed.

(** ** The year summary *)

Lemma add_gain_ok_fl label col g ys yb t :
  label ≠ "totals" ->
  ys !! label = Some yb ->
  ys !! "totals" = Some t ->
  add_gain label col g ys =
  (None, <["totals" := add_to_bucket col g t]>
           (<[label := add_to_bucket col g yb]> ys)).
Proof.
  intros Hne Hy Ht. unfold add_gain, seq, item_update, add_to_bucket.
  rewrite Hy. cbn iota. rewrite lookup_insert_ne, Ht by done. cbn iota.
  rewrite lookup_insert_ne, lookup_insert_eq by done. cbn iota.
  rewrite lookup_insert_ne, lookup_insert_eq by done. f_equal.
  apply map_eq. intros k.
  destruct (decide (k = "totals")) as [->|Hk].
  - now rewrite !lookup_insert_eq.
  - rewrite !(lookup_insert_ne _ "totals") by done.
    destruct (decide (k = label)) as [->|Hk'].
    + now rewrite !lookup_insert_eq.
    + now rewrite !lookup_insert_ne by done.
Qed.

Lemma add_gain_raises_fl label col g ys :
  ys !! "totals" = None -> (add_gain label col g ys).1 ≠ None.
Proof.
  intros Ht. unfold add_gain, seq, item_update.
  destruct (ys !! label) as [yb|] eqn:Hy; [|discriminate].
  destruct (decide (label = "totals")) as [->|Hne]; [congruence|].
  cbn iota. now rewrite lookup_insert_ne, Ht by done.
Qed.

Lemma add_year_lookup_fl label ys :
  exists yb,
    add_year label ys !! label = Some yb /\
    yb = default (new_bucket label) (ys !! label) /\
    forall k, k ≠ label -> add_year label ys !! k = ys !! k.
Proof.
  unfold add_year. destruct (ys !! label) as [yb|] eqn:E; simpl.
  - exists yb. now rewrite E.
  - exists (new_bucket label). rewrite lookup_insert_eq.
    repeat split. intros k Hk. now rewrite lookup_insert_ne.
Qed.

(** Lines 210-232 when they go through: the gain has gone to the bucket of
    the year and to the running total. *)
Lemma update_year_summary_done_fl s m st st' :
  update_year_summary s m st = Done st' ->
  let label := year_label (Timestamp s) in
  let yb := default (new_bucket label) (year_summary st !! label) in
  exists b t,
    buy_tx st = Some b /\
    year_summary st !! "totals" = Some t /\
    let col := classify (Timestamp s) (Timestamp b) (Gain_Loss m) in
    st' = set_year_summary
            (<["totals" := add_to_bucket col (Gain_Loss m) t]>
               (<[label := add_to_bucket col (Gain_Loss m) yb]>
                  (add_year label (year_summary st)))) st.
Proof.
  intros H label yb. unfold update_year_summary in H. fold label in H.
  destruct (buy_tx st) as [b|] eqn:Hb; [|discriminate].
  pose proof (year_label_not_totals (Timestamp s)) as Hne. fold label in Hne.
  destruct (add_year_lookup_fl label (year_summary st)) as (yb' & Hy & E & Hk).
  fold yb in E. subst yb'.
  destruct (year_summary st !! "totals") as [t|] eqn:Ht.
  - exists b, t. repeat split.
    rewrite (add_gain_ok_fl label _ _ _ yb t Hne Hy) in H;
      [now injection H as <-|].
    rewrite Hk by done. exact Ht.
  - specialize (Hk "totals" (not_eq_sym Hne)). rewrite Ht in Hk.
    apply (add_gain_raises_fl label
             (classify (Timestamp s) (Timestamp b) (Gain_Loss m))
             (Gain_Loss m)) in Hk.
    destruct (add_gain _ _ _ _) as [[e|] ys']; [discriminate|]. now destruct Hk.
Qed.

Lemma gained_add_to_bucket col g b : gained col g b (add_to_bucket col g b).
Proof. destruct col; repeat split. Qed.

(** [match_sale] leaves the summaries, the asset and the data frame as they
    are. *)
Lemma match_sale_summaries_fl s st :
  year_summary (match_sale s st).2 = year_summary st /\
  volume_summary (match_sale s st).2 = volume_summary st /\
  asset (match_sale s st).2 = asset st /\
  fifo_asset (match_sale s st).2 = fifo_asset st.
Proof.
  unfold match_sale.
  destruct (Deque.pop (buy_deque st)) as [[b buys]|]; [|now repeat split].
  destruct (too_late b s); [now repeat split|].
  repeat (case_match; simplify_eq/=); now repeat split.
Qed.

Lemma emit_same_fl m st :
  asset (emit m st) = asset st /\ buy_deque (emit m st) = buy_deque st /\
  sell_deque (emit m st) = sell_deque st /\ margin (emit m st) = margin st /\
  buy_tx (emit m st) = buy_tx st /\ year_summary (emit m st) = year_summary st /\
  volume_summary (emit m st) = volume_summary st.
Proof. unfold emit. now destruct (not_dust _). Qed.

(** An iteration that completes has built a lot, [m], and is [match_sale],
    [emit], the update of the year summary and that of the volume summary in
    a row. *)
Lemma loop_body_done_fl s st st' :
  loop_body s st = Done st' ->
  exists m st1 st2,
    match_sale s st = (Some m, st1) /\
    update_year_summary s m (emit m st1) = Done st2 /\
    st' = update_volume m st2.
Proof.
  unfold loop_body. destruct (match_sale s st) as [[m|] st1]; [|discriminate].
  destruct (update_year_summary s m (emit m st1)) as [st2| |] eqn:U;
    simpl; try discriminate.
  intros [= <-]. now exists m, st1, st2.
Qed.

(** C6, as the script has it.  An iteration of the matching loop that
    completes has added one amount [g], the gain of its lot, which it also
    adds to the gain of the volume summary, to one of the four classified
    columns and to the net column of the bucket of the sale's year, a bucket
    of zeros if the year is new, and to the same two columns of the running
    total; each is one floating-point addition, and no other column and no
    other bucket changes. *)
Theorem year_summary_grows_by_the_gain
    (s : Tx) (st st' : State) (t : Bucket) :
  year_summary st !! "totals" = Some t ->
  loop_body s st = Done st' ->
  let label := year_label (Timestamp s) in
  let y := default (mkBucket label 0 0 0 0 0) (year_summary st !! label) in
  exists m col g y' t',
    lot_of (s, st) = Some m /\ g = Gain_Loss m /\
    year_summary st' !! label = Some y' /\ gained col g y y' /\
    year_summary st' !! "totals" = Some t' /\ gained col g t t' /\
    (forall k, k ≠ label -> k ≠ "totals" ->
               year_summary st' !! k = year_summary st !! k) /\
    v_Gain_Loss (volume_summary st') =
      (v_Gain_Loss (volume_summary st) + g)%float.
Proof.
  intros Ht L label y.
  destruct (loop_body_done_fl _ _ _ L) as (m & st1 & st2 & M & U & ->).
  destruct (match_sale_summaries_fl s st) as (Y1 & V1 & _).
  rewrite M in Y1, V1. simpl in Y1, V1.
  destruct (emit_same_fl m st1) as (_ & _ & _ & _ & _ & Y2 & V2).
  destruct (update_year_summary_done_fl _ _ _ _ U) as (b & t0 & _ & Ht0 & ->).
  rewrite Y2, Y1 in *. rewrite Ht in Ht0. injection Ht0 as <-.
  fold label. fold y.
  set (col := classify (Timestamp s) (Timestamp b) (Gain_Loss m)).
  pose proof (year_label_not_totals (Timestamp s)) as Hne. fold label in Hne.
  exists m, col, (Gain_Loss m), (add_to_bucket col (Gain_Loss m) y),
    (add_to_bucket col (Gain_Loss m) t).
  split; [unfold lot_of; simpl; now rewrite M|]. split; [reflexivity|].
  simpl.
  split; [now rewrite lookup_insert_ne, lookup_insert_eq|].
  split; [apply gained_add_to_bucket|].
  split; [now rewrite lookup_insert_eq|].
  split; [apply gained_add_to_bucket|].
  split; [|now rewrite V2, V1].
  intros k Hk Hk'. rewrite !lookup_insert_ne by done.
  destruct (add_year_lookup_fl label (year_summary st)) as (_ & _ & _ & K).
  now apply K.
Qed.

(** ** Conservation of units *)

Lemma sum_values_snoc d x :
  sum_values (d ++ [x]) = (sum_values d + value (Units x))%Qc.
Proof.
  induction d as [|y d IH]; simpl; [ring|]. rewrite IH. ring.
Qed.

(** The purchase queue an iteration leaves is the one [match_sale] leaves. *)
Lemma loop_body_done_queue s st st' m st1 :
  loop_body s st = Done st' ->
  match_sale s st = (Some m, st1) ->
  buy_deque st' = buy_deque st1 /\ asset st' = asset st /\
  fifo_asset st' =
    (if not_dust (lot_Units m) then fifo_asset st ++ [LotRow m]
     else fifo_asset st).
Proof.
  intros L M.
  destruct (loop_body_done_fl _ _ _ L) as (m' & st1' & st2 & M' & U & ->).
  rewrite M in M'. injection M' as <- <-.
  destruct (update_year_summary_done_fl _ _ _ _ U) as (b & t & _ & _ & ->).
  destruct (match_sale_summaries_fl s st) as (_ & _ & A & T).
  rewrite M in A, T. simpl in A, T. simpl. unfold emit.
  destruct (not_dust (lot_Units m)); simpl; now rewrite ?A, ?T.
Qed.

(** The units of the purchase queue before an iteration are the units of
    its lot, if its sale is covered, those of the queue after it, and what
    line 191 has lost. *)
Lemma iteration_conserves s st st' m :
  loop_body s st = Done st' ->
  lot_of (s, st) = Some m ->
  sum_values (buy_deque st) =
    ((if covered (s, st) then value (lot_Units m) else 0) +
     sum_values (buy_deque st') + loss_of (s, st))%Qc.
Proof.
  intros L M. unfold lot_of in M. simpl in M.
  destruct (match_sale s st) as [m' st1] eqn:E. simpl in M. subst m'.
  destruct (loop_body_done_queue _ _ _ _ _ L E) as (-> & _).
  unfold covered, uncoveredb, loss_of, Deque.peek. simpl.
  unfold match_sale, too_late in E.
  destruct (Deque.pop (buy_deque st)) as [[b buys]|] eqn:P; simpl.
  - apply DequeFacts.pop_Some in P.
    destruct (Timestamp s + Timedelta_seconds 15 <? Timestamp b)%Z; simpl.
    + injection E as <- <-. simpl. ring.
    + rewrite P, sum_values_snoc.
      destruct (Units b <? abs (Units s))%float.
      * destruct (abs (Units s) =? 0)%float; [discriminate|].
        injection E as <- <-. simpl. ring.
      * destruct (abs (Units s) <? Units b)%float.
        -- destruct (Units b =? 0)%float; [discriminate|].
           injection E as <- <-. simpl. unfold Deque.append.
           rewrite sum_values_snoc. simpl. unfold reduction_loss. ring.
        -- injection E as <- <-. simpl. ring.
  - injection E as <- <-. simpl. ring.
Qed.

Lemma fifo_loop_conserves_fl fuel st st' :
  fifo_loop fuel st = Done st' ->
  sum_values (buy_deque st) =
    (matched_units (fifo_iterations fuel st) + sum_values (buy_deque st') +
     lost_units (fifo_iterations fuel st))%Qc /\
  fifo_asset st' =
    fifo_asset st ++
    (LotRow <$> filter (fun m => not_dust (lot_Units m) = true)
                  (lots (fifo_iterations fuel st))) /\
  asset st' = asset st /\ sell_deque st' = [].
Proof.
  revert st. induction fuel as [|fuel IH]; intros st; [discriminate|]. simpl.
  destruct (Deque.pop (sell_deque st)) as [[s sells]|] eqn:E.
  - set (st0 := set_queues (buy_deque st) sells st).
    destruct (loop_body s st0) as [st1| |] eqn:L; simpl; try discriminate.
    intros H. destruct (IH st1 H) as (C & T & A & S).
    destruct (loop_body_done_fl _ _ _ L) as (m & st2 & _ & M & _).
    assert (K : lot_of (s, st0) = Some m)
      by (unfold lot_of; simpl; now rewrite M).
    destruct (loop_body_done_queue _ _ _ _ _ L M) as (_ & A1 & T1).
    pose proof (iteration_conserves _ _ _ _ L K) as C1.
    unfold lots. simpl. rewrite K. fold (lots (fifo_iterations fuel st1)).
    simpl in C1. split; [rewrite C1, C; destruct (covered (s, st0)); ring|].
    split; [|split; [now rewrite A, A1|exact S]].
    rewrite T, T1. simpl. rewrite filter_cons.
    destruct (decide _) as [D|D].
    + rewrite D. now rewrite fmap_cons, <- app_assoc.
    + apply not_true_is_false in D. now rewrite D.
  - intros [= <-]. simpl. apply DequeFacts.pop_None in E.
    repeat split; [ring|now rewrite app_nil_r|exact E].
Qed.

Lemma carryover_loop_rows fuel st st' :
  carryover_loop fuel st = Done st' ->
  asset st' = asset st /\
  fifo_asset st' =
    fifo_asset st ++
    (CarryoverRow <$>
       (carryover_row (asset st) <$>
          filter (fun b => (dust <? Units b)%float = true)
            (rev (buy_deque st)))).
Proof.
  revert st. induction fuel as [|fuel IH]; intros st; [discriminate|]. simpl.
  destruct (Deque.pop (buy_deque st)) as [[b buys]|] eqn:E.
  - intros H. apply IH in H as (A & T). simpl in *.
    apply DequeFacts.pop_Some in E. rewrite E, rev_app_distr. simpl.
    split; [exact A|]. rewrite T, filter_cons. unfold carryover_row.
    destruct (dust <? Units b)%float eqn:D.
    + rewrite decide_True by reflexivity.
      now rewrite !fmap_cons, <- app_assoc.
    + now rewrite decide_False by discriminate.
  - intros [= <-]. apply DequeFacts.pop_None in E. rewrite E. simpl.
    now rewrite app_nil_r.
Qed.


(** ** The volume summary and the running total *)

(** What an iteration that completes adds to the volume summary and to the
    net column of the running total. *)
Lemma iteration_adds s st st' m :
  loop_body s st = Done st' ->
  lot_of (s, st) = Some m ->
  volume_summary st' =
    mkVolume (v_Gain_Loss (volume_summary st) + Gain_Loss m)
      (v_Sale_Price (volume_summary st) + Sale_Price m)
      (v_Basis (volume_summary st) + Basis m)
      (v_Remainder_Units (volume_summary st))
      (v_Remainder_Basis (volume_summary st)) /\
  exists t t',
    year_summary st !! "totals" = Some t /\
    year_summary st' !! "totals" = Some t' /\
    Net_CG t' = (Net_CG t + Gain_Loss m)%float.
Proof.
  intros L K. unfold lot_of in K. simpl in K.
  destruct (loop_body_done_fl _ _ _ L) as (m' & st1 & st2 & M & U & ->).
  rewrite M in K. injection K as ->.
  destruct (match_sale_summaries_fl s st) as (Y1 & V1 & _).
  rewrite M in Y1, V1. simpl in Y1, V1.
  destruct (emit_same_fl m st1) as (_ & _ & _ & _ & _ & Y2 & V2).
  destruct (update_year_summary_done_fl _ _ _ _ U) as (b & t & _ & Ht & ->).
  simpl. rewrite V2, V1. split; [reflexivity|].
  rewrite Y2, Y1 in Ht. exists t. eexists. split; [exact Ht|].
  split; [apply lookup_insert_eq|]. now destruct (classify _ _ _).
Qed.

(** Every lot carries the gain of line 203. *)
Lemma lot_of_gain it m :
  lot_of it = Some m -> Gain_Loss m = (Sale_Price m - Basis m)%float.
Proof.
  destruct it as [s st]. unfold lot_of, match_sale. simpl.
  destruct (Deque.pop (buy_deque st)) as [[b buys]|];
    [|now intros [= <-]].
  destruct (too_late b s); [now intros [= <-]|].
  repeat (case_match; simplify_eq/=); now intros [= <-].
Qed.

Lemma fifo_loop_adds fuel st st' :
  fifo_loop fuel st = Done st' ->
  let ms := lots (fifo_iterations fuel st) in
  v_Gain_Loss (volume_summary st') =
    added (v_Gain_Loss (volume_summary st)) (Gain_Loss <$> ms) /\
  v_Sale_Price (volume_summary st') =
    added (v_Sale_Price (volume_summary st)) (Sale_Price <$> ms) /\
  v_Basis (volume_summary st') =
    added (v_Basis (volume_summary st)) (Basis <$> ms) /\
  v_Remainder_Units (volume_summary st') =
    v_Remainder_Units (volume_summary st) /\
  v_Remainder_Basis (volume_summary st') =
    v_Remainder_Basis (volume_summary st) /\
  Forall (fun m => Gain_Loss m = (Sale_Price m - Basis m)%float) ms /\
  forall t,
    year_summary st !! "totals" = Some t ->
    exists t',
      year_summary st' !! "totals" = Some t' /\
      Net_CG t' = added (Net_CG t) (Gain_Loss <$> ms).
Proof.
  revert st. induction fuel as [|fuel IH]; intros st; [discriminate|]. simpl.
  destruct (Deque.pop (sell_deque st)) as [[s sells]|] eqn:E.
  - set (st0 := set_queues (buy_deque st) sells st).
    destruct (loop_body s st0) as [st1| |] eqn:L; simpl; try discriminate.
    intros H. destruct (IH st1 H) as (G & P & B & RU & RB & F & N).
    destruct (loop_body_done_fl _ _ _ L) as (m & st2 & _ & M & _).
    assert (K : lot_of (s, st0) = Some m)
      by (unfold lot_of; simpl; now rewrite M).
    destruct (iteration_adds _ _ _ _ L K) as (V & t0 & t1 & T0 & T1 & N1).
    unfold lots. simpl. rewrite K. fold (lots (fifo_iterations fuel st1)).
    rewrite V in G, P, B, RU, RB. simpl in G, P, B, RU, RB.
    rewrite !fmap_cons. unfold added in *. simpl.
    do 5 (split; [assumption|]).
    split; [constructor; [exact (lot_of_gain _ _ K)|exact F]|].
    intros t Ht. simpl in T0. rewrite Ht in T0. injection T0 as <-.
    destruct (N t1 T1) as (t' & T' & N'). exists t'. split; [exact T'|].
    now rewrite N', N1.
  - intros [= <-]. simpl. unfold added. simpl. repeat split; eauto.
Qed.

Lemma carryover_loop_adds fuel st st' :
  carryover_loop fuel st = Done st' ->
  year_summary st' = year_summary st /\
  v_Gain_Loss (volume_summary st') = v_Gain_Loss (volume_summary st) /\
  v_Sale_Price (volume_summary st') = v_Sale_Price (volume_summary st) /\
  v_Basis (volume_summary st') = v_Basis (volume_summary st) /\
  v_Remainder_Units (volume_summary st') =
    added (v_Remainder_Units (volume_summary st))
      (Units <$> rev (buy_deque st)) /\
  v_Remainder_Basis (volume_summary st') =
    added (v_Remainder_Basis (volume_summary st))
      (Total_Amount <$> rev (buy_deque st)).
Proof.
  revert st. induction fuel as [|fuel IH]; intros st; [discriminate|]. simpl.
  destruct (Deque.pop (buy_deque st)) as [[b buys]|] eqn:E.
  - intros H. apply IH in H as (Y & G & P & B & RU & RB). simpl in *.
    apply DequeFacts.pop_Some in E. rewrite E, rev_app_distr. simpl.
    now repeat split.
  - intros [= <-]. apply DequeFacts.pop_None in E. rewrite E.
    now repeat split.
Qed.

(** X6.  The volume summary that closes the data frame of a completed
    asset: its sale price, basis and gain are those of every lot the
    matching loop has built, margin lots and lots the dust filter kept out
    of the data frame included, added one after the other in the order of
    the matches; its remainder columns are the units and amounts of the
    purchases the loop has left, added in the order they are popped.  The
    gain of each lot is its sale price less its basis, and the gain of the
    summary is the sum of those gains. *)
Theorem volume_summary_adds_every_lot
    (a : string) (buys sells : Deque.t Tx) (g g' : Globals) :
  run_asset a (buys, sells) g = Done g' ->
  let st0 := enter_asset a (buys, sells) g in
  let ms := lots (fifo_iterations (S (queued st0)) st0) in
  exists left v,
    fifo g' !! a =
      Some ((LotRow <$> filter (fun m => not_dust (lot_Units m) = true) ms) ++
            (CarryoverRow <$>
               (carryover_row a <$>
                  filter (fun b => (dust <? Units b)%float = true)
                    (rev left))) ++
            [VolumeRow v]) /\
    v_Sale_Price v = added 0 (Sale_Price <$> ms) /\
    v_Basis v = added 0 (Basis <$> ms) /\
    v_Gain_Loss v = added 0 (Gain_Loss <$> ms) /\
    Forall (fun m => Gain_Loss m = (Sale_Price m - Basis m)%float) ms /\
    v_Remainder_Units v = added 0 (Units <$> rev left) /\
    v_Remainder_Basis v = added 0 (Total_Amount <$> rev left).
Proof.
  intros R st0 ms. unfold run_asset in R. fold st0 in R.
  destruct (fifo_loop (S (queued st0)) st0) as [st1| |] eqn:L;
    cbn [bind] in R; try discriminate.
  destruct (carryover_loop (S (queued st1)) st1) as [st2| |] eqn:C;
    cbn [bind] in R; try discriminate.
  injection R as <-.
  destruct (fifo_loop_adds _ _ _ L) as (G & P & B & RU & RB & F & _).
  apply fifo_loop_conserves_fl in L as (_ & T & A & _).
  destruct (carryover_loop_adds _ _ _ C) as (_ & G' & P' & B' & RU' & RB').
  apply carryover_loop_rows in C as (A' & T').
  exists (buy_deque st1), (volume_summary st2). fold ms in G, P, B, F, T.
  simpl. rewrite A', A. simpl. split.
  { rewrite lookup_insert_eq. f_equal. rewrite T', T, A. simpl.
    now rewrite <- app_assoc. }
  rewrite P', B', G', RU', RB', P, B, G, RU, RB. now repeat split.
Qed.

(** X7.  While an asset is processed to the end, the net column of the
    running total of [year_summary] takes the gains of the lots the
    matching loop builds, one after the other: the same gains, in the same
    order, that add up, from zero, to the gain of the asset's volume
    summary. *)
Theorem running_total_adds_the_gains
    (a : string) (buys sells : Deque.t Tx) (g g' : Globals) (t : Bucket) :
  run_asset a (buys, sells) g = Done g' ->
  g_year_summary g !! "totals" = Some t ->
  let st0 := enter_asset a (buys, sells) g in
  let ms := lots (fifo_iterations (S (queued st0)) st0) in
  exists rows v t',
    fifo g' !! a = Some (rows ++ [VolumeRow v]) /\
    v_Gain_Loss v = added 0 (Gain_Loss <$> ms) /\
    g_year_summary g' !! "totals" = Some t' /\
    Net_CG t' = added (Net_CG t) (Gain_Loss <$> ms).
Proof.
  intros R Ht st0 ms. unfold run_asset in R. fold st0 in R.
  destruct (fifo_loop (S (queued st0)) st0) as [st1| |] eqn:L;
    cbn [bind] in R; try discriminate.
  destruct (carryover_loop (S (queued st1)) st1) as [st2| |] eqn:C;
    cbn [bind] in R; try discriminate.
  injection R as <-.
  destruct (fifo_loop_adds _ _ _ L) as (G & _ & _ & _ & _ & _ & N).
  destruct (N t Ht) as (t' & T' & N').
  destruct (carryover_loop_adds _ _ _ C) as (Y & G' & _).
  apply carryover_loop_rows in C as (A' & _).
  apply fifo_loop_conserves_fl in L as (_ & _ & A & _).
  exists (fifo_asset st2), (volume_summary st2), t'. fold ms in G, N'.
  simpl. rewrite A', A. simpl.
  split; [apply lookup_insert_eq|]. split; [now rewrite G', G|].
  split; [now rewrite Y|exact N'].
Qed.

(** ** The properties on sample logs *)

Import Float64Sample.

(** Two floats that compare different are different. *)
Ltac floats_differ :=
  let E := fresh in
  intros E;
  match type of E with
  | ?x = ?y => apply (f_equal (fun z => (z =? y)%float)) in E
  end;
  vm_compute in E; discriminate E.

Ltac numbers_differ :=
  let E := fresh in
  intros E; apply (f_equal this) in E; vm_compute in E; discriminate E.

Lemma covered_match_by_magnitude_witness :
  Deque.pop (buy_deque (start "BTC" [b_two] [])) = Some (b_two, []) /\
  ~ uncovered (start "BTC" [b_two] []) s_one /\
  exists m b' st',
    final (loop_body s_one (start "BTC" [b_two] [])) = Some st' /\
    lot_Units m = abs (Units s_one) /\
    Basis m = (abs (Units s_one) / Units b_two * Total_Amount b_two)%float /\
    Deque.pop (buy_deque st') = Some (b', []) /\
    Units b' = (Units b_two + Units s_one)%float /\
    Total_Amount b' = (Total_Amount b_two - Basis m)%float.
Proof.
  assert (H1 : Deque.pop (buy_deque (start "BTC" [b_two] []))
               = Some (b_two, [])) by reflexivity.
  assert (H2 : ~ uncovered (start "BTC" [b_two] []) s_one).
  { intros [H|(b & [= <-] & H)]; [discriminate H|].
    vm_compute in H. discriminate H. }
  split; [exact H1|]. split; [exact H2|].
  destruct (covered_match_by_magnitude s_one b_two [] _ H1 H2)
    as (_ & P & _).
  destruct P as (m & b' & st' & F & _ & U & _ & B & _ & Q & U' & A & _);
    [reflexivity..|].
  exists m, b', st'. repeat (split; [assumption|]). exact A.
Defined.

(** C6, as stated, fails.  Three units bought for 1 each are sold for 0.1,
    1.5 and 0.5: the gains are -0.9, 0.5 and -0.5, and the script ends with
    a net column of -0.9 beside a gain column of 0.5 and a loss column of
    -1.4, which add up to -0.8999999999999999.  Sold for 0.1 in 2021 and for
    0.2 and 0.3 in 2022, they leave a net column of -2.4000000000000004 in
    the running total and of -0.9 and -1.5 in the two years.  In both cases
    the two sides differ as floats and as the numbers the floats stand
    for. *)
Lemma year_summary_identities_fail :
  (exists g t,
     run_asset "BTC" ([b_x3; b_x2; b_x1], [s_x3; s_x2; s_x1]) initial_globals
     = Done g /\
     g_year_summary g !! "totals" = Some t /\
     Net_CG t ≠ columns_sum t /\
     value (Net_CG t) ≠
       (value (STCG t) + value (STCL t) + value (LTCG t) + value (LTCL t))%Qc) /\
  (exists g t y1 y2,
     run_asset "BTC" ([b_x3; b_x2; b_x1], [s_y3; s_y2; s_y1]) initial_globals
     = Done g /\
     g_year_summary g !! "totals" = Some t /\
     map_to_list (delete "totals" (g_year_summary g)) =
       [("2021", y1); ("2022", y2)] /\
     Net_CG t ≠ (Net_CG y1 + Net_CG y2)%float /\
     value (Net_CG t) ≠ (value (Net_CG y1) + value (Net_CG y2))%Qc).
Proof.
  split.
  - eexists _, _. split; [vm_compute; reflexivity|].
    split; [vm_compute; reflexivity|].
    split; [floats_differ|numbers_differ].
  - eexists _, _, _, _. split; [vm_compute; reflexivity|].
    split; [vm_compute; reflexivity|].
    split; [vm_compute; reflexivity|].
    split; [floats_differ|numbers_differ].
Qed.

Lemma year_summary_grows_by_the_gain_witness :
  year_summary (start "BTC" [b_two] []) !! "totals" = Some totals_bucket /\
  loop_body s_one (start "BTC" [b_two] []) =
    Done (done (start "BTC" [] []) (loop_body s_one (start "BTC" [b_two] []))) /\
  exists col g t',
    year_summary
      (done (start "BTC" [] []) (loop_body s_one (start "BTC" [b_two] [])))
      !! "totals" = Some t' /\
    gained col g totals_bucket t'.
Proof.
  assert (H1 : year_summary (start "BTC" [b_two] []) !! "totals"
               = Some totals_bucket) by (vm_compute; reflexivity).
  assert (H2 : loop_body s_one (start "BTC" [b_two] []) =
               Done (done (start "BTC" [] [])
                       (loop_body s_one (start "BTC" [b_two] []))))
    by (vm_compute; reflexivity).
  split; [exact H1|]. split; [exact H2|].
  destruct (year_summary_grows_by_the_gain s_one _ _ totals_bucket H1 H2)
    as (m & col & g & y' & t' & _ & _ & _ & _ & T & G & _).
  exists col, g, t'. split; [exact T|exact G].
Defined.

(** Rounding alone breaks the conservation of C8 beyond its tolerance: of
    1.5e9 units bought, 0.1 is sold.  The data frame shows the one lot and
    the one purchase left, and the units it shows differ from the units
    bought by more than 9.5e-8, which is what line 191 has lost. *)
Lemma rounding_breaks_conservation :
  exists g m c v,
    run_asset "DOGE" ([b_large], [s_tenth]) initial_globals = Done g /\
    fifo g !! "DOGE" = Some [LotRow m; CarryoverRow c; VolumeRow v] /\
    (value dust <
     Qcabs (sum_values [b_large]
            - shown_units [LotRow m; CarryoverRow c; VolumeRow v]))%Qc /\
    (sum_values [b_large]
     - shown_units [LotRow m; CarryoverRow c; VolumeRow v]
     = reduction_loss b_large s_tenth)%Qc.
Proof.
  eexists _, _, _, _. split; [vm_compute; reflexivity|].
  split; [vm_compute; reflexivity|].
  split; [vm_compute; reflexivity|].
  apply Qc_is_canon. vm_compute. reflexivity.
Qed.

Lemma volume_summary_adds_every_lot_witness :
  run_asset "DOGE" ([b_large], [s_tenth]) initial_globals =
    Done (done initial_globals
            (run_asset "DOGE" ([b_large], [s_tenth]) initial_globals)) /\
  exists rows v,
    fifo (done initial_globals
            (run_asset "DOGE" ([b_large], [s_tenth]) initial_globals))
      !! "DOGE" = Some (rows ++ [VolumeRow v]) /\
    v_Gain_Loss v =
      added 0 (Gain_Loss <$> lots (fifo_iterations (S (queued doge)) doge)).
Proof.
  assert (H : run_asset "DOGE" ([b_large], [s_tenth]) initial_globals =
              Done (done initial_globals
                      (run_asset "DOGE" ([b_large], [s_tenth])
                         initial_globals)))
    by (vm_compute; reflexivity).
  split; [exact H|].
  destruct (volume_summary_adds_every_lot _ _ _ _ _ H)
    as (left & v & T & _ & _ & G & _).
  eexists _, v. split; [rewrite T; now rewrite app_assoc|exact G].
Defined.

Lemma running_total_adds_the_gains_witness :
  run_asset "DOGE" ([b_large], [s_tenth]) initial_globals =
    Done (done initial_globals
            (run_asset "DOGE" ([b_large], [s_tenth]) initial_globals)) /\
  g_year_summary initial_globals !! "totals" = Some totals_bucket /\
  exists t',
    g_year_summary
      (done initial_globals
         (run_asset "DOGE" ([b_large], [s_tenth]) initial_globals))
      !! "totals" = Some t' /\
    Net_CG t' =
      added (Net_CG totals_bucket)
        (Gain_Loss <$> lots (fifo_iterations (S (queued doge)) doge)).
Proof.
  assert (H1 : run_asset "DOGE" ([b_large], [s_tenth]) initial_globals =
               Done (done initial_globals
                       (run_asset "DOGE" ([b_large], [s_tenth])
                          initial_globals)))
    by (vm_compute; reflexivity).
  assert (H2 : g_year_summary initial_globals !! "totals"
               = Some totals_bucket) by (vm_compute; reflexivity).
  split; [exact H1|]. split; [exact H2|].
  destruct (running_total_adds_the_gains _ _ _ _ _ _ H1 H2)
    as (rows & v & t' & _ & _ & T & N).
  exists t'. split; [exact T|exact N].
Defined.
End Float64Facts.
